(** * RT-4BC: a shallow embedding of the calibration, alignment and raster
    pipeline, and the properties of it that the specification states.

    The file has two parts.  Part I translates the Python sources
    (Core/*.py and the parts of Lib/*.py that drive them) into Rocq
    definitions, one module per source class.  Part II states and proves
    the properties.

    Conventions of the embedding.
    - A Python [str] is a list of Unicode code points ([pystr]).  Dictionary
      keys that the program builds itself (raster names, homography keys)
      are plain Rocq strings.
    - Library calls whose code is not part of the repository (the Unicode
      tables behind [\w], [\s] and [str.strip]; NumPy float arithmetic;
      [float()], [int()], [eval]; OpenCV; joblib; the file system) are
      parameters of the model.
    - A method that mutates [self] is a function from the old object state
      to the new one together with the returned value. *)

From stdpp Require Import base option list gmap strings pretty.
From Stdlib Require Import ZArith NArith QArith Qround Lia.

Open Scope Z_scope.
Open Scope list_scope.

(* ================================================================== *)
(** * Part I.  The model                                                *)
(* ================================================================== *)

(** ** Python strings *)

Module PyStr.

Definition pystr := list N.

(** A string literal of the source, as code points. *)
Definition lit (s : string) : pystr :=
  map Ascii.N_of_ascii (String.list_ascii_of_string s).

(** Unicode classification of the code points beyond ASCII.  CPython takes
    it from its Unicode database; the model takes it as a parameter. *)
Class UnicodeData := {
  uni_isalnum : N -> bool;
  uni_isspace : N -> bool
}.

(** CPython's classification of the ASCII range. *)
Definition ascii_isalnum (c : N) : bool :=
  ((48 <=? c) && (c <=? 57) || (65 <=? c) && (c <=? 90)
   || (97 <=? c) && (c <=? 122))%N.

Definition ascii_isspace (c : N) : bool :=
  ((9 <=? c) && (c <=? 13) || (28 <=? c) && (c <=? 31) || (c =? 32))%N.

Section Classes.
Context `{UnicodeData}.

Definition isalnum (c : N) : bool :=
  if (c <? 128)%N then ascii_isalnum c else uni_isalnum c.

(** [str.isspace] on one code point; also the regex class [\s]. *)
Definition isspace (c : N) : bool :=
  if (c <? 128)%N then ascii_isspace c else uni_isspace c.

(** The regex class [\w]: alphanumeric or underscore. *)
Definition isword (c : N) : bool := isalnum c || (c =? 95)%N.

Fixpoint lstrip (s : pystr) : pystr :=
  match s with
  | [] => []
  | c :: r => if isspace c then lstrip r else s
  end.

Definition rstrip (s : pystr) : pystr := rev (lstrip (rev s)).

(** [s.strip()] *)
Definition strip (s : pystr) : pystr := rstrip (lstrip s).

End Classes.

Fixpoint startswith (s p : pystr) : bool :=
  match p, s with
  | [], _ => true
  | _ :: _, [] => false
  | a :: p', b :: s' => (a =? b)%N && startswith s' p'
  end.

(** [needle in s] on strings: substring search. *)
Fixpoint contains (s needle : pystr) : bool :=
  startswith s needle ||
  match s with
  | [] => false
  | _ :: r => contains r needle
  end.

(** [s.split(sep)] for a one-character separator. *)
Fixpoint split (sep : N) (s : pystr) : list pystr :=
  match s with
  | [] => [[]]
  | c :: r =>
      if (c =? sep)%N then [] :: split sep r
      else match split sep r with
           | [] => [[c]]
           | w :: ws => (c :: w) :: ws
           end
  end.

(** Number of leading code points of [s] that satisfy [p]. *)
Fixpoint span_len (p : N -> bool) (s : pystr) : nat :=
  match s with
  | c :: r => if p c then S (span_len p r) else O
  | [] => O
  end.

(** The regex anchor [$] at offset [k] of [s] (no MULTILINE flag): the end
    of the string, or just before a newline that ends the string. *)
Definition at_dollar (s : pystr) (k : nat) : bool :=
  (k =? length s)%nat
  || ((S k =? length s)%nat && (nth k s 0%N =? 10)%N).

(** [re.match] of the pattern [^[cls]+$]: the greedy repetition consumes
    the leading run of class members and gives characters back one by one
    until [$] holds; at least one character must be consumed. *)
Definition match_class_plus_dollar (cls : N -> bool) (s : pystr) : bool :=
  existsb (at_dollar s) (seq 1 (span_len cls s)).

End PyStr.

Import PyStr.

(** ** Calls and sequences *)

(** How a call ends: with a returned value or with an uncaught exception. *)
Inductive result (X : Type) :=
| Return (x : X)
| Raise.
Arguments Return {X}.
Arguments Raise {X}.

(** [l[i]] on a list or tuple: a negative index counts from the end, and an
    index out of range raises [IndexError] ([None]). *)
Definition py_index {X} (l : list X) (i : Z) : option X :=
  if i <? 0 then
    if - Z.of_nat (length l) <=? i then l !! Z.to_nat (i + Z.of_nat (length l))
    else None
  else l !! Z.to_nat i.

(** [sep.join(parts)] *)
Fixpoint join (sep : pystr) (parts : list pystr) : pystr :=
  match parts with
  | [] => []
  | [x] => x
  | x :: rest => x ++ sep ++ join sep rest
  end.

(** Library functions on text and paths that the repository calls. *)
Class PyLib := {
  int_of_str : pystr -> option Z;          (* [int(text)]; [None]: it raises *)
  path_basename : pystr -> pystr;          (* [os.path.basename] *)
  path_splitext : pystr -> pystr * pystr   (* [os.path.splitext] *)
}.

(** ** Insertion-ordered dictionaries (Python [dict]) *)

Module PyDict.

Section Dict.
Context {V : Type}.

Definition t := list (string * V).

Fixpoint get (k : string) (d : t) : option V :=
  match d with
  | [] => None
  | (k', v) :: r => if String.eqb k k' then Some v else get k r
  end.

(** [k in d] *)
Definition mem (k : string) (d : t) : bool :=
  match get k d with Some _ => true | None => false end.

(** [d[k] = v]: an existing key keeps its position, a new key goes last. *)
Fixpoint set (k : string) (v : V) (d : t) : t :=
  match d with
  | [] => [(k, v)]
  | (k', v') :: r =>
      if String.eqb k k' then (k', v) :: r else (k', v') :: set k v r
  end.

(** [list(d.keys())] *)
Definition keys (d : t) : list string := map fst d.

End Dict.

Arguments t : clear implicits.

End PyDict.

(** ** Core/Core_RasterCalculation.py *)

Module CoreRasterCalculator.

(** The character class of the validator's pattern
    [^[\w\s\+\-\*\/\%\(\)\.]+$]. *)
Definition allowed_chars : pystr := lit "+-*/%().".

Definition in_allowed `{UnicodeData} (c : N) : bool :=
  isword c || isspace c || existsb (N.eqb c) allowed_chars.

Definition bands : list pystr := [lit "R1"; lit "R2"; lit "R3"; lit "R4"].

Definition validate_expression `{UnicodeData} (expression : pystr)
  : bool * string :=
  match strip expression with
  | [] => (false, "Expression is empty")
  | _ :: _ =>
      if negb (match_class_plus_dollar in_allowed expression) then
        (false, "Expression contains invalid characters")
      else if negb (existsb (contains expression) bands) then
        (false, "Expression must reference at least one band (R1-R4)")
      else (true, "")
  end.

Section Calculator.
(** [A] is the type of arrays; [py_eval expression [R1;R2;R3;R4]] is the
    outcome of [eval(expression, namespace)] followed by the conversion to
    an array, [None] when either raises. *)
Context {A : Type}.
Variable py_eval : pystr -> list A -> option A.

Record state := {
  calculated_rasters : PyDict.t A;
  raster_expressions : PyDict.t pystr;
  raster_counter : Z
}.

Definition init : state :=
  {| calculated_rasters := []; raster_expressions := []; raster_counter := 0 |}.

Definition evaluate_expression (expression : pystr)
    (reflectance_tiles : option (list A)) : option A :=
  match reflectance_tiles with
  | None => None
  | Some tiles =>
      if negb (length tiles =? 4)%nat then None
      else py_eval expression tiles
  end.

(** The f-string [f"Raster {n}"]. *)
Definition raster_name (n : Z) : string := "Raster " +:+ pretty n.

Definition add_calculated_raster (expression : pystr) (result : A)
    (self : state) : string * state :=
  let counter := raster_counter self + 1 in
  let name := raster_name counter in
  (name,
   {| calculated_rasters := PyDict.set name result (calculated_rasters self);
      raster_expressions := PyDict.set name expression (raster_expressions self);
      raster_counter := counter |}).

Definition get_raster_list (self : state) : list string :=
  PyDict.keys (calculated_rasters self).

Definition get_raster (name : string) (self : state) : option A :=
  PyDict.get name (calculated_rasters self).

Definition clear_all_rasters (self : state) : state :=
  {| calculated_rasters := []; raster_expressions := []; raster_counter := 0 |}.

(** The two methods that change the store, as operations of a session. *)
Inductive op :=
| Add (expression : pystr) (result : A)
| Clear.

(** A session from the state [self]: the names that
    [add_calculated_raster] returned, in order, and the state at the end. *)
Fixpoint session (ops : list op) (self : state) : list string * state :=
  match ops with
  | [] => ([], self)
  | Add expression result :: rest =>
      let (name, self') := add_calculated_raster expression result self in
      let (names, final) := session rest self' in
      (name :: names, final)
  | Clear :: rest => session rest (clear_all_rasters self)
  end.

End Calculator.

Arguments state : clear implicits.
Arguments op : clear implicits.

End CoreRasterCalculator.

(** ** Lib/Lib_RasterCalculation.py: the paths that reach the evaluator *)

Module RasterCalculationTab.

(** What the tab asks of its [CoreRasterCalculator], in call order. *)
Inductive event :=
| EvValidate (expression : pystr) (is_valid : bool)
| EvEvaluate (expression : pystr).

Section Tab.
Context `{UnicodeData} {A : Type}.
Variable py_eval : pystr -> list A -> option A.

(** The fields of the widget that the raster paths read or write.  The
    pixmaps and status messages are write-only outputs and are left out;
    [calls] is the trace of validator and evaluator calls. *)
Record tab := {
  raster_calculator : CoreRasterCalculator.state A;
  current_reflectance_tiles : option (list A);
  ras_func_txt : pystr;
  ras_calc_list : list string;
  calls : list event
}.

Definition init : tab :=
  {| raster_calculator := CoreRasterCalculator.init;
     current_reflectance_tiles := None;
     ras_func_txt := [];
     ras_calc_list := [];
     calls := [] |}.

(** A small state monad over the widget. *)
Definition M (X : Type) : Type := tab -> X * tab.
Definition ret {X} (x : X) : M X := fun s => (x, s).
Definition bind {X Y} (m : M X) (k : X -> M Y) : M Y :=
  fun s => let (x, s') := m s in k x s'.
Definition gets {X} (f : tab -> X) : M X := fun s => (f s, s).
Definition modify (f : tab -> tab) : M unit := fun s => (tt, f s).

Notation "'let*' x ':=' m 'in' k" := (bind m (fun x => k))
  (at level 10, x name, m at level 100, k at level 200).
Notation "m >> k" := (bind m (fun _ => k))
  (at level 62, right associativity).

Definition set_calculator (c : CoreRasterCalculator.state A) (s : tab) : tab :=
  {| raster_calculator := c;
     current_reflectance_tiles := current_reflectance_tiles s;
     ras_func_txt := ras_func_txt s;
     ras_calc_list := ras_calc_list s;
     calls := calls s |}.

Definition set_tiles (t : option (list A)) (s : tab) : tab :=
  {| raster_calculator := raster_calculator s;
     current_reflectance_tiles := t;
     ras_func_txt := ras_func_txt s;
     ras_calc_list := ras_calc_list s;
     calls := calls s |}.

Definition set_txt (t : pystr) (s : tab) : tab :=
  {| raster_calculator := raster_calculator s;
     current_reflectance_tiles := current_reflectance_tiles s;
     ras_func_txt := t;
     ras_calc_list := ras_calc_list s;
     calls := calls s |}.

Definition set_list (l : list string) (s : tab) : tab :=
  {| raster_calculator := raster_calculator s;
     current_reflectance_tiles := current_reflectance_tiles s;
     ras_func_txt := ras_func_txt s;
     ras_calc_list := l;
     calls := calls s |}.

Definition record (e : event) (s : tab) : tab :=
  {| raster_calculator := raster_calculator s;
     current_reflectance_tiles := current_reflectance_tiles s;
     ras_func_txt := ras_func_txt s;
     ras_calc_list := ras_calc_list s;
     calls := calls s ++ [e] |}.

(** [self.raster_calculator.validate_expression(expression)] *)
Definition call_validate (expression : pystr) : M (bool * string) :=
  let r := CoreRasterCalculator.validate_expression expression in
  modify (record (EvValidate expression (fst r))) >> ret r.

(** [self.raster_calculator.evaluate_expression(expression,
    self.current_reflectance_tiles)] *)
Definition call_evaluate (expression : pystr) : M (option A) :=
  modify (record (EvEvaluate expression)) >>
  let* tiles := gets current_reflectance_tiles in
  ret (CoreRasterCalculator.evaluate_expression py_eval expression tiles).

Definition check_raster_expression : M unit :=
  let* txt := gets ras_func_txt in
  call_validate (strip txt) >> ret tt.

(** [reply] is the answer to the confirmation dialog. *)
Definition reset_raster_expression (reply_yes : bool) : M unit :=
  if reply_yes then
    modify (set_txt []) >>
    modify (fun s => set_calculator
              (CoreRasterCalculator.clear_all_rasters (raster_calculator s)) s) >>
    modify (set_list [])
  else ret tt.

Definition apply_raster_expression : M unit :=
  let* txt := gets ras_func_txt in
  let expression := strip txt in
  let* v := call_validate expression in
  if negb (fst v) then ret tt
  else
    let* tiles := gets current_reflectance_tiles in
    match tiles with
    | None => ret tt
    | Some _ =>
        let* result := call_evaluate expression in
        match result with
        | None => ret tt
        | Some r =>
            let* c := gets raster_calculator in
            let (name, c') :=
              CoreRasterCalculator.add_calculated_raster expression r c in
            modify (set_calculator c') >>
            modify (fun s => set_list (ras_calc_list s ++ [name]) s)
        end
    end.

(** One turn of the loop of [update_all_rasters]. *)
Definition update_one_raster (raster_name : string) : M unit :=
  let* c := gets raster_calculator in
  match PyDict.get raster_name (CoreRasterCalculator.raster_expressions c) with
  | None => ret tt
  | Some [] => ret tt
  | Some expression =>
      let* result := call_evaluate expression in
      match result with
      | None => ret tt
      | Some r =>
          modify (fun s =>
            let c := raster_calculator s in
            set_calculator
              {| CoreRasterCalculator.calculated_rasters :=
                   PyDict.set raster_name r
                     (CoreRasterCalculator.calculated_rasters c);
                 CoreRasterCalculator.raster_expressions :=
                   CoreRasterCalculator.raster_expressions c;
                 CoreRasterCalculator.raster_counter :=
                   CoreRasterCalculator.raster_counter c |} s)
      end
  end.

Fixpoint for_each (names : list string) (body : string -> M unit) : M unit :=
  match names with
  | [] => ret tt
  | n :: rest => body n >> for_each rest body
  end.

Definition update_all_rasters : M unit :=
  let* tiles := gets current_reflectance_tiles in
  match tiles with
  | None => ret tt
  | Some _ =>
      let* c := gets raster_calculator in
      for_each (CoreRasterCalculator.get_raster_list c) update_one_raster
  end.

Definition overlay_expr : pystr := lit "R1//4 + R2//4 + R3//4 + R4//4".

Definition ensure_overlay_raster : M unit :=
  let* tiles := gets current_reflectance_tiles in
  match tiles with
  | None => ret tt
  | Some _ =>
      let* c := gets raster_calculator in
      if negb (PyDict.mem "Overlay" (CoreRasterCalculator.calculated_rasters c))
      then
        let* result := call_evaluate overlay_expr in
        match result with
        | None => ret tt
        | Some r =>
            modify (fun s =>
              let c := raster_calculator s in
              set_calculator
                {| CoreRasterCalculator.calculated_rasters :=
                     PyDict.set "Overlay" r
                       (CoreRasterCalculator.calculated_rasters c);
                   CoreRasterCalculator.raster_expressions :=
                     PyDict.set "Overlay" overlay_expr
                       (CoreRasterCalculator.raster_expressions c);
                   CoreRasterCalculator.raster_counter :=
                     CoreRasterCalculator.raster_counter c |} s) >>
            modify (fun s =>
              if bool_decide ("Overlay" ∈ ras_calc_list s) then s
              else set_list ("Overlay" :: ras_calc_list s) s)
        end
      else ret tt
  end.

(** [update_reflectance_display], run by the 500 ms timer and by the
    reflectance button.  [tiles] is what [calculate_reflectance] returned
    ([None] also stands for the early returns before it is called), and
    [display_ok] tells whether drawing the four tiles raised: the whole body
    sits in one [try], so an exception there skips the raster paths. *)
Definition update_reflectance_display (tiles : option (list A))
    (display_ok : bool) : M unit :=
  match tiles with
  | None => ret tt
  | Some t =>
      modify (set_tiles (Some t)) >>
      if display_ok then ensure_overlay_raster >> update_all_rasters
      else ret tt
  end.

(** What can happen to the tab: the operator edits the expression box or
    presses a button, or the timer fires. *)
Inductive action :=
| EditExpression (text : pystr)
| Check
| Reset (reply_yes : bool)
| Apply
| UpdateReflectance (tiles : option (list A)) (display_ok : bool).

Definition handle (a : action) : M unit :=
  match a with
  | EditExpression text => modify (set_txt text)
  | Check => check_raster_expression
  | Reset reply => reset_raster_expression reply
  | Apply => apply_raster_expression
  | UpdateReflectance tiles ok => update_reflectance_display tiles ok
  end.

Fixpoint run (acts : list action) (s : tab) : tab :=
  match acts with
  | [] => s
  | a :: rest => run rest (snd (handle a s))
  end.

End Tab.

Arguments tab : clear implicits.
Arguments action : clear implicits.

End RasterCalculationTab.

(** ** NumPy arrays and Python floats *)

Module Numpy.

(** A two-dimensional [ndarray]: its shape and its items. *)
Record ndarray (T : Type) := {
  nrows : nat;
  ncols : nat;
  item : nat -> nat -> T
}.
Arguments nrows {T}.
Arguments ncols {T}.
Arguments item {T}.

Definition shape {T} (a : ndarray T) : nat * nat := (nrows a, ncols a).

(** [a.size] *)
Definition size {T} (a : ndarray T) : nat := (nrows a * ncols a)%nat.

(** The bound of a slice, as Python normalises it against a length: a
    negative bound counts from the end, and both are clipped. *)
Definition slice_bound (len : nat) (i : Z) : nat :=
  if i <? 0 then Z.to_nat (Z.max 0 (i + Z.of_nat len))
  else Nat.min (Z.to_nat i) len.

(** [a[y1:y2, x1:x2]] *)
Definition slice {T} (a : ndarray T) (y1 y2 x1 x2 : Z) : ndarray T :=
  let r1 := slice_bound (nrows a) y1 in
  let r2 := slice_bound (nrows a) y2 in
  let c1 := slice_bound (ncols a) x1 in
  let c2 := slice_bound (ncols a) x2 in
  {| nrows := r2 - r1;
     ncols := c2 - c1;
     item := fun r c => item a (r1 + r) (c1 + c) |}.

(** [a[:, x1:x2]] *)
Definition slice_cols {T} (a : ndarray T) (x1 x2 : Z) : ndarray T :=
  slice a 0 (Z.of_nat (nrows a)) x1 x2.

(** [a.astype(...)], item by item. *)
Definition astype {T U} (f : T -> U) (a : ndarray T) : ndarray U :=
  {| nrows := nrows a; ncols := ncols a; item := fun r c => f (item a r c) |}.

(** One axis of broadcasting: equal lengths, or one of them is 1. *)
Definition broadcast_dim (n m : nat) : option nat :=
  if (n =? m)%nat then Some n
  else if (n =? 1)%nat then Some m
  else if (m =? 1)%nat then Some n
  else None.

(** [a op b] on two arrays; [None] when the shapes do not broadcast
    (NumPy raises [ValueError]). *)
Definition binop {T} (op : T -> T -> T) (a b : ndarray T) : option (ndarray T) :=
  match broadcast_dim (nrows a) (nrows b), broadcast_dim (ncols a) (ncols b) with
  | Some h, Some w =>
      Some {| nrows := h; ncols := w;
              item := fun r c =>
                op (item a (if (nrows a =? 1)%nat then O else r)
                           (if (ncols a =? 1)%nat then O else c))
                   (item b (if (nrows b =? 1)%nat then O else r)
                           (if (ncols b =? 1)%nat then O else c)) |}
  | _, _ => None
  end.

(** [a op x] for an array and a scalar. *)
Definition scalar_op {T} (op : T -> T -> T) (a : ndarray T) (x : T) : ndarray T :=
  {| nrows := nrows a; ncols := ncols a; item := fun r c => op (item a r c) x |}.

(** The items in row-major order ([a.flatten()]). *)
Definition flatten {T} (a : ndarray T) : list T :=
  flat_map (fun r => map (item a r) (seq 0 (ncols a))) (seq 0 (nrows a)).

(** [np.array(values).reshape(h, w)]; [None] when the count does not fit. *)
Definition reshape {T} (d : T) (values : list T) (h w : nat) : option (ndarray T) :=
  if (length values =? h * w)%nat then
    Some {| nrows := h; ncols := w;
            item := fun r c => nth (r * w + c) values d |}
  else None.

End Numpy.

Import Numpy.

(** Float arithmetic and the conversions between floats and text.  The
    repository relies on Python and NumPy for them; the model is stated
    over any implementation. *)
Class PyFloat (F : Type) := {
  float_of_int : Z -> F;             (* [float(n)], [.astype(np.float32)] *)
  fsub : F -> F -> F;
  fdiv : F -> F -> F;
  feq0 : F -> bool;                  (* [x == 0] *)
  float_of_str : pystr -> option F;  (* [float(text)]; [None]: it raises *)
  format_2f : F -> pystr;            (* [f"{x:.2f}"] *)
  np_mean : list Z -> F              (* [float(np.mean(items))] *)
}.

(** ** Core/Core_ImageLoad.py *)

Module CoreImageLoad.

Definition FRAME_H : nat := 480.
Definition FRAME_W : nat := 640.
Definition FULL_W : nat := FRAME_W * 4.

(** [load_reference_image] with [tiles_store] given and a non-empty [path]:
    [img] is what [cv2.imread] returned ([None] when it failed).  The result
    is the new content of [tiles_store]; the labels are outputs only. *)
Definition load_reference_image (img : option (ndarray Z))
    (tiles_store : list (option (ndarray Z))) : list (option (ndarray Z)) :=
  match img with
  | None => tiles_store
  | Some img =>
      if negb (bool_decide (shape img = (FRAME_H, FULL_W))) then tiles_store
      else
        fold_left
          (fun store i =>
             <[ i := Some (slice_cols img (Z.of_nat (i * FRAME_W))
                                      (Z.of_nat ((i + 1) * FRAME_W))) ]> store)
          (seq 0 4) tiles_store
  end.

End CoreImageLoad.

(** ** Core/Core_ReflectanceCalculation.py *)

Module CoreReflectanceCalculator.

Definition FRAME_H : nat := 480.
Definition FRAME_W : nat := 640.

Section Reflectance.
Context {F : Type} `{PyFloat F}.

(** The arguments of [calculate_reflectance]: sliders are given by their
    [value()], line edits by their [text()]. *)
Variable last_fullframe : option (ndarray Z).
Variable bg_tiles : list (option (ndarray Z)).
Variable expo_sliders : list Z.
Variable ref_cam_entries : list pystr.
Variable EXPO_MS : list F.

(** Lines 54-59: the exposure of band [i] in ms; [None] when the table
    lookup raises [IndexError]. *)
Definition band_exposure_ms (i : nat) : option F :=
  match expo_sliders !! i with
  | Some value =>
      let level := Z.max 1 (Z.min 12 value) in
      EXPO_MS !! Z.to_nat (level - 1)
  | None => Some (float_of_int 1)
  end.

(** Lines 62-65: the reference radiance of band [i]; any exception of the
    lookup or of [float()] gives 0.0. *)
Definition band_ref_radiance (i : nat) : F :=
  match ref_cam_entries !! i with
  | Some text =>
      match float_of_str text with
      | Some x => x
      | None => float_of_int 0
      end
  | None => float_of_int 0
  end.

(** The body of the loop over the bands, with the tiles appended so far.
    The second component is [warning_invalid_params_shown] afterwards. *)
Fixpoint bands_loop (frame : ndarray Z) (todo : list nat)
    (reflectance_tiles : list (ndarray F)) (shown : bool)
  : result (option (list (ndarray F))) * bool :=
  match todo with
  | [] => (Return (Some reflectance_tiles), shown)
  | i :: rest =>
      match bg_tiles !! i with
      | None => (Raise, shown)
      | Some None => (Return None, true)
      | Some (Some bg) =>
          let cam_tile :=
            astype float_of_int
              (slice_cols frame (Z.of_nat (i * FRAME_W))
                                (Z.of_nat ((i + 1) * FRAME_W))) in
          let bg_tile := astype float_of_int bg in
          match band_exposure_ms i with
          | None => (Raise, shown)
          | Some exp_ms =>
              let ref_rad := band_ref_radiance i in
              if feq0 exp_ms || feq0 ref_rad then (Return None, true)
              else
                match binop fsub cam_tile bg_tile with
                | None => (Raise, shown)
                | Some numerator =>
                    let refl :=
                      scalar_op fdiv (scalar_op fdiv numerator exp_ms) ref_rad in
                    bands_loop frame rest (reflectance_tiles ++ [refl]) shown
                end
          end
      end
  end.

Definition calculate_reflectance (warning_invalid_params_shown : bool)
  : result (option (list (ndarray F))) * bool :=
  match last_fullframe with
  | None => (Return None, warning_invalid_params_shown)
  | Some frame => bands_loop frame (seq 0 4) [] warning_invalid_params_shown
  end.

End Reflectance.

End CoreReflectanceCalculator.

(** ** Core/Core_Classifier.py *)

Module CoreClassifier.

(** The [except] clauses around [joblib.load]. *)
Inductive load_error :=
| ModuleNotFoundError
| AttributeError
| EOFError
| OtherException.

Section Classifier.
(** [Obj]: the Python objects other than [None] that a file can hold;
    [has_predict obj] is [hasattr(obj, 'predict')]. *)
Context {Obj : Type}.
Variable has_predict : Obj -> bool.

(** What the file system answers. [joblib_load] gives the exception it
    raises or the object it returns ([None] is Python's [None]). *)
Record filesystem := {
  path_exists : pystr -> bool;
  getsize : pystr -> Z;
  joblib_load : pystr -> load_error + option Obj
}.

Record state := {
  model : option Obj;
  model_path : option pystr
}.

Definition init : state := {| model := None; model_path := None |}.

(** [hasattr(self.model, 'predict')] *)
Definition model_has_predict (m : option Obj) : bool :=
  match m with
  | Some obj => has_predict obj
  | None => false
  end.

Definition load_model (fs : filesystem) (filepath : pystr) (self : state)
  : bool * state :=
  if negb (path_exists fs filepath) then (false, self)
  else if getsize fs filepath <? 100 then (false, self)
  else
    match joblib_load fs filepath with
    | inl _ => (false, self)
    | inr loaded =>
        (* [self.model = joblib.load(filepath)] has run *)
        let self := {| model := loaded; model_path := model_path self |} in
        if negb (model_has_predict (model self)) then (false, self)
        else (true, {| model := model self; model_path := Some filepath |})
    end.

End Classifier.

Arguments state : clear implicits.
Arguments filesystem : clear implicits.

End CoreClassifier.

(** ** Core/Core_GeoTransform.py *)

Module CoreGeoTransform.

(** [d.get(key)] on a dictionary whose values may be [None]. *)
Definition dict_get {V} (d : gmap string (option V)) (key : string) : option V :=
  match d !! key with
  | Some (Some v) => Some v
  | _ => None
  end.

(** The f-strings [f'H_{i}1'] and [f'matches_{i}1']. *)
Definition H_key (i : Z) : string := "H_" +:+ pretty i +:+ "1".
Definition matches_key (i : Z) : string := "matches_" +:+ pretty i +:+ "1".

(** What [ConfigParser] holds, and what it reads back from a file it
    wrote: sections, each with its options. *)
Abbreviation ini := (gmap string (gmap string pystr)).

(** [self.homography_matrices] *)
Abbreviation homographies F := (gmap string (option (ndarray F))).

Section Config.
(** [F]: the matrix entries; [str_of_float v] is [str(v)] and
    [float_of_text v] is [float(v)], [None] when it raises [ValueError]. *)
Context {F : Type}.
Variable str_of_float : F -> pystr.
Variable float_of_text : pystr -> option F.
Variable fzero : F.

(** [__init__] *)
Definition init : homographies F :=
  {[ "H_21" := None; "H_31" := None; "H_41" := None ]}.

Definition save_config_ini (homography_matrices : homographies F) : ini :=
  fold_left
    (fun (config : ini) key =>
       match dict_get homography_matrices key with
       | Some H =>
           let H_flat := join (lit ",") (map str_of_float (flatten H)) in
           <[ key := {[ "matrix" := H_flat ]} ]> config
       | None => <[ key := {[ "matrix" := lit "None" ]} ]> config
       end)
    ["H_11"; "H_21"; "H_31"; "H_41"] ∅.

(** [[float(v) for v in matrix_str.split(',')]] *)
Definition parse_values (matrix_str : pystr) : option (list F) :=
  mapM float_of_text (split 44 matrix_str).

(** The loop of [load_config_ini] over the keys still to do, with the
    [results] and [self.homography_matrices] so far. *)
Fixpoint load_keys (config : ini) (todo : list string)
    (results homography_matrices : homographies F)
  : result (homographies F) * homographies F :=
  match todo with
  | [] => (Return results, homography_matrices)
  | key :: rest =>
      match config !! key with
      | Some section =>
          let matrix_str := default (lit "None") (section !! "matrix") in
          if bool_decide (matrix_str = lit "None") then
            load_keys config rest (<[ key := None ]> results)
                      (<[ key := None ]> homography_matrices)
          else
            match parse_values matrix_str with
            | None => (Raise, homography_matrices)
            | Some values =>
                match reshape fzero values 3 3 with
                | None => (Raise, homography_matrices)
                | Some H =>
                    load_keys config rest (<[ key := Some H ]> results)
                              (<[ key := Some H ]> homography_matrices)
                end
            end
      | None =>
          load_keys config rest (<[ key := None ]> results)
                    (<[ key := None ]> homography_matrices)
      end
  end.

(** [file] is the content at [filepath], [None] when no file is there.  The
    returned value is [None] or the [results] dictionary. *)
Definition load_config_ini (file : option ini) (homography_matrices : homographies F)
  : result (option (homographies F)) * homographies F :=
  match file with
  | None => (Return None, homography_matrices)
  | Some config =>
      match load_keys config ["H_21"; "H_31"; "H_41"] ∅ homography_matrices with
      | (Return results, hm) => (Return (Some results), hm)
      | (Raise, hm) => (Raise, hm)
      end
  end.

End Config.

(** A match of two descriptors.  Distances of [NORM_HAMMING] are whole
    numbers stored in single precision; a rational holds any such value,
    and the product with 0.75 is exact in double precision. *)
Record DMatch := {
  queryIdx : Z;
  trainIdx : Z;
  distance : Q
}.

(** Lowe's ratio test, [m.distance < ratio_threshold * n.distance]. *)
Definition ratio_test (ratio_threshold : Q) (m n : DMatch) : bool :=
  negb (Qle_bool (ratio_threshold * distance n) (distance m)).

(** The loop over the pairs returned by [knnMatch]. *)
Fixpoint ratio_filter (ratio_threshold : Q) (matches : list (list DMatch))
  : list DMatch :=
  match matches with
  | [] => []
  | [m; n] :: rest =>
      if ratio_test ratio_threshold m n
      then m :: ratio_filter ratio_threshold rest
      else ratio_filter ratio_threshold rest
  | _ :: rest => ratio_filter ratio_threshold rest
  end.

Section Automatic.
(** The OpenCV side: images, keypoints with their [pt], descriptor sets and
    inlier masks, and the three calls the method makes, each of which
    returns or raises [cv2.error]. *)
Context {F Image KeyPoint Point Descriptors Mask : Type}.
Variable pt : KeyPoint -> Point.
Variable detectAndCompute : Image -> result (list KeyPoint * Descriptors).
Variable knnMatch : Descriptors -> Descriptors -> result (list (list DMatch)).
Variable findHomography :
  list Point -> list Point -> result (option (ndarray F) * option Mask).
Variable mask_sum : Mask -> Z.

(** [match_features], the helper with the default [ratio_threshold]: an
    exception of the matcher is caught and gives no matches. *)
Definition match_features (desc1 desc2 : Descriptors) : list DMatch :=
  match knnMatch desc1 desc2 with
  | Return matches => ratio_filter (75 # 100) matches
  | Raise => []
  end.

Record match_info := {
  keypoints1 : list KeyPoint;
  keypoints2 : list KeyPoint;
  good_matches : list DMatch;
  num_kp1 : nat;
  num_kp2 : nat;
  num_matches : nat;
  num_inliers : Z
}.

(** A value of the returned dictionary. *)
Inductive value :=
| Homography (H : option (ndarray F))
| Matches (info : option match_info).

Record state := {
  results : gmap string value;
  matches_data : gmap string value;
  homography_matrices : gmap string (option (ndarray F))
}.

(** [[kp[idx(m)].pt for m in good_matches]] *)
Definition matched_points (kp : list KeyPoint) (idx : DMatch -> Z)
    (good : list DMatch) : result (list Point) :=
  match mapM (fun m => pt <$> py_index kp (idx m)) good with
  | Some pts => Return pts
  | None => Raise
  end.

(** One turn of the loop [for i in [2, 3, 4]]. *)
Definition estimate_band (images : list Image) (return_matches : bool)
    (kp_ref : list KeyPoint) (des_ref : Descriptors) (i : Z) (st : state)
  : result state :=
  match py_index images (i - 1) with
  | None => Raise
  | Some target_img =>
      match detectAndCompute target_img with
      | Raise => Raise
      | Return (kp_target, des_target) =>
          match knnMatch des_target des_ref with
          | Raise => Raise
          | Return matches =>
              let good := ratio_filter (75 # 100) matches in
              if (4 <=? length good)%nat then
                match matched_points kp_target queryIdx good,
                      matched_points kp_ref trainIdx good with
                | Return src_pts, Return dst_pts =>
                    match findHomography src_pts dst_pts with
                    | Raise => Raise
                    | Return (H, mask) =>
                        Return
                          {| results :=
                               <[ H_key i := Homography H ]> (results st);
                             homography_matrices :=
                               <[ H_key i := H ]> (homography_matrices st);
                             matches_data :=
                               if return_matches then
                                 <[ matches_key i :=
                                      Matches (Some
                                        {| keypoints1 := kp_ref;
                                           keypoints2 := kp_target;
                                           good_matches := good;
                                           num_kp1 := length kp_ref;
                                           num_kp2 := length kp_target;
                                           num_matches := length good;
                                           num_inliers :=
                                             match mask with
                                             | Some mk => mask_sum mk
                                             | None => 0
                                             end |}) ]> (matches_data st)
                               else matches_data st |}
                    end
                | _, _ => Raise
                end
              else
                Return
                  {| results := <[ H_key i := Homography None ]> (results st);
                     homography_matrices :=
                       <[ H_key i := None ]> (homography_matrices st);
                     matches_data :=
                       if return_matches then
                         <[ matches_key i := Matches None ]> (matches_data st)
                       else matches_data st |}
          end
      end
  end.

Fixpoint estimate_bands (images : list Image) (return_matches : bool)
    (kp_ref : list KeyPoint) (des_ref : Descriptors) (todo : list Z)
    (st : state) : result state :=
  match todo with
  | [] => Return st
  | i :: rest =>
      match estimate_band images return_matches kp_ref des_ref i st with
      | Return st' => estimate_bands images return_matches kp_ref des_ref rest st'
      | Raise => Raise
      end
  end.

(** The returned dictionary and [self.homography_matrices] afterwards. *)
Definition automatic_transformation_estimation (images : list Image)
    (return_matches : bool) (self : gmap string (option (ndarray F)))
  : result (gmap string value * gmap string (option (ndarray F))) :=
  match py_index images 0 with
  | None => Raise
  | Some ref_img =>
      match detectAndCompute ref_img with
      | Raise => Raise
      | Return (kp_ref, des_ref) =>
          match estimate_bands images return_matches kp_ref des_ref [2; 3; 4]
                  {| results := ∅; matches_data := ∅;
                     homography_matrices := self |}
          with
          | Raise => Raise
          | Return st =>
              Return (if return_matches then matches_data st ∪ results st
                      else results st,
                      homography_matrices st)
          end
      end
  end.

End Automatic.

End CoreGeoTransform.

(** ** Core/Core_ReferenceRadianceEstimation.py *)

Module CoreRefRadianceEstimator.

(** How [estimate_reference_radiance] ends: one of its early returns, or
    the loop over the bands with the texts of [ref_cam_entries] afterwards. *)
Inductive outcome :=
| InvalidCount
| NoReferenceImage
| FilenameTooShort
| FilenameNotNumeric
| Estimated (ref_cam_entries : list pystr)
| Raised.

(** Lines 122-132: the centred window of a tile, clamped to the tile. *)
Definition center_roi (tile : ndarray Z) : ndarray Z :=
  let h := Z.of_nat (nrows tile) in
  let w := Z.of_nat (ncols tile) in
  let win_size := 100 in
  let cx := w / 2 in
  let cy := h / 2 in
  let x1 := Z.max 0 (cx - win_size / 2) in
  let y1 := Z.max 0 (cy - win_size / 2) in
  let x2 := Z.min w (cx + win_size / 2) in
  let y2 := Z.min h (cy + win_size / 2) in
  slice tile y1 y2 x1 x2.

Section Estimator.
Context {F : Type} `{PyFloat F} `{UnicodeData} `{PyLib}.

(** Lines 142-145: the background value typed in the calibration tab, 0.0
    when the lookup or [float()] raises. *)
Definition background_value (bg_cam_entries : list pystr) (i : nat) : F :=
  match bg_cam_entries !! i with
  | Some text =>
      match float_of_str text with
      | Some x => x
      | None => float_of_int 0
      end
  | None => float_of_int 0
  end.

(** Line 150 *)
Definition exposure_ms (expo100 : Z) : F :=
  if negb (expo100 =? 0) then fdiv (float_of_int expo100) (float_of_int 100)
  else float_of_int 1.

(** The radiance computed for one tile (lines 122-155). *)
Definition tile_radiance (tile : ndarray Z) (bg_val : F) (expo100 : Z) : F :=
  let roi := center_roi tile in
  let mean_val :=
    if (size roi =? 0)%nat then float_of_int 0 else np_mean (flatten roi) in
  fdiv (fsub mean_val bg_val) (exposure_ms expo100).

(** The loop over the bands. *)
Fixpoint bands_loop (ref_tiles : list (option (ndarray Z)))
    (bg_cam_entries : list pystr) (expo100_vals : list Z) (todo : list nat)
    (ref_cam_entries : list pystr) : outcome :=
  match todo with
  | [] => Estimated ref_cam_entries
  | i :: rest =>
      match ref_tiles !! i with
      | None => Raised
      | Some None =>
          bands_loop ref_tiles bg_cam_entries expo100_vals rest ref_cam_entries
      | Some (Some tile) =>
          match expo100_vals !! i with
          | None => Raised
          | Some expo100 =>
              let ref_rad :=
                tile_radiance tile (background_value bg_cam_entries i) expo100 in
              bands_loop ref_tiles bg_cam_entries expo100_vals rest
                (<[ i := format_2f ref_rad ]> ref_cam_entries)
          end
      end
  end.

(** [ref_entry] is the text of the path field and [ref_labels] the number
    of labels passed in. *)
Definition estimate_reference_radiance (ref_tiles : list (option (ndarray Z)))
    (ref_entry : pystr) (ref_labels : nat)
    (ref_cam_entries bg_cam_entries : list pystr) : outcome :=
  if negb (ref_labels =? 4)%nat || negb (length ref_cam_entries =? 4)%nat
  then InvalidCount
  else
    let ref_path := strip ref_entry in
    match ref_path with
    | [] => NoReferenceImage
    | _ :: _ =>
        let base := path_basename ref_path in
        let root_name := fst (path_splitext base) in
        let parts := split 95 root_name in
        if (length parts <? 6)%nat then FilenameTooShort
        else
          match mapM (fun k => py_index parts k ≫= int_of_str) [-4; -3; -2; -1] with
          | None => FilenameNotNumeric
          | Some expo100_vals =>
              bands_loop ref_tiles bg_cam_entries expo100_vals (seq 0 4)
                         ref_cam_entries
          end
    end.

End Estimator.

End CoreRefRadianceEstimator.

(** ** Core/Core_CameraView.py: the receiver thread *)

Module ZMQReceiverThread.

Definition FRAME_H : nat := 480.
Definition FRAME_W : nat := 640.
Definition FULL_W : nat := FRAME_W * 4.

(** What [sock.recv(flags=zmq.NOBLOCK)] does: raise [zmq.Again] or return
    a payload. *)
Inductive recv :=
| Again
| Message (data : list Z).

(** One turn of the loop as the thread sees it. *)
Record tick := {
  interruption_requested : bool;
  received : recv
}.

Section Thread.
(** [cv2.imdecode(np.frombuffer(data, np.uint8), cv2.IMREAD_GRAYSCALE)],
    [None] for a payload that does not decode. *)
Variable imdecode : list Z -> option (ndarray Z).

(** The [try] body for one payload: the frames emitted on
    [frame_received]. *)
Definition on_message (data : list Z) : list (ndarray Z) :=
  match imdecode data with
  | Some img =>
      if bool_decide (shape img = (FRAME_H, FULL_W)) then [img] else []
  | None => []
  end.

(** [run]: the frames emitted, in order, over the turns observed. *)
Fixpoint run (ticks : list tick) : list (ndarray Z) :=
  match ticks with
  | [] => []
  | t :: rest =>
      if interruption_requested t then []
      else
        match received t with
        | Again => run rest
        | Message data => on_message data ++ run rest
        end
  end.

End Thread.

End ZMQReceiverThread.

(** ** Reference implementations of the parameters

    Concrete tables and library functions, used to run the model on
    examples. *)

Module Reference.

(** Unicode tables that classify nothing beyond ASCII.  The model never
    consults them on ASCII text. *)
Definition ascii_only : UnicodeData :=
  {| uni_isalnum := fun _ => false; uni_isspace := fun _ => false |}.

(** Decimal digits to a number. *)
Fixpoint digits_value (s : pystr) (acc : Z) : option Z :=
  match s with
  | [] => Some acc
  | c :: r =>
      if ((48 <=? c) && (c <=? 57))%N
      then digits_value r (10 * acc + Z.of_N (c - 48))
      else None
  end.

(** [int(text)] for plain ASCII numerals: digits with an optional minus. *)
Definition int_of_ascii (s : pystr) : option Z :=
  match s with
  | [] => None
  | 45%N :: ((_ :: _) as r) => Z.opp <$> digits_value r 0
  | _ => digits_value s 0
  end.

(** POSIX [os.path.basename]: what follows the last slash. *)
Definition posix_basename (p : pystr) : pystr := List.last (split 47 p) [].

(** [os.path.splitext]: the extension starts at the last dot that has a
    character other than a dot before it. *)
Definition posix_splitext (p : pystr) : pystr * pystr :=
  let lead := span_len (N.eqb 46) p in
  let parts := split 46 (drop lead p) in
  match parts with
  | [] | [_] => (p, [])
  | _ => (take lead p ++ join (lit ".") (removelast parts),
          lit "." ++ List.last parts [])
  end.

Definition posix : PyLib :=
  {| int_of_str := int_of_ascii;
     path_basename := posix_basename;
     path_splitext := posix_splitext |}.

(** A rational as text with two decimals, rounded half up. *)
Definition two_decimals (q : Q) : pystr :=
  let z := Qfloor (q * 100 + (1 # 2)) in
  let a := Z.abs z in
  lit ((if z <? 0 then "-" else "") +:+ pretty (a / 100) +:+ "."
       +:+ pretty (a mod 100 / 10) +:+ pretty (a mod 10)).

(** Exact rational arithmetic in place of floats; [float()] reads whole
    numbers only. *)
Definition rational : PyFloat Q :=
  {| float_of_int := inject_Z;
     fsub := fun a b => Qred (a - b);
     fdiv := fun a b => Qred (a / b);
     feq0 := fun a => Qeq_bool a 0;
     float_of_str := fun s => inject_Z <$> int_of_ascii s;
     format_2f := two_decimals;
     np_mean := fun l =>
       Qred (inject_Z (fold_right Z.add 0 l) / inject_Z (Z.of_nat (length l))) |}.

End Reference.

(** ** The vocabulary of the properties *)

Section RasterNameProperties.
Context {A : Type}.
Import CoreRasterCalculator.
Implicit Types st : state A.

(** The counter is never negative, and every stored name is ["Raster k"]
    for some [k] from 1 up to the counter. *)
Definition names_bounded st : Prop :=
  0 <= raster_counter st /\
  forall name, In name (PyDict.keys (calculated_rasters st)) ->
    exists k, 1 <= k <= raster_counter st /\ name = raster_name k.

End RasterNameProperties.

Section EvaluatorPathProperties.
Context `{UnicodeData} {A : Type}.
Import CoreRasterCalculator RasterCalculationTab.
Implicit Types s : tab A.

(** The property the specification asks of a trace: each evaluation of a
    text comes after a successful validation of that same text. *)
Definition validated_first (log : list event) : Prop :=
  forall pre e post,
    log = pre ++ EvEvaluate e :: post -> In (EvValidate e true) pre.

(** What the code keeps instead: a text that reaches the evaluator is one
    the validator accepts, and a recorded validation tells the truth. *)
Definition call_ok (ev : event) : Prop :=
  match ev with
  | EvEvaluate e => fst (validate_expression e) = true
  | EvValidate e b => b = fst (validate_expression e)
  end.

Definition expressions_valid (c : state A) : Prop :=
  forall name e,
    PyDict.get name (raster_expressions c) = Some e ->
    fst (validate_expression e) = true.

Definition tab_ok s : Prop :=
  expressions_valid (raster_calculator s) /\ Forall call_ok (calls s).

(** The timer path adds evaluations only: it never asks the validator. *)
Definition only_evaluations (before after : list event) : Prop :=
  exists texts, after = before ++ map EvEvaluate texts.

End EvaluatorPathProperties.

Section ReflectanceProperties.
Context {F : Type} `{PyFloat F}.
Import CoreReflectanceCalculator.

Variable frame : ndarray Z.
Variable bg_tiles : list (option (ndarray Z)).
Variable expo_sliders : list Z.
Variable ref_cam_entries : list pystr.
Variable EXPO_MS : list F.

(** The formula of the specification for one pixel. *)
Definition reflectance_pixel (raw dark : Z) (exposure_ms reference_radiance : F)
  : F :=
  fdiv (fdiv (fsub (float_of_int raw) (float_of_int dark)) exposure_ms)
       reference_radiance.

(** The three preconditions of band [i]: its dark-noise tile is there, its
    exposure in ms is not zero, its reference radiance is not zero. *)
Definition band_ready (i : nat) : bool :=
  match bg_tiles !! i with Some (Some _) => true | _ => false end
  && match band_exposure_ms expo_sliders EXPO_MS i with
     | Some e => negb (feq0 e)
     | None => false
     end
  && negb (feq0 (band_ref_radiance ref_cam_entries i)).

(** [tile] is the reflectance of band [i]: of the shape of a band, every
    pixel computed by the formula from that band's slice of the frame. *)
Definition is_reflectance_tile (i : nat) (tile : ndarray F) : Prop :=
  exists bg e,
    bg_tiles !! i = Some (Some bg)
    /\ band_exposure_ms expo_sliders EXPO_MS i = Some e
    /\ shape tile = (480, 640)%nat
    /\ forall r c, (r < 480)%nat -> (c < 640)%nat ->
         item tile r c
         = reflectance_pixel (item frame r (i * 640 + c)) (item bg r c) e
             (band_ref_radiance ref_cam_entries i).

End ReflectanceProperties.

Section ReceiverProperties.
Variable imdecode : list Z -> option (ndarray Z).

(** A payload the thread must not pass on. *)
Definition bad_payload (data : list Z) : Prop :=
  imdecode data = None
  \/ exists img, imdecode data = Some img /\ shape img <> (480, 2560)%nat.

End ReceiverProperties.

Section AlignmentProperties.
Context {F Image KeyPoint Point Descriptors Mask : Type}.
Variable pt : KeyPoint -> Point.
Variable detectAndCompute : Image -> result (list KeyPoint * Descriptors).
Variable knnMatch :
  Descriptors -> Descriptors -> result (list (list CoreGeoTransform.DMatch)).
Variable findHomography :
  list Point -> list Point -> result (option (ndarray F) * option Mask).
Import CoreGeoTransform.

(** What the method records for band [i]: [H] is [None] below four
    accepted matches, and otherwise whatever the estimator returned for
    the points of the accepted matches. *)
Definition band_outcome (images : list Image) (kp_ref : list KeyPoint)
    (des_ref : Descriptors) (i : Z) (H : option (ndarray F)) : Prop :=
  exists target kp_target des_target matches,
    py_index images (i - 1) = Some target
    /\ detectAndCompute target = Return (kp_target, des_target)
    /\ knnMatch des_target des_ref = Return matches
    /\ let good := ratio_filter (75 # 100) matches in
       ((length good < 4)%nat -> H = None)
       /\ ((4 <= length good)%nat ->
           exists src_pts dst_pts mask,
             matched_points pt kp_target queryIdx good = Return src_pts
             /\ matched_points pt kp_ref trainIdx good = Return dst_pts
             /\ length src_pts = length good
             /\ findHomography src_pts dst_pts = Return (H, mask)).

End AlignmentProperties.

Section ConfigProperties.
Context {F : Type}.
Variable str_of_float : F -> pystr.
Import CoreGeoTransform.

(** What [save_config_ini] writes under one of its four keys. *)
Definition saved_text (hm : homographies F) (key : string) : pystr :=
  match dict_get hm key with
  | Some H => join (lit ",") (map str_of_float (flatten H))
  | None => lit "None"
  end.

(** What the loop of [load_config_ini] makes of a saved key: the matrix
    read back has the items of the one saved. *)
Definition reloaded (saved : homographies F) (key : string)
    (v : option (ndarray F)) : Prop :=
  match dict_get saved key with
  | None => v = None
  | Some H =>
      exists H', v = Some H' /\ shape H' = (3, 3)%nat
        /\ forall r c, (r < 3)%nat -> (c < 3)%nat -> item H' r c = item H r c
  end.

End ConfigProperties.

(** ** Example data *)

(** A frame whose band [i] is flat at [100 + i], over a flat background. *)
Definition example_frame : ndarray Z :=
  {| nrows := 480; ncols := 2560;
     item := fun _ c => 100 + Z.of_nat (c / 640) |}.

Definition example_bg_tiles : list (option (ndarray Z)) :=
  repeat (Some {| nrows := 480; ncols := 640; item := fun _ _ => 10 |}) 4.

Definition example_sliders : list Z := [1; 4; 12; 20].

Definition example_ref_entries : list pystr :=
  [lit "2"; lit "3"; lit "5"; lit "9"].

(** The table [EXPO_MS] of Core_CameraView.py. *)
Definition example_EXPO_MS : list Q :=
  [4 # 100; 15 # 100; 52 # 100; 108 # 100; 224 # 100; 448 # 100; 903 # 100;
   1814 # 100; 3604 # 100; 7299 # 100; 14605 # 100; 29221 # 100].

(** A classifier with a model loaded, and a file system whose every path
    holds 4096 bytes that unpickle to a dictionary. *)
Definition example_classifier : CoreClassifier.state string :=
  {| CoreClassifier.model := Some "RandomForestClassifier";
     CoreClassifier.model_path := Some (lit "forest.joblib") |}.

Definition example_filesystem : CoreClassifier.filesystem string :=
  {| CoreClassifier.path_exists := fun _ => true;
     CoreClassifier.getsize := fun _ => 4096;
     CoreClassifier.joblib_load := fun _ => inr (Some "dict") |}.

Definition example_has_predict (obj : string) : bool :=
  String.eqb obj "RandomForestClassifier".

(** A decoder for examples: the first byte of the payload tells the width
    of the picture in units of ten pixels, an empty payload does not
    decode. *)
Definition example_imdecode (data : list Z) : option (ndarray Z) :=
  match data with
  | [] => None
  | b :: _ =>
      Some {| nrows := 480; ncols := Z.to_nat b * 10; item := fun _ _ => b |}
  end.

(** A reference capture: three bands loaded, flat at 110; the file name
    gives the exposures 1.00, 2.00, 0 and 4.48 ms. *)
Definition example_ref_tiles : list (option (ndarray Z)) :=
  let tile := {| nrows := 480; ncols := 640; item := fun _ _ => 110 |} in
  [Some tile; None; Some tile; Some tile].

Definition example_ref_path : pystr :=
  lit " /data/Reference/20240101_120000_100_200_0_448.png ".

Definition example_radiance_entries : list pystr :=
  [lit ""; lit "7.50"; lit ""; lit ""].

Definition example_dark_entries : list pystr :=
  [lit "10"; lit "10"; lit "n/a"; lit "12"].

(** A small stand-in for OpenCV: every image has the same five keypoints
    and is its own descriptor set; band 2 gets five clear matches, band 3
    three clear and two ambiguous ones, band 4 five clear matches that all
    start from one keypoint, for which the estimator finds nothing. *)
Definition example_keypoints : list (Z * Z) :=
  [(0, 0); (10, 0); (0, 10); (10, 10); (5, 5)].

Definition example_pair (q t : Z) (d1 d2 : Q) : list CoreGeoTransform.DMatch :=
  [ {| CoreGeoTransform.queryIdx := q; CoreGeoTransform.trainIdx := t;
       CoreGeoTransform.distance := d1 |};
    {| CoreGeoTransform.queryIdx := q; CoreGeoTransform.trainIdx := (t + 1) mod 5;
       CoreGeoTransform.distance := d2 |} ].

Definition example_knnMatch (target ref : nat)
  : result (list (list CoreGeoTransform.DMatch)) :=
  Return
    match target with
    | 2%nat => map (fun k => example_pair k k 10 40) [0; 1; 2; 3; 4]
    | 3%nat => map (fun k => example_pair k k 10 40) [0; 1; 2]
               ++ map (fun k => example_pair k k 30 35) [3; 4]
    | 4%nat => map (fun k => example_pair 0 k 10 40) [0; 1; 2; 3; 4]
    | _ => []
    end.

Definition example_findHomography (src dst : list (Z * Z))
  : result (option (ndarray Z) * option (list bool)) :=
  Return
    match src with
    | p :: rest =>
        if forallb (fun q => bool_decide (q = p)) rest then (None, None)
        else (Some {| nrows := 3; ncols := 3;
                      item := fun r c => if (r =? c)%nat then 1 else 0 |},
              Some (map (fun _ => true) src))
    | [] => (None, None)
    end.

Definition example_detect (img : nat) : result (list (Z * Z) * nat) :=
  Return (example_keypoints, img).

Definition example_mask_sum (mask : list bool) : Z :=
  Z.of_nat (length (filter (fun b => b = true) mask)).

(** Three floats with their texts, enough to write an identity and a
    shear. *)
Inductive small_float := F0 | F1 | Fhalf.

Definition small_float_str (x : small_float) : pystr :=
  lit match x with F0 => "0.0" | F1 => "1.0" | Fhalf => "0.5" end.

Definition small_float_parse (s : pystr) : option small_float :=
  if bool_decide (s = lit "0.0") then Some F0
  else if bool_decide (s = lit "1.0") then Some F1
  else if bool_decide (s = lit "0.5") then Some Fhalf
  else None.

Definition example_identity : ndarray small_float :=
  {| nrows := 3; ncols := 3;
     item := fun r c => if (r =? c)%nat then F1 else F0 |}.

Definition example_shear : ndarray small_float :=
  {| nrows := 3; ncols := 3;
     item := fun r c =>
       if (r =? c)%nat then F1
       else if ((r =? 0) && (c =? 1))%nat then Fhalf else F0 |}.

(** What the alignment dialog holds when it saves: the identity for band
    1, a matrix for band 2, no matrix for band 3, nothing about band 4. *)
Definition example_homographies : CoreGeoTransform.homographies small_float :=
  {[ "H_11" := Some example_identity;
     "H_21" := Some example_shear;
     "H_31" := None ]}.


(** ** More of the sources

    The functions below are the neighbours of the ones above: the rest of
    Core_GeoTransform.py, Core_Classifier.py and Core_CameraView.py,
    Core_DarkNoiseEstimation.py, and the live alignment of
    Lib_CameraViewer.py. *)

(** *** [np.hstack] *)

Module NumpyStack.

(** Two arrays side by side; NumPy raises when the row counts differ. *)
Definition hstack2 {T} (a b : ndarray T) : option (ndarray T) :=
  if (nrows a =? nrows b)%nat then
    Some {| nrows := nrows a;
            ncols := ncols a + ncols b;
            item := fun r c =>
              if (c <? ncols a)%nat then item a r c
              else item b r (c - ncols a) |}
  else None.

Fixpoint hstack_from {T} (acc : ndarray T) (rest : list (ndarray T))
  : option (ndarray T) :=
  match rest with
  | [] => Some acc
  | b :: rest' =>
      match hstack2 acc b with
      | Some ab => hstack_from ab rest'
      | None => None
      end
  end.

(** [np.hstack(arrays)] on two-dimensional arrays; [None] when it raises
    (no array, or row counts that differ). *)
Definition hstack {T} (arrays : list (ndarray T)) : option (ndarray T) :=
  match arrays with
  | [] => None
  | a :: rest => hstack_from a rest
  end.

End NumpyStack.

(** *** Core/Core_GeoTransform.py: warping *)

Module CoreGeoTransformAlign.

Import CoreGeoTransform.

Section Warp.
(** [cv2_warpPerspective image H (w, h)] is
    [cv2.warpPerspective(image, H, (w, h))]. *)
Context {F Image : Type}.
Variable image_shape : Image -> nat * nat.
Variable cv2_warpPerspective : Image -> ndarray F -> nat * nat -> Image.

(** [warp_perspective] with the default [output_shape]. *)
Definition warp_perspective (image : Image) (H : option (ndarray F)) : Image :=
  match H with
  | None => image
  | Some H =>
      let output_shape := image_shape image in
      cv2_warpPerspective image H (snd output_shape, fst output_shape)
  end.

(** The loop of [align_all_bands] over the bands still to do. *)
Fixpoint align_bands (images : list Image) (homography_matrices : homographies F)
    (todo : list Z) (aligned_images : list Image) : result (list Image) :=
  match todo with
  | [] => Return aligned_images
  | i :: rest =>
      match py_index images (i - 1) with
      | None => Raise
      | Some band =>
          match dict_get homography_matrices (H_key i) with
          | Some H =>
              align_bands images homography_matrices rest
                (aligned_images ++ [warp_perspective band (Some H)])
          | None =>
              align_bands images homography_matrices rest
                (aligned_images ++ [band])
          end
      end
  end.

(** The returned value is [None] or the list of aligned images. *)
Definition align_all_bands (images : list Image)
    (homography_matrices : homographies F) : result (option (list Image)) :=
  if negb (length images =? 4)%nat then Return None
  else
    match py_index images 0 with
    | None => Raise
    | Some band1 =>
        match align_bands images homography_matrices [2; 3; 4] [band1] with
        | Return aligned => Return (Some aligned)
        | Raise => Raise
        end
    end.

End Warp.

End CoreGeoTransformAlign.

(** *** Lib/Lib_CameraViewer.py: alignment of the live frame *)

Module CameraViewerTab.

Import CoreGeoTransform NumpyStack.

Section Alignment.
Context {F : Type}.
(** [warp band H] is [cv2.warpPerspective(band, H, (640, 480),
    flags=cv2.INTER_LINEAR, borderMode=cv2.BORDER_CONSTANT,
    borderValue=0)]. *)
Variable warp : ndarray Z -> ndarray F -> ndarray Z.

(** The loop of [apply_alignment].  The message box shown the first time a
    matrix is missing is an output only. *)
Fixpoint align_loop (bands : list (ndarray Z))
    (homography_matrices : homographies F) (todo : list Z)
    (aligned_bands : list (ndarray Z)) : result (list (ndarray Z)) :=
  match todo with
  | [] => Return aligned_bands
  | i :: rest =>
      match py_index bands (i - 1) with
      | None => Raise
      | Some band =>
          match dict_get homography_matrices (H_key i) with
          | Some H =>
              align_loop bands homography_matrices rest
                (aligned_bands ++ [warp band H])
          | None =>
              align_loop bands homography_matrices rest
                (aligned_bands ++ [band])
          end
      end
  end.

Definition apply_alignment (homography_matrices : homographies F)
    (full_frame : ndarray Z) : result (ndarray Z) :=
  let bands :=
    [ slice_cols full_frame 0 640;
      slice_cols full_frame 640 1280;
      slice_cols full_frame 1280 1920;
      slice_cols full_frame 1920 2560 ] in
  match py_index bands 0 with
  | None => Raise
  | Some band1 =>
      match align_loop bands homography_matrices [2; 3; 4] [band1] with
      | Raise => Raise
      | Return aligned_bands =>
          match hstack aligned_bands with
          | Some aligned_frame => Return aligned_frame
          | None => Raise
          end
      end
  end.

End Alignment.

End CameraViewerTab.

(** *** Core/Core_DarkNoiseEstimation.py *)

Module CoreDarkNoiseEstimator.

Section Estimator.
Context {F : Type} `{PyFloat F}.
(** [draw_ok tile] tells whether the drawing of the window on the label
    (lines 98-108: [cv2.cvtColor], [cv2.rectangle], [QImage], [setPixmap])
    returns; it writes nothing that the method reads. *)
Variable draw_ok : ndarray Z -> bool.

(** The mean of the centred window of a tile (lines 80-95); the window is
    the one of the reference-radiance estimator. *)
Definition window_mean (tile : ndarray Z) : F :=
  let roi := CoreRefRadianceEstimator.center_roi tile in
  if (size roi =? 0)%nat then float_of_int 0 else np_mean (flatten roi).

Fixpoint bands_loop (bg_tiles : list (option (ndarray Z))) (todo : list nat)
    (bg_cam_entries : list pystr) : result (list pystr) :=
  match todo with
  | [] => Return bg_cam_entries
  | i :: rest =>
      match bg_tiles !! i with
      | None => Raise
      | Some None => bands_loop bg_tiles rest bg_cam_entries
      | Some (Some tile) =>
          let mean_val := window_mean tile in
          if draw_ok tile then
            bands_loop bg_tiles rest
              (<[ i := format_2f mean_val ]> bg_cam_entries)
          else Raise
      end
  end.

(** [bg_labels] is the number of labels passed in; the result is the texts
    of [bg_cam_entries] afterwards. *)
Definition estimate_background_noise (bg_tiles : list (option (ndarray Z)))
    (bg_labels : nat) (bg_cam_entries : list pystr) : result (list pystr) :=
  if negb (bg_labels =? 4)%nat || negb (length bg_cam_entries =? 4)%nat
  then Return bg_cam_entries
  else bands_loop bg_tiles (seq 0 4) bg_cam_entries.

End Estimator.

End CoreDarkNoiseEstimator.

(** *** Core/Core_Classifier.py: prediction *)

Module CoreClassifierPredict.

(** A three-dimensional array: the feature stack, of shape
    [(num_features, H, W)]. *)
Record ndarray3 (T : Type) := {
  depth : nat;
  height : nat;
  width : nat;
  item3 : nat -> nat -> nat -> T
}.
Arguments depth {T}.
Arguments height {T}.
Arguments width {T}.
Arguments item3 {T}.

Definition size3 {T} (a : ndarray3 T) : nat := depth a * height a * width a.

(** [l[mask]] on one-dimensional arrays of the same length. *)
Fixpoint select {T} (mask : list bool) (l : list T) : list T :=
  match mask, l with
  | b :: mask', x :: l' => if b then x :: select mask' l' else select mask' l'
  | _, _ => []
  end.

(** The items of [target] under [mask] replaced by [values], in order. *)
Fixpoint fill {T} (mask : list bool) (target values : list T) : list T :=
  match mask, target with
  | b :: mask', t :: target' =>
      if b then
        match values with
        | v :: values' => v :: fill mask' target' values'
        | [] => t :: fill mask' target' []
        end
      else t :: fill mask' target' values
  | _, _ => target
  end.

(** [np.sum(mask)] *)
Definition count_true (mask : list bool) : nat :=
  length (List.filter (fun b : bool => b) mask).

(** [target[mask] = values] on one-dimensional arrays: [values] has one
    item per selected position, or a single item that is broadcast;
    [None] when NumPy raises. *)
Definition assign_masked {T} (target : list T) (mask : list bool)
    (values : list T) : option (list T) :=
  let n := count_true mask in
  if (length values =? n)%nat then Some (fill mask target values)
  else
    match values with
    | [v] => Some (fill mask target (repeat v n))
    | _ => None
    end.

Section Predict.
(** [F]: the features; [L]: the labels as the float64 items of the label
    map.  [predict obj rows] is [obj.predict(rows)]: the one-dimensional
    array of numbers that a scikit-learn estimator returns, or [Raise]. *)
Context {Obj F L : Type}.
Variable has_predict : Obj -> bool.
Variable predict : Obj -> list (list F) -> result (list L).
Variable isfinite : F -> bool.
Variable nan : L.

(** Row [p] of [X = feature_stack.reshape(num_features, -1).T]. *)
Definition pixel_row (feature_stack : ndarray3 F) (p : nat) : list F :=
  map (fun f => item3 feature_stack f (p / width feature_stack)
                                      (p mod width feature_stack))
      (seq 0 (depth feature_stack)).

Definition pixel_rows (feature_stack : ndarray3 F) : list (list F) :=
  map (pixel_row feature_stack)
      (seq 0 (height feature_stack * width feature_stack)).

(** [np.all(np.isfinite(X), axis=1)] *)
Definition valid_mask (X : list (list F)) : list bool :=
  map (forallb isfinite) X.

Definition predict_classification (model : option Obj)
    (feature_stack : option (ndarray3 F)) : option (ndarray L) :=
  match model with
  | None => None
  | Some obj =>
      match feature_stack with
      | None => None
      | Some fs =>
          if (size3 fs =? 0)%nat then None
          else
            let H := height fs in
            let W := width fs in
            let X := pixel_rows fs in
            let mask := valid_mask X in
            let num_valid := count_true mask in
            if (num_valid =? 0)%nat then None
            else if negb (has_predict obj) then None
            else
              match predict obj (select mask X) with
              | Raise => None
              | Return y_pred =>
                  match assign_masked (repeat nan (H * W)) mask y_pred with
                  | None => None
                  | Some label_map => reshape nan label_map H W
                  end
              end
      end
  end.

End Predict.

End CoreClassifierPredict.

(** *** Core/Core_CameraView.py: exposure levels *)

Module CameraGainExposure.

Definition EXPO_ABS : list Z :=
  [1; 2; 5; 10; 20; 39; 78; 156; 312; 625; 1250; 2500].

(** [min(l)] on a list of integers that is not empty. *)
Definition py_min (l : list Z) : option Z :=
  match l with
  | [] => None
  | x :: rest => Some (fold_left Z.min rest x)
  end.

(** [l.index(x)]: the first position of [x]; [None] when it raises. *)
Fixpoint py_list_index (l : list Z) (x : Z) : option nat :=
  match l with
  | [] => None
  | y :: rest =>
      if y =? x then Some O else S <$> py_list_index rest x
  end.

(** Lines 55-56 of [get_camera_exposures]: the level whose raw value is
    nearest to [val]. *)
Definition nearest_level (val : Z) : option Z :=
  let diffs := map (fun ev => Z.abs (val - ev)) EXPO_ABS in
  m ← py_min diffs;
  k ← py_list_index diffs m;
  Some (Z.of_nat k + 1).

Definition CAM_DEVICES : list Z := [0; 2; 4; 6].

Section Query.
(** The SSH session: [connect_ok] and [close_ok] tell whether
    [client.connect] and [client.close] return, [query dev] is the text
    that [exec_command] and [stdout.read().decode().strip()] give for the
    device, and [first_int reply] is [re.search(r"(\d+)", reply)] followed
    by [int] of the group, [Return None] when nothing matches. *)
Variable connect_ok close_ok : bool.
Variable query : Z -> result pystr.
Variable first_int : pystr -> result (option Z).

(** Lines 52-58, for one reply. *)
Definition level_of_reply (reply : pystr) : result Z :=
  match first_int reply with
  | Raise => Raise
  | Return (Some val) =>
      match nearest_level val with
      | Some level => Return level
      | None => Raise
      end
  | Return None => Return 1
  end.

Fixpoint devices_loop (devices : list Z) (levels : list Z) : result (list Z) :=
  match devices with
  | [] => Return levels
  | dev :: rest =>
      match query dev with
      | Raise => Raise
      | Return reply =>
          match level_of_reply reply with
          | Raise => Raise
          | Return level => devices_loop rest (levels ++ [level])
          end
      end
  end.

Definition get_camera_exposures (camera_ip_is_none : bool) : list Z :=
  let levels := if camera_ip_is_none then [1; 1; 1; 1] else [] in
  if negb connect_ok then [1; 1; 1; 1]
  else
    match devices_loop CAM_DEVICES levels with
    | Raise => [1; 1; 1; 1]
    | Return levels => if close_ok then levels else [1; 1; 1; 1]
    end.

End Query.

(** The raw value [set_camera_expo] sends for a level; [None] when the
    table lookup raises. *)
Definition exposure_command_value (level : Z) : option Z :=
  let level := Z.max 1 (Z.min 12 level) in
  py_index EXPO_ABS (level - 1).

End CameraGainExposure.

(** *** The vocabulary of the further properties *)

Section StoreProperties.
Context {A : Type}.
Import CoreRasterCalculator RasterCalculationTab.

(** The list ["Raster 1"; ...; "Raster n"]. *)
Definition raster_names_upto (n : Z) : list string :=
  map (fun i => raster_name (Z.of_nat i)) (seq 1 (Z.to_nat n)).

Definition numbered_store (st : state A) : Prop :=
  0 <= raster_counter st
  /\ PyDict.keys (calculated_rasters st) = raster_names_upto (raster_counter st)
  /\ PyDict.keys (raster_expressions st) = raster_names_upto (raster_counter st).

End StoreProperties.

Section TabStoreProperties.
Context {A : Type}.
Import CoreRasterCalculator RasterCalculationTab.

(** The names the tab stores: ["Overlay"], or ["Raster k"] for some [k]
    from 1 up to the counter. *)
Definition stored_name_ok (c : state A) (name : string) : Prop :=
  name = "Overlay"
  \/ exists k, 1 <= k <= raster_counter c /\ name = raster_name k.

(** The two dictionaries of the store go together: same keys in the same
    order, each key once and of the expected form, and the expression kept
    for the overlay is the fixed one. *)
Definition store_consistent (c : state A) : Prop :=
  0 <= raster_counter c
  /\ PyDict.keys (raster_expressions c) = PyDict.keys (calculated_rasters c)
  /\ NoDup (PyDict.keys (calculated_rasters c))
  /\ (forall name, In name (PyDict.keys (calculated_rasters c)) ->
        stored_name_ok c name)
  /\ (In "Overlay" (PyDict.keys (calculated_rasters c)) ->
        PyDict.get "Overlay" (raster_expressions c) = Some overlay_expr).

(** What [update_all_rasters] leaves under a name that held [old]: the new
    value of its expression, or [old] when there is no expression or the
    evaluation fails. *)
Definition refreshed (py_eval : pystr -> list A -> option A) (c : state A)
    (tiles : list A) (name : string) (old : A) : A :=
  match PyDict.get name (raster_expressions c) with
  | Some (ch :: e) =>
      default old (evaluate_expression py_eval (ch :: e) (Some tiles))
  | _ => old
  end.

End TabStoreProperties.

Section PredictionProperties.
Context {F : Type}.
Import CoreClassifierPredict.

(** The features of the pixel in row [r] and column [c]. *)
Definition pixel_features (feature_stack : ndarray3 F) (r c : nat) : list F :=
  map (fun f => item3 feature_stack f r c) (seq 0 (depth feature_stack)).

(** How many pixels before position [p], in row-major order, are valid. *)
Definition valid_before (mask : list bool) (p : nat) : nat :=
  count_true (take p mask).

End PredictionProperties.

Section ConfigSectionProperties.
Context {F : Type}.
Variable float_of_text : pystr -> option F.
Variable fzero : F.
Import CoreGeoTransform.

(** What a file holds for one key, as [load_config_ini] reads it: no
    matrix (no section, no [matrix] option, or the text [None]), a 3x3
    matrix, or a text that makes the method raise. *)
Inductive section_reading :=
| NoMatrix
| Matrix (H : ndarray F)
| Malformed.

Definition read_section (config : ini) (key : string) : section_reading :=
  match config !! key ≫= (.!! "matrix") with
  | None => NoMatrix
  | Some text =>
      if bool_decide (text = lit "None") then NoMatrix
      else
        match parse_values float_of_text text ≫= (fun v => reshape fzero v 3 3) with
        | Some H => Matrix H
        | None => Malformed
        end
  end.

Definition reading_value (r : section_reading) : option (ndarray F) :=
  match r with Matrix H => Some H | _ => None end.

End ConfigSectionProperties.

Arguments NoMatrix {F}.
Arguments Malformed {F}.

(** *** Further example data *)

(** An evaluator for examples: it knows the sum of the first two bands and
    fails on everything else. *)
Definition example_py_eval (expression : pystr) (tiles : list Z) : option Z :=
  if bool_decide (expression = lit "R1 + R2")
  then Some (nth 0 tiles 0 + nth 1 tiles 0)
  else None.

(** A tab with two rasters, the second of which can no longer be
    evaluated. *)
Definition example_tab : RasterCalculationTab.tab Z :=
  {| RasterCalculationTab.raster_calculator :=
       {| CoreRasterCalculator.calculated_rasters :=
            [("Raster 1", 3); ("Raster 2", 9)];
          CoreRasterCalculator.raster_expressions :=
            [("Raster 1", lit "R1 + R2"); ("Raster 2", lit "R3 / R4")];
          CoreRasterCalculator.raster_counter := 2 |};
     RasterCalculationTab.current_reflectance_tiles := Some [10; 20; 30; 40];
     RasterCalculationTab.ras_func_txt := [];
     RasterCalculationTab.ras_calc_list := ["Raster 1"; "Raster 2"];
     RasterCalculationTab.calls := [] |}.

(** Two features over a picture of one row; [None] stands for a value that
    is not finite, and the second feature of the middle pixel is not. *)
Definition example_stack : CoreClassifierPredict.ndarray3 (option Z) :=
  {| CoreClassifierPredict.depth := 2;
     CoreClassifierPredict.height := 1;
     CoreClassifierPredict.width := 3;
     CoreClassifierPredict.item3 := fun f _ c =>
       if ((f =? 1) && (c =? 1))%nat then None else Some (Z.of_nat (f + c)) |}.

Definition example_isfinite (x : option Z) : bool :=
  match x with Some _ => true | None => false end.

(** A model that labels every row with the number of its features. *)
Definition example_predict (obj : string) (rows : list (list (option Z)))
  : result (list (option Z)) :=
  Return (map (fun row => Some (Z.of_nat (length row))) rows).

Definition example_label_map : ndarray (option Z) :=
  {| nrows := 1; ncols := 3;
     item := fun r c => nth (r * 3 + c) [Some 2; None; Some 2] None |}.

(** A configuration file whose second target section does not hold nine
    numbers. *)
Definition example_bad_ini : CoreGeoTransform.ini :=
  {[ "H_21" := {[ "matrix" := lit "1.0,0.0,0.0,0.0,1.0,0.0,0.0,0.0,1.0" ]};
     "H_31" := {[ "matrix" := lit "1.0,0.5" ]};
     "H_41" := {[ "matrix" := lit "None" ]} ]}.

(** A warp that returns a black picture of the size asked for. *)
Definition example_warp (band : ndarray Z) (H : ndarray small_float) : ndarray Z :=
  {| nrows := 480; ncols := 640; item := fun _ _ => 0 |}.

(** A stand-in for a capture whose reference band shows nothing: image 0
    has no keypoint and no descriptors ([None], as [detectAndCompute]
    returns them), every other image has the five keypoints.  The matcher
    gives no match for a query without descriptors, and raises, as the
    shape assertion of OpenCV's matcher does, for a query with descriptors
    against a reference without. *)
Definition example_detect_blank (img : nat)
  : result (list (Z * Z) * option nat) :=
  Return match img with
         | O => ([], None)
         | _ => (example_keypoints, Some img)
         end.

Definition example_knnMatch_strict (target ref : option nat)
  : result (list (list CoreGeoTransform.DMatch)) :=
  match target, ref with
  | None, _ => Return []
  | Some _, None => Raise
  | Some t, Some r => example_knnMatch t r
  end.

(* ================================================================== *)
(** * Part II.  Properties                                              *)
(* ================================================================== *)

(** ** Strings and the pattern of the validator *)

Section StringFacts.
Context `{UnicodeData}.

Lemma span_len_le cls s : (span_len cls s <= length s)%nat.
Proof.
  induction s as [|c r IH]; simpl; [lia|]. destruct (cls c); simpl; lia.
Qed.

Lemma span_len_nth cls s k :
  (k < span_len cls s)%nat -> cls (nth k s 0%N) = true.
Proof.
  revert k. induction s as [|c r IH]; simpl; intros k Hk; [lia|].
  destruct (cls c) eqn:Hc; [|lia].
  destruct k as [|k]; [exact Hc|]. apply IH. lia.
Qed.

Lemma span_len_full cls s :
  span_len cls s = length s <-> forallb cls s = true.
Proof.
  induction s as [|c r IH]; simpl; [tauto|].
  destruct (cls c); simpl.
  - rewrite <- IH. split; intros; lia.
  - split; intros; [lia | discriminate].
Qed.

Lemma forallb_nth cls (s : pystr) :
  (forall k, (k < length s)%nat -> cls (nth k s 0%N) = true) ->
  forallb cls s = true.
Proof.
  induction s as [|c r IH]; simpl; intros Hk; [reflexivity|].
  rewrite (Hk O) by lia. simpl. apply IH. intros k Hlt. apply (Hk (S k)). lia.
Qed.

(** With the newline in the class, the pattern [^[cls]+$] matches exactly
    the non-empty strings made of class members. *)
Lemma match_class_plus_dollar_spec cls s :
  cls 10%N = true ->
  match_class_plus_dollar cls s = true <-> s <> [] /\ forallb cls s = true.
Proof.
  intros Hnl. unfold match_class_plus_dollar. rewrite existsb_exists.
  split.
  - intros (k & Hin & Hd). apply in_seq in Hin.
    pose proof (span_len_le cls s) as Hle.
    unfold at_dollar in Hd. apply orb_true_iff in Hd as [Hd|Hd].
    + apply Nat.eqb_eq in Hd. split.
      * intros ->. simpl in *. lia.
      * apply span_len_full. lia.
    + apply andb_true_iff in Hd as [Hlen Hc].
      apply Nat.eqb_eq in Hlen. apply N.eqb_eq in Hc. split.
      * intros ->. simpl in *. lia.
      * apply forallb_nth. intros j Hj.
        destruct (decide (j = k)) as [->|Hne]; [by rewrite Hc|].
        apply span_len_nth. lia.
  - intros [Hne Hall]. apply span_len_full in Hall.
    exists (length s). split.
    + apply in_seq. destruct s; [done|]. simpl in *. lia.
    + unfold at_dollar. by rewrite Nat.eqb_refl.
Qed.

Lemma lstrip_nil s : lstrip s = [] -> forallb isspace s = true.
Proof.
  induction s as [|c r IH]; simpl; [done|].
  destruct (isspace c); simpl; [exact IH | discriminate].
Qed.

Lemma lstrip_head s c r : lstrip s = c :: r -> isspace c = false.
Proof.
  induction s as [|d t IH]; simpl; [discriminate|].
  destruct (isspace d) eqn:Hd; [exact IH|]. intros [= -> _]. exact Hd.
Qed.

Lemma forallb_rev (p : N -> bool) s : forallb p (rev s) = forallb p s.
Proof.
  induction s as [|c r IH]; simpl; [done|].
  rewrite forallb_app, IH. simpl. rewrite andb_true_r. apply andb_comm.
Qed.

(** [s.strip()] is empty only for a string of whitespace. *)
Lemma strip_nil s : strip s = [] -> forallb isspace s = true.
Proof.
  unfold strip, rstrip. intros Hs.
  assert (Hl : lstrip (rev (lstrip s)) = []).
  { destruct (lstrip (rev (lstrip s))) as [|c r] eqn:E; [done|].
    simpl in Hs. by destruct (rev r). }
  apply lstrip_nil in Hl. rewrite forallb_rev in Hl.
  destruct (lstrip s) as [|c r] eqn:E; [by apply lstrip_nil|].
  apply lstrip_head in E. simpl in Hl. by rewrite E in Hl.
Qed.

End StringFacts.

Lemma startswith_app p rest : startswith (p ++ rest) p = true.
Proof.
  induction p as [|a p IH]; simpl; [by destruct rest|].
  by rewrite N.eqb_refl, IH.
Qed.

(** Substring search finds every occurrence. *)
Lemma contains_app pre needle post :
  contains (pre ++ needle ++ post) needle = true.
Proof.
  induction pre as [|c pre IH]; simpl.
  - assert (Hu : forall s, startswith s needle = true ->
                           contains s needle = true).
    { intros [|d t] Hs; simpl in *; by rewrite Hs. }
    apply Hu, startswith_app.
  - rewrite IH. apply orb_true_r.
Qed.

(** ** The expression validator *)

Section Validator.
Context `{UnicodeData}.
Import CoreRasterCalculator.

(** C7 (as the code has it): the validator accepts ["R1 ** 2"], whatever
    the Unicode tables say: the pattern is a character class that holds
    [*], so two stars in a row pass, and the text names band R1. *)
Theorem validate_expression_accepts_power :
  validate_expression (lit "R1 ** 2") = (true, "").
Proof. reflexivity. Qed.

(** C10: the validator constrains the character set only.  Every string
    made of word characters, whitespace and the characters [+-*/%().] that
    holds one of the tokens R1..R4 is valid; so ["R1 import os"] is valid,
    and ["import os"] is turned down with the message about the missing
    band, not the one about characters. *)
Theorem validate_expression_charset_only :
  (forall s : pystr,
     (forall c, In c s ->
        isword c = true \/ isspace c = true \/ In c (lit "+-*/%().")) ->
     (exists band pre post,
        In band [lit "R1"; lit "R2"; lit "R3"; lit "R4"] /\
        s = pre ++ band ++ post) ->
     validate_expression s = (true, ""))
  /\ validate_expression (lit "R1 import os") = (true, "")
  /\ validate_expression (lit "import os")
     = (false, "Expression must reference at least one band (R1-R4)").
Proof.
  split; [|split; reflexivity].
  intros s Hchars (band & pre & post & Hband & ->).
  assert (Hcls : forallb in_allowed (pre ++ band ++ post) = true).
  { apply forallb_forall. intros c Hc. unfold in_allowed.
    destruct (Hchars c Hc) as [-> | [-> | Hop]];
      [done | by rewrite orb_true_r |].
    apply orb_true_iff. right. apply existsb_exists. exists c.
    split; [exact Hop | apply N.eqb_refl]. }
  assert (Hin : existsb (contains (pre ++ band ++ post)) bands = true).
  { apply existsb_exists. exists band. split; [exact Hband|].
    apply contains_app. }
  assert (Hne : strip (pre ++ band ++ post) <> []).
  { intros Hnil. apply strip_nil in Hnil.
    rewrite !forallb_app in Hnil.
    apply andb_true_iff in Hnil as [_ Hnil].
    apply andb_true_iff in Hnil as [Hnil _].
    simpl in Hband.
    destruct Hband as [<-|[<-|[<-|[<-|[]]]]]; discriminate Hnil. }
  assert (Hm : match_class_plus_dollar in_allowed (pre ++ band ++ post) = true).
  { apply match_class_plus_dollar_spec; [reflexivity|]. split; [|exact Hcls].
    intros Hnil. rewrite Hnil in Hne. by apply Hne. }
  unfold validate_expression.
  destruct (strip (pre ++ band ++ post)); [done|].
  by rewrite Hm, Hin.
Qed.

End Validator.

(** C7: the text ["R1 ** 2"] is not turned down. *)
Lemma validate_expression_power_not_rejected :
  fst (@CoreRasterCalculator.validate_expression Reference.ascii_only
         (lit "R1 ** 2")) <> false.
Proof. discriminate. Qed.

(** The general part on the text ["R1 % (R2 + 0.5)"]. *)
Lemma validate_expression_charset_only_witness :
  (forall c, In c (lit "R1 % (R2 + 0.5)") ->
     @isword Reference.ascii_only c = true
     \/ @isspace Reference.ascii_only c = true
     \/ In c (lit "+-*/%().")) /\
  (exists band pre post,
     In band [lit "R1"; lit "R2"; lit "R3"; lit "R4"] /\
     lit "R1 % (R2 + 0.5)" = pre ++ band ++ post) /\
  @CoreRasterCalculator.validate_expression Reference.ascii_only
    (lit "R1 % (R2 + 0.5)") = (true, "").
Proof.
  assert (Hc : forall c, In c (lit "R1 % (R2 + 0.5)") ->
     @isword Reference.ascii_only c = true
     \/ @isspace Reference.ascii_only c = true
     \/ In c (lit "+-*/%().")).
  { intros c Hc. simpl in Hc.
    repeat (destruct Hc as [<-|Hc];
            [first [left; reflexivity
                   | right; left; reflexivity
                   | right; right; simpl; tauto]|]).
    destruct Hc. }
  assert (Hb : exists band pre post,
     In band [lit "R1"; lit "R2"; lit "R3"; lit "R4"] /\
     lit "R1 % (R2 + 0.5)" = pre ++ band ++ post).
  { exists (lit "R1"), [], (lit " % (R2 + 0.5)"). split; [simpl; tauto|reflexivity]. }
  split; [exact Hc|]. split; [exact Hb|].
  exact (proj1 (@validate_expression_charset_only Reference.ascii_only) _ Hc Hb).
Defined.

(** ** Dictionaries *)

Section DictFacts.
Context {V : Type}.
Implicit Types d : PyDict.t V.

Lemma dict_get_set k' k (v : V) d :
  PyDict.get k' (PyDict.set k v d)
  = if String.eqb k' k then Some v else PyDict.get k' d.
Proof.
  induction d as [|[k0 v0] r IH]; simpl; [done|].
  destruct (String.eqb k k0) eqn:E; simpl.
  - apply String.eqb_eq in E as ->. by destruct (String.eqb k' k0).
  - rewrite IH. destruct (String.eqb k' k0) eqn:E0; [|done].
    apply String.eqb_eq in E0 as ->.
    by rewrite String.eqb_sym, E.
Qed.

Lemma dict_get_keys k d :
  PyDict.get k d = None <-> ~ In k (PyDict.keys d).
Proof.
  induction d as [|[k0 v0] r IH]; simpl; [tauto|].
  destruct (String.eqb k k0) eqn:E.
  - apply String.eqb_eq in E as ->. split; [discriminate | tauto].
  - apply String.eqb_neq in E. rewrite IH. unfold PyDict.keys.
    split.
    + intros Hn [Hk|Hk]; [congruence | tauto].
    + tauto.
Qed.

Lemma dict_keys_set k' k (v : V) d :
  In k' (PyDict.keys (PyDict.set k v d)) -> k' = k \/ In k' (PyDict.keys d).
Proof.
  induction d as [|[k0 v0] r IH]; simpl; [intuition congruence|].
  destruct (String.eqb k k0) eqn:E; simpl; [tauto|].
  intros [Hk|Hk]; [tauto|]. destruct (IH Hk); tauto.
Qed.

End DictFacts.

(** ** Raster names *)

Section RasterNames.
Context {A : Type}.
Import CoreRasterCalculator.
Implicit Types st : state A.

Lemma raster_name_inj n m : raster_name n = raster_name m -> n = m.
Proof.
  unfold raster_name. intros Hn.
  apply (inj (String.app "Raster ")) in Hn. by apply (inj pretty) in Hn.
Qed.

Lemma names_bounded_init : @names_bounded A init.
Proof. split; [done | intros name []]. Qed.

Lemma names_bounded_add st e r :
  names_bounded st -> names_bounded (snd (add_calculated_raster e r st)).
Proof.
  intros [Hc Hb]. split; simpl; [lia|]. intros name Hin.
  apply dict_keys_set in Hin as [-> | Hin].
  - exists (raster_counter st + 1). split; [lia | done].
  - destruct (Hb name Hin) as (k & Hk & ->). exists k. split; [lia | done].
Qed.

Lemma names_bounded_session ops st :
  names_bounded st -> names_bounded (snd (session ops st)).
Proof.
  revert st. induction ops as [|[e r|] ops IH]; intros st Hst; simpl.
  - exact Hst.
  - specialize (IH _ (names_bounded_add st e r Hst)). simpl in IH.
    by destruct (session ops _).
  - apply IH, names_bounded_init.
Qed.

(** A name beyond the counter is not in the store. *)
Lemma names_bounded_fresh st n :
  names_bounded st -> raster_counter st < n ->
  PyDict.get (raster_name n) (calculated_rasters st) = None.
Proof.
  intros [_ Hb] Hn. apply dict_get_keys. intros Hin.
  destruct (Hb _ Hin) as (k & Hk & Heq). apply raster_name_inj in Heq. lia.
Qed.

(** Without a clear in between, the names are numbered consecutively. *)
Lemma session_adds_names (adds : list (pystr * A)) st :
  fst (session (map (fun a => Add (fst a) (snd a)) adds) st)
  = map (fun i => raster_name (raster_counter st + Z.of_nat i))
        (seq 1 (length adds)).
Proof.
  revert st. induction adds as [|[e r] adds IH]; intros st; simpl; [done|].
  specialize (IH (snd (add_calculated_raster e r st))). simpl in IH.
  destruct (session _ _) as [names final]. simpl in *. f_equal.
  rewrite IH, <- (seq_shift _ 1), map_map. apply map_ext. intros i.
  f_equal. lia.
Qed.

(** C6 (as the code has it): [add_calculated_raster] numbers the rasters
    with a counter that it increments by one, and [clear_all_rasters]
    empties the store and puts the counter back to 0.  In every state that
    a session of adds and clears reaches: the name the next add hands out
    is ["Raster (counter+1)"] and is the name of no stored raster, and the
    adds that follow, up to the next clear, hand out consecutive numbers. *)
Theorem raster_names_fresh_and_consecutive (ops : list (op A)) :
  let st := snd (session ops init) in
  (forall e r,
     fst (add_calculated_raster e r st) = raster_name (raster_counter st + 1)
     /\ raster_counter (snd (add_calculated_raster e r st))
        = raster_counter st + 1
     /\ PyDict.get (fst (add_calculated_raster e r st)) (calculated_rasters st)
        = None)
  /\ (forall adds : list (pystr * A),
        fst (session (map (fun a => Add (fst a) (snd a)) adds) st)
        = map (fun i => raster_name (raster_counter st + Z.of_nat i))
              (seq 1 (length adds))
        /\ NoDup (fst (session (map (fun a => Add (fst a) (snd a)) adds) st)))
  /\ raster_counter (clear_all_rasters st) = 0
  /\ calculated_rasters (clear_all_rasters st) = [].
Proof.
  intros st.
  assert (Hst : names_bounded st) by apply names_bounded_session, names_bounded_init.
  split; [|split; [|done]].
  - intros e r. split; [done|]. split; [done|]. simpl.
    apply names_bounded_fresh; [exact Hst | lia].
  - intros adds. rewrite session_adds_names. split; [done|].
    apply NoDup_fmap_2; [|apply NoDup_seq].
    intros i j Hij. apply raster_name_inj in Hij. lia.
Qed.

End RasterNames.

(** C6: after a clear the numbering starts again, and the second raster
    gets the name of the first. *)
Lemma raster_name_reused_after_clear :
  ~ NoDup (fst (CoreRasterCalculator.session
                  [CoreRasterCalculator.Add (lit "R1") 1%nat;
                   CoreRasterCalculator.Clear;
                   CoreRasterCalculator.Add (lit "R2") 2%nat]
                  CoreRasterCalculator.init)).
Proof.
  intros Hnd. vm_compute in Hnd.
  apply NoDup_cons in Hnd as [Hnin _]. apply Hnin. left.
Qed.

(** ** The paths to the evaluator *)

Section EvaluatorPaths.
Context `{UnicodeData} {A : Type}.
Variable py_eval : pystr -> list A -> option A.
Import CoreRasterCalculator RasterCalculationTab.
Implicit Types s : tab A.
#[local] Arguments evaluate_expression : simpl never.

Lemma overlay_expr_valid : validate_expression overlay_expr = (true, "").
Proof. reflexivity. Qed.

Lemma tab_ok_record s ev : tab_ok s -> call_ok ev -> tab_ok (record ev s).
Proof.
  intros [He Hc] Hev. split; [exact He|]. simpl.
  apply Forall_app. split; [exact Hc | by constructor].
Qed.

Lemma tab_ok_set_calculator s c :
  tab_ok s -> expressions_valid c -> tab_ok (set_calculator c s).
Proof. intros [_ Hc] He. by split. Qed.

Lemma expressions_valid_set (c : state A) name e rasters counter :
  expressions_valid c -> fst (validate_expression e) = true ->
  expressions_valid (A:=A)
    {| calculated_rasters := rasters;
       raster_expressions := PyDict.set name e (raster_expressions c);
       raster_counter := counter |}.
Proof.
  intros Hc He n e'. simpl. rewrite dict_get_set.
  destruct (String.eqb n name); [by intros [= <-] | apply Hc].
Qed.

Lemma tab_ok_update_one name s :
  tab_ok s -> tab_ok (snd (update_one_raster py_eval name s)).
Proof.
  intros Hs. unfold update_one_raster, bind, gets. simpl.
  destruct (PyDict.get name _) as [[|c e]|] eqn:E; simpl; try exact Hs.
  assert (Hrec : tab_ok (record (EvEvaluate (c :: e)) s)).
  { apply tab_ok_record; [exact Hs|]. destruct Hs as [He _]. by eapply He. }
  destruct (evaluate_expression _ _ _); simpl; [|exact Hrec].
  apply tab_ok_set_calculator; [exact Hrec|].
  intros n e'. simpl. apply Hs.
Qed.

Lemma tab_ok_for_each names s :
  tab_ok s -> tab_ok (snd (for_each names (update_one_raster py_eval) s)).
Proof.
  revert s. induction names as [|n names IH]; intros s Hs; simpl; [exact Hs|].
  unfold bind. pose proof (tab_ok_update_one n s Hs) as H1.
  destruct (update_one_raster py_eval n s) as [[] s1]. by apply IH.
Qed.

Lemma tab_ok_update_all s :
  tab_ok s -> tab_ok (snd (update_all_rasters py_eval s)).
Proof.
  intros Hs. unfold update_all_rasters, bind, gets. simpl.
  destruct (current_reflectance_tiles s); simpl; [|exact Hs].
  by apply tab_ok_for_each.
Qed.

Lemma tab_ok_ensure_overlay s :
  tab_ok s -> tab_ok (snd (ensure_overlay_raster py_eval s)).
Proof.
  intros Hs. unfold ensure_overlay_raster, bind, gets. simpl.
  destruct (current_reflectance_tiles s) eqn:Et; simpl; [|exact Hs].
  destruct (PyDict.mem "Overlay" _); simpl; [exact Hs|].
  assert (Hrec : tab_ok (record (EvEvaluate overlay_expr) s)).
  { apply tab_ok_record; [exact Hs | reflexivity]. }
  destruct (evaluate_expression _ _ _); simpl; [|exact Hrec].
  assert (Hset : tab_ok (set_calculator
    {| calculated_rasters :=
         PyDict.set "Overlay" a (calculated_rasters (raster_calculator s));
       raster_expressions :=
         PyDict.set "Overlay" overlay_expr (raster_expressions (raster_calculator s));
       raster_counter := raster_counter (raster_calculator s) |}
    (record (EvEvaluate overlay_expr) s))).
  { apply tab_ok_set_calculator; [exact Hrec|].
    apply expressions_valid_set; [apply Hs | reflexivity]. }
  case_bool_decide; [exact Hset|]. destruct Hset as [He Hc]. by split.
Qed.

Lemma tab_ok_apply s :
  tab_ok s -> tab_ok (snd (apply_raster_expression py_eval s)).
Proof.
  intros Hs. unfold apply_raster_expression, bind, gets. simpl.
  set (e := strip (ras_func_txt s)).
  assert (Hv : tab_ok (record (EvValidate e (fst (validate_expression e))) s)).
  { by apply tab_ok_record. }
  destruct (fst (validate_expression e)) eqn:Hval; simpl; [|exact Hv].
  destruct (current_reflectance_tiles s); simpl; [|exact Hv].
  assert (Hrec : tab_ok (record (EvEvaluate e)
                           (record (EvValidate e true) s))).
  { by apply tab_ok_record. }
  destruct (evaluate_expression _ _ _); simpl; [|exact Hrec].
  split; [|apply Hrec]. simpl.
  apply expressions_valid_set; [apply Hs | exact Hval].
Qed.

Lemma tab_ok_handle a s : tab_ok s -> tab_ok (snd (handle py_eval a s)).
Proof.
  intros Hs. destruct a as [text| |reply| |tiles ok]; simpl.
  - destruct Hs. by split.
  - unfold check_raster_expression, bind, gets. simpl.
    by apply tab_ok_record.
  - destruct reply; simpl; [|exact Hs]. destruct Hs as [_ Hc].
    split; [|exact Hc]. intros n e. discriminate.
  - by apply tab_ok_apply.
  - unfold update_reflectance_display. destruct tiles as [t|]; [|exact Hs].
    unfold bind, modify.
    assert (Ht : tab_ok (set_tiles (Some t) s)) by (destruct Hs; by split).
    destruct ok; [|exact Ht].
    pose proof (tab_ok_ensure_overlay _ Ht) as H1.
    destruct (ensure_overlay_raster py_eval _) as [[] s1].
    by apply tab_ok_update_all.
Qed.

Lemma tab_ok_run acts s : tab_ok s -> tab_ok (run py_eval acts s).
Proof.
  revert s. induction acts as [|a acts IH]; intros s Hs; simpl; [exact Hs|].
  by apply IH, tab_ok_handle.
Qed.

Lemma only_evaluations_refl log : only_evaluations log log.
Proof. exists []. simpl. by rewrite app_nil_r. Qed.

Lemma only_evaluations_step log1 log2 e :
  only_evaluations log1 log2 -> only_evaluations log1 (log2 ++ [EvEvaluate e]).
Proof.
  intros [texts ->]. exists (texts ++ [e]).
  by rewrite map_app, app_assoc.
Qed.

Lemma only_evaluations_trans log1 log2 log3 :
  only_evaluations log1 log2 -> only_evaluations log2 log3 ->
  only_evaluations log1 log3.
Proof.
  intros [t1 ->] [t2 ->]. exists (t1 ++ t2).
  by rewrite map_app, app_assoc.
Qed.

Lemma update_one_only_evaluations name s :
  only_evaluations (calls s) (calls (snd (update_one_raster py_eval name s))).
Proof.
  unfold update_one_raster, bind, gets. simpl.
  destruct (PyDict.get name _) as [[|c e]|]; simpl;
    try apply only_evaluations_refl.
  destruct (evaluate_expression _ _ _); simpl;
    apply only_evaluations_step, only_evaluations_refl.
Qed.

Lemma for_each_only_evaluations names s :
  only_evaluations (calls s)
    (calls (snd (for_each names (update_one_raster py_eval) s))).
Proof.
  revert s. induction names as [|n names IH]; intros s; simpl;
    [apply only_evaluations_refl|].
  unfold bind. pose proof (update_one_only_evaluations n s) as H1.
  destruct (update_one_raster py_eval n s) as [[] s1].
  eapply only_evaluations_trans; [exact H1 | apply IH].
Qed.

Lemma update_reflectance_only_evaluations tiles ok s :
  only_evaluations (calls s)
    (calls (snd (update_reflectance_display py_eval tiles ok s))).
Proof.
  unfold update_reflectance_display.
  destruct tiles as [t|]; [|apply only_evaluations_refl].
  unfold bind at 1. unfold modify. destruct ok; [|apply only_evaluations_refl].
  unfold bind at 1.
  assert (H1 : only_evaluations (calls s)
            (calls (snd (ensure_overlay_raster py_eval (set_tiles (Some t) s))))).
  { unfold ensure_overlay_raster, bind, gets. simpl.
    destruct (PyDict.mem "Overlay" _); simpl; [apply only_evaluations_refl|].
    destruct (evaluate_expression _ _ _); simpl.
    - case_bool_decide; simpl; apply only_evaluations_step, only_evaluations_refl.
    - apply only_evaluations_step, only_evaluations_refl. }
  destruct (ensure_overlay_raster py_eval _) as [[] s1]. simpl in H1.
  eapply only_evaluations_trans; [exact H1|].
  unfold update_all_rasters, bind, gets. simpl.
  destruct (current_reflectance_tiles s1); simpl;
    [apply for_each_only_evaluations | apply only_evaluations_refl].
Qed.

(** C1 (as the code has it): whatever the operator and the timer do, a
    text that reaches [evaluate_expression] is a text that
    [validate_expression] accepts, and so is every stored expression.  The
    validator itself runs on the operator's path only: Apply validates the
    stripped text of the box and evaluates that same text only when it is
    valid and reflectance is there; the timer path ([update_reflectance_display]
    with the Overlay raster and the re-evaluation of the stored rasters)
    calls the evaluator without calling the validator. *)
Theorem evaluated_text_is_valid (acts : list (action A)) :
  let s := run py_eval acts init in
  Forall call_ok (calls s)
  /\ expressions_valid (raster_calculator s)
  /\ (let e := strip (ras_func_txt s) in
      let v := fst (validate_expression e) in
      calls (snd (apply_raster_expression py_eval s))
      = calls s ++ EvValidate e v ::
          (if v && bool_decide (is_Some (current_reflectance_tiles s))
           then [EvEvaluate e] else []))
  /\ (forall tiles ok,
        only_evaluations (calls s)
          (calls (snd (update_reflectance_display py_eval tiles ok s)))).
Proof.
  intros s.
  assert (Hs : tab_ok s).
  { apply tab_ok_run. split; [intros n e; discriminate | constructor]. }
  split; [apply Hs|]. split; [apply Hs|]. split.
  - unfold apply_raster_expression, bind, gets. simpl.
    destruct (fst (validate_expression _)); simpl; [|done].
    destruct (current_reflectance_tiles s) eqn:Et; simpl; [|done].
    destruct (evaluate_expression _ _ _); simpl; by rewrite <- app_assoc.
  - intros tiles ok. apply update_reflectance_only_evaluations.
Qed.

End EvaluatorPaths.

(** C1: the first timer turn with reflectance evaluates the Overlay text,
    and no validation comes before it. *)
Lemma overlay_evaluated_without_validation :
  ~ @validated_first
      (RasterCalculationTab.calls
         (@RasterCalculationTab.run Reference.ascii_only nat
            (fun _ _ => None)
            [RasterCalculationTab.UpdateReflectance
               (Some [1; 2; 3; 4]%nat) true]
            RasterCalculationTab.init)).
Proof.
  intros Hv.
  apply (Hv [] RasterCalculationTab.overlay_expr []). reflexivity.
Qed.

(** ** Reflectance *)

(** Decides the sign tests that [slice_bound] makes on bounds that are
    visibly not negative. *)
Ltac nonneg_bounds :=
  repeat match goal with
  | |- context [?a <? 0] =>
      let E := fresh in destruct (Z.ltb_spec a 0) as [E|E]; [lia|]
  end.

(** The slice of band [i] of a full frame has the shape of a band. *)
Lemma band_tile_shape (frame : ndarray Z) i :
  shape frame = (480, 2560)%nat ->
  (i < 4)%nat ->
  shape (slice_cols frame
           (Z.of_nat (i * CoreReflectanceCalculator.FRAME_W))
           (Z.of_nat ((i + 1) * CoreReflectanceCalculator.FRAME_W)))
  = (480, 640)%nat.
Proof.
  intros [= Hr Hc] Hi.
  unfold shape, slice_cols, slice, slice_bound, CoreReflectanceCalculator.FRAME_W.
  simpl nrows. simpl ncols. rewrite Hr, Hc.
  nonneg_bounds.
  f_equal; lia.
Qed.

Section ReflectanceFacts.
Context {F : Type} `{PyFloat F}.
Import CoreReflectanceCalculator.

Variable frame : ndarray Z.
Variable bg_tiles : list (option (ndarray Z)).
Variable expo_sliders : list Z.
Variable ref_cam_entries : list pystr.
Variable EXPO_MS : list F.

#[local] Abbreviation band_ready :=
  (band_ready bg_tiles expo_sliders ref_cam_entries EXPO_MS).
#[local] Abbreviation is_reflectance_tile :=
  (is_reflectance_tile frame bg_tiles expo_sliders ref_cam_entries EXPO_MS).

Hypothesis frame_shape : shape frame = (480, 2560)%nat.
Hypothesis bg_shape :
  forall i bg, bg_tiles !! i = Some (Some bg) -> shape bg = (480, 640)%nat.
Hypothesis bg_count : length bg_tiles = 4%nat.
Hypothesis table_size : length EXPO_MS = 12%nat.

Lemma band_exposure_ms_some i :
  is_Some (band_exposure_ms expo_sliders EXPO_MS i).
Proof.
  unfold band_exposure_ms. destruct (expo_sliders !! i); [|done].
  apply lookup_lt_is_Some. lia.
Qed.

(** The loop, from any band on: it appends one tile per band when all the
    bands left are ready, and returns [None] otherwise. *)
Lemma bands_loop_spec todo acc shown :
  Forall (fun i => (i < 4)%nat) todo ->
  if forallb band_ready todo then
    exists new,
      bands_loop bg_tiles expo_sliders ref_cam_entries EXPO_MS frame todo acc shown
      = (Return (Some (acc ++ new)), shown)
      /\ Forall2 is_reflectance_tile todo new
  else
    fst (bands_loop bg_tiles expo_sliders ref_cam_entries EXPO_MS frame todo acc
           shown) = Return None.
Proof.
  intros Htodo. revert acc.
  induction Htodo as [|i todo Hi Htodo IH]; intros acc; simpl.
  { exists []. by rewrite app_nil_r. }
  unfold band_ready at 1.
  destruct (bg_tiles !! i) as [[bg|]|] eqn:Ebg; simpl; [| done |].
  2:{ apply lookup_ge_None in Ebg. lia. }
  destruct (band_exposure_ms_some i) as [e Ee]. rewrite Ee.
  destruct (feq0 e) eqn:Ez; simpl; [done|].
  destruct (feq0 (band_ref_radiance ref_cam_entries i)) eqn:Er; simpl; [done|].
  pose proof (band_tile_shape frame i frame_shape Hi) as Hcam.
  pose proof (bg_shape i bg Ebg) as Hbg.
  injection Hcam as Hcr Hcc. injection Hbg as Hbr Hbc.
  unfold binop. simpl nrows. simpl ncols. rewrite Hcr, Hcc, Hbr, Hbc.
  change (broadcast_dim 480 480) with (Some 480%nat).
  change (broadcast_dim 640 640) with (Some 640%nat).
  cbv iota beta.
  match goal with
  | |- context [bands_loop _ _ _ _ _ _ (acc ++ [?t]) _] => set (tile := t)
  end.
  specialize (IH (acc ++ [tile])).
  destruct (forallb band_ready todo).
  - destruct IH as (new & -> & Hnew). exists (tile :: new).
    split; [by rewrite <- app_assoc|].
    constructor; [|exact Hnew].
    exists bg, e. split; [done|]. split; [done|]. split; [done|].
    intros r c Hr Hc. unfold tile, reflectance_pixel. simpl.
    injection frame_shape as Hfr Hfc.
    assert (Hsb : slice_bound (ncols frame) (Z.of_nat (i * FRAME_W))
                  = (i * 640)%nat).
    { unfold slice_bound, FRAME_W. rewrite Hfc.
      destruct (Z.ltb_spec (Z.of_nat (i * 640)) 0); lia. }
    by rewrite Hsb.
  - exact IH.
Qed.


End ReflectanceFacts.

(** The dark-noise tiles come from [load_reference_image], which stores
    nothing but tiles of 480 x 640: the shape the theorem above asks of
    them. *)
Lemma load_reference_image_shapes (img : option (ndarray Z))
    (tiles_store : list (option (ndarray Z))) :
  length tiles_store = 4%nat ->
  (forall i t, tiles_store !! i = Some (Some t) -> shape t = (480, 640)%nat) ->
  forall i t,
    CoreImageLoad.load_reference_image img tiles_store !! i = Some (Some t) ->
    shape t = (480, 640)%nat.
Proof.
  intros Hlen Hold i t. unfold CoreImageLoad.load_reference_image.
  destruct img as [img|]; [|apply Hold].
  case_bool_decide as Hshape; simpl; [|apply Hold].
  destruct tiles_store as [|t0 [|t1 [|t2 [|t3 [|t4 ts]]]]]; try discriminate.
  destruct i as [|[|[|[|i]]]]; simpl; intros [= <-];
    [apply (band_tile_shape img 0) | apply (band_tile_shape img 1)
     | apply (band_tile_shape img 2) | apply (band_tile_shape img 3)];
    (exact Hshape || lia).
Qed.



(** ** Loading a model *)

Section ClassifierFacts.
Context {Obj : Type}.
Variable has_predict : Obj -> bool.
Import CoreClassifier.

(** A missing file, a file under 100 bytes and an exception of
    [joblib.load] leave the classifier as it was. *)
Lemma load_model_early_failure (fs : filesystem Obj) filepath (self : state Obj) :
  path_exists fs filepath = false
  \/ getsize fs filepath < 100
  \/ (exists err, joblib_load fs filepath = inl err) ->
  load_model has_predict fs filepath self = (false, self).
Proof.
  unfold load_model. intros [Hex | [Hsz | [err Hld]]].
  - by rewrite Hex.
  - destruct (path_exists fs filepath); simpl; [|done].
    destruct (Z.ltb_spec (getsize fs filepath) 100); [done | lia].
  - destruct (path_exists fs filepath); simpl; [|done].
    destruct (getsize fs filepath <? 100); [done|]. by rewrite Hld.
Qed.

(** C3, the failing case: a file that deserializes to an object without
    [predict] makes [load_model] return [False], yet the object has become
    [self.model] and the model held before is gone; only [model_path]
    stays. *)
Theorem load_model_keeps_object_without_predict
    (fs : filesystem Obj) filepath (self : state Obj) loaded :
  path_exists fs filepath = true ->
  100 <= getsize fs filepath ->
  joblib_load fs filepath = inr loaded ->
  model_has_predict has_predict loaded = false ->
  load_model has_predict fs filepath self
  = (false, {| model := loaded; model_path := model_path self |}).
Proof.
  intros Hex Hsz Hld Hp. unfold load_model. rewrite Hex. simpl.
  destruct (Z.ltb_spec (getsize fs filepath) 100); [lia|].
  rewrite Hld. simpl. by rewrite Hp.
Qed.

End ClassifierFacts.

(** Loading a pickled dictionary over a loaded forest. *)
Lemma load_model_keeps_object_without_predict_witness :
  CoreClassifier.path_exists example_filesystem (lit "notes.joblib") = true
  /\ 100 <= CoreClassifier.getsize example_filesystem (lit "notes.joblib")
  /\ CoreClassifier.joblib_load example_filesystem (lit "notes.joblib")
     = inr (Some "dict")
  /\ CoreClassifier.model_has_predict example_has_predict (Some "dict") = false
  /\ CoreClassifier.load_model example_has_predict example_filesystem
       (lit "notes.joblib") example_classifier
     = (false,
        {| CoreClassifier.model := Some "dict";
           CoreClassifier.model_path := Some (lit "forest.joblib") |}).
Proof.
  split; [reflexivity|]. split; [simpl; lia|]. split; [reflexivity|].
  split; [reflexivity|].
  apply (load_model_keeps_object_without_predict example_has_predict
           example_filesystem (lit "notes.joblib") example_classifier
           (Some "dict")); [reflexivity | simpl; lia | reflexivity | reflexivity].
Defined.

(** ** The receiver thread *)

Section ReceiverFacts.
Variable imdecode : list Z -> option (ndarray Z).
Import ZMQReceiverThread.

#[local] Abbreviation bad_payload := (bad_payload imdecode).

Lemma on_message_good data f :
  In f (on_message imdecode data) ->
  imdecode data = Some f /\ shape f = (480, 2560)%nat.
Proof.
  unfold on_message. destruct (imdecode data) as [img|]; [|intros []].
  case_bool_decide as Hs; [|intros []]. intros [<-|[]]. by split.
Qed.

Lemma on_message_bad data : bad_payload data -> on_message imdecode data = [].
Proof.
  unfold on_message. intros [-> | (img & -> & Hs)]; [done|].
  by case_bool_decide.
Qed.


End ReceiverFacts.


(** ** Reference radiance *)

Section RadianceFacts.
Context {F : Type} `{PyFloat F} `{UnicodeData} `{PyLib}.
Import CoreRefRadianceEstimator.

(** The window of [center_roi], in the coordinates of the tile: centred,
    100 x 100, cut where the tile ends. *)
Lemma center_roi_window (tile : ndarray Z) :
  let h := Z.of_nat (nrows tile) in
  let w := Z.of_nat (ncols tile) in
  let y1 := Z.max 0 (h / 2 - 50) in
  let x1 := Z.max 0 (w / 2 - 50) in
  Z.of_nat (nrows (center_roi tile)) = Z.min h (h / 2 + 50) - y1
  /\ Z.of_nat (ncols (center_roi tile)) = Z.min w (w / 2 + 50) - x1
  /\ forall r c,
       item (center_roi tile) r c
       = item tile (Z.to_nat y1 + r) (Z.to_nat x1 + c).
Proof.
  intros h w y1 x1. unfold center_roi, slice, slice_bound. simpl.
  change (100 / 2) with 50. fold h w. fold y1 x1.
  assert (0 <= h) by lia. assert (0 <= w) by lia.
  assert (0 <= h / 2 <= h) by (split; [apply Z.div_pos; lia | apply Z.div_le_upper_bound; lia]).
  assert (0 <= w / 2 <= w) by (split; [apply Z.div_pos; lia | apply Z.div_le_upper_bound; lia]).
  nonneg_bounds.
  split; [lia|]. split; [lia|]. intros r c. f_equal; lia.
Qed.

(** On a band of 480 x 640 the window is rows 190..289, columns 270..369. *)
Lemma center_roi_band (tile : ndarray Z) :
  shape tile = (480, 640)%nat ->
  shape (center_roi tile) = (100, 100)%nat
  /\ forall r c, item (center_roi tile) r c = item tile (190 + r) (270 + c).
Proof.
  intros [= Hr Hc]. destruct (center_roi_window tile) as (Hh & Hw & Hi).
  rewrite Hr, Hc in *. split.
  - unfold shape. f_equal.
    + apply Nat2Z.inj. rewrite Hh. reflexivity.
    + apply Nat2Z.inj. rewrite Hw. reflexivity.
  - intros r c. rewrite Hi. reflexivity.
Qed.


End RadianceFacts.


(** ** Automatic alignment *)

Lemma ratio_filter_spec (threshold : Q) (matches : list (list CoreGeoTransform.DMatch)) m :
  In m (CoreGeoTransform.ratio_filter threshold matches)
  <-> exists n, In [m; n] matches
        /\ (CoreGeoTransform.distance m
            < threshold * CoreGeoTransform.distance n)%Q.
Proof.
  assert (Htest : forall a b,
    CoreGeoTransform.ratio_test threshold a b = true
    <-> (CoreGeoTransform.distance a
         < threshold * CoreGeoTransform.distance b)%Q).
  { intros a b. unfold CoreGeoTransform.ratio_test.
    rewrite negb_true_iff, <- not_true_iff_false, Qle_bool_iff.
    split; [apply Qnot_le_lt | apply Qlt_not_le]. }
  induction matches as [|pair rest IH]; simpl.
  { split; [intros [] | intros (n & [] & _)]. }
  destruct pair as [|a [|b [|c t]]];
    try (rewrite IH; split; intros (n & Hin & Hlt); exists n;
         [tauto | destruct Hin as [Hin|Hin]; [discriminate | tauto]]).
  destruct (CoreGeoTransform.ratio_test threshold a b) eqn:Et.
  - simpl. rewrite IH. split.
    + intros [<- | (n & Hin & Hlt)]; [exists b | exists n];
        (split; [tauto|]); [by apply Htest | done].
    + intros (n & [[= <- <-] | Hin] & Hlt); [by left | right; eauto].
  - rewrite IH. split.
    + intros (n & Hin & Hlt). exists n. tauto.
    + intros (n & [[= <- <-] | Hin] & Hlt); [|eauto].
      apply Htest in Hlt. congruence.
Qed.

Section AlignmentExceptions.
Context {F Image KeyPoint Point Descriptors Mask : Type}.
Variable pt : KeyPoint -> Point.
Variable detectAndCompute : Image -> result (list KeyPoint * Descriptors).
Variable knnMatch :
  Descriptors -> Descriptors -> result (list (list CoreGeoTransform.DMatch)).
Variable findHomography :
  list Point -> list Point -> result (option (ndarray F) * option Mask).
Variable mask_sum : Mask -> Z.
Import CoreGeoTransform.

(** The helper [match_features] turns an exception of the matcher into an
    empty list of matches. *)
Lemma match_features_catches d1 d2 :
  knnMatch d1 d2 = Raise -> match_features knnMatch d1 d2 = [].
Proof. unfold match_features. by intros ->. Qed.

(** C5 (code bug): the automatic path has no handler.  When the matcher
    raises on band 2, as OpenCV's does when the reference band has no
    descriptors and the target band has some, the helper [match_features]
    gives no match for the same two descriptor sets, but
    [automatic_transformation_estimation] ends with the exception: it
    records no "no homography" for band 2 and returns nothing for the
    bands 3 and 4. *)
Theorem automatic_estimation_raises_on_matcher_error im1 im2 im3 im4
    kp_ref des_ref kp_target des_target return_matches self :
  detectAndCompute im1 = Return (kp_ref, des_ref) ->
  detectAndCompute im2 = Return (kp_target, des_target) ->
  knnMatch des_target des_ref = Raise ->
  match_features knnMatch des_target des_ref = []
  /\ automatic_transformation_estimation pt detectAndCompute knnMatch
       findHomography mask_sum [im1; im2; im3; im4] return_matches self
     = Raise.
Proof.
  intros Href Htarget Hknn. split; [apply match_features_catches, Hknn|].
  unfold automatic_transformation_estimation.
  change (py_index [im1; im2; im3; im4] 0) with (Some im1).
  cbv beta iota. rewrite Href. cbn [estimate_bands]. unfold estimate_band at 1.
  change (py_index [im1; im2; im3; im4] (2 - 1)) with (Some im2).
  cbv beta iota. by rewrite Htarget, Hknn.
Qed.

End AlignmentExceptions.

(** C5 on a reference band without features: band 1 is blank, band 2 has
    the five keypoints, and the matcher raises on their descriptors. *)
Lemma automatic_estimation_raises_on_matcher_error_witness :
  example_detect_blank 0%nat = Return ([], None)
  /\ example_detect_blank 2%nat = Return (example_keypoints, Some 2%nat)
  /\ example_knnMatch_strict (Some 2%nat) None = Raise
  /\ CoreGeoTransform.match_features example_knnMatch_strict (Some 2%nat) None
     = []
  /\ CoreGeoTransform.automatic_transformation_estimation (fun p => p)
       example_detect_blank example_knnMatch_strict example_findHomography
       example_mask_sum [0; 2; 3; 4]%nat true CoreGeoTransform.init
     = Raise.
Proof.
  split; [reflexivity|]. split; [reflexivity|]. split; [reflexivity|].
  apply (automatic_estimation_raises_on_matcher_error (fun p => p)
           example_detect_blank example_knnMatch_strict example_findHomography
           example_mask_sum 0%nat 2%nat 3%nat 4%nat [] None example_keypoints
           (Some 2%nat) true CoreGeoTransform.init); reflexivity.
Defined.

Section AlignmentFacts.
Context {F Image KeyPoint Point Descriptors Mask : Type}.
Variable pt : KeyPoint -> Point.
Variable detectAndCompute : Image -> result (list KeyPoint * Descriptors).
Variable knnMatch :
  Descriptors -> Descriptors -> result (list (list CoreGeoTransform.DMatch)).
Variable findHomography :
  list Point -> list Point -> result (option (ndarray F) * option Mask).
Variable mask_sum : Mask -> Z.
Import CoreGeoTransform.

#[local] Abbreviation estimate :=
  (automatic_transformation_estimation pt detectAndCompute knnMatch
     findHomography mask_sum).
#[local] Abbreviation band_outcome :=
  (band_outcome pt detectAndCompute knnMatch findHomography).

(** The OpenCV calls return, and the matcher refers to keypoints that
    exist. *)
Hypothesis detect_returns :
  forall img, exists kd, detectAndCompute img = Return kd.
Hypothesis knn_returns :
  forall d1 d2, exists matches, knnMatch d1 d2 = Return matches.
Hypothesis homography_returns :
  forall src dst, exists r, findHomography src dst = Return r.
Hypothesis indices_in_range :
  forall target ref kp_t d_t kp_r d_r matches pair m,
    detectAndCompute target = Return (kp_t, d_t) ->
    detectAndCompute ref = Return (kp_r, d_r) ->
    knnMatch d_t d_r = Return matches ->
    In pair matches -> In m pair ->
    0 <= queryIdx m < Z.of_nat (length kp_t)
    /\ 0 <= trainIdx m < Z.of_nat (length kp_r).

Lemma matched_points_returns (kp : list KeyPoint) idx good :
  (forall m, In m good -> 0 <= idx m < Z.of_nat (length kp)) ->
  exists pts, matched_points pt kp idx good = Return pts
              /\ length pts = length good.
Proof.
  intros Hidx. unfold matched_points.
  destruct (mapM _ good) as [pts|] eqn:E.
  - exists pts. split; [done|]. symmetry. by eapply length_mapM.
  - apply mapM_None_1, Exists_exists in E as (m & Hm & Hnone).
    apply list_elem_of_In in Hm. specialize (Hidx m Hm).
    unfold py_index in Hnone.
    destruct (Z.ltb_spec (idx m) 0); [lia|].
    destruct (lookup_lt_is_Some_2 kp (Z.to_nat (idx m))) as [k Hk]; [lia|].
    by rewrite Hk in Hnone.
Qed.

Lemma estimate_band_returns images rm kp_ref des_ref ref i st :
  detectAndCompute ref = Return (kp_ref, des_ref) ->
  is_Some (py_index images (i - 1)) ->
  exists H info,
    estimate_band pt detectAndCompute knnMatch findHomography mask_sum
      images rm kp_ref des_ref i st
    = Return {| results := <[ H_key i := Homography H ]> (results st);
                homography_matrices :=
                  <[ H_key i := H ]> (homography_matrices st);
                matches_data :=
                  if rm then <[ matches_key i := Matches info ]> (matches_data st)
                  else matches_data st |}
    /\ band_outcome images kp_ref des_ref i H.
Proof.
  intros Href [target Ht]. unfold estimate_band, band_outcome. rewrite Ht.
  destruct (detect_returns target) as [[kp_t d_t] Hd]. rewrite Hd.
  destruct (knn_returns d_t des_ref) as [matches Hk]. rewrite Hk.
  set (good := ratio_filter (75 # 100) matches).
  assert (Hidx : forall m, In m good ->
            0 <= queryIdx m < Z.of_nat (length kp_t)
            /\ 0 <= trainIdx m < Z.of_nat (length kp_ref)).
  { intros m Hm. apply ratio_filter_spec in Hm as (n & Hin & _).
    eapply (indices_in_range target ref); eauto. simpl. tauto. }
  destruct (Nat.leb_spec 4 (length good)) as [Hge|Hlt].
  - destruct (matched_points_returns kp_t queryIdx good) as (src & Hs & Hsl);
      [intros m Hm; by apply Hidx|].
    destruct (matched_points_returns kp_ref trainIdx good) as (dst & Hds & _);
      [intros m Hm; by apply Hidx|].
    rewrite Hs, Hds.
    destruct (homography_returns src dst) as [[H mask] Hh]. rewrite Hh.
    eexists H, _. split; [reflexivity|].
    exists target, kp_t, d_t, matches. repeat (split; [done|]).
    fold good. split; [intros; lia|]. intros _.
    exists src, dst, mask. by repeat split.
  - exists None. eexists. split; [reflexivity|].
    exists target, kp_t, d_t, matches. repeat (split; [done|]).
    fold good. intros. lia.
Qed.

(** X22: provided that the OpenCV calls return and that the matcher refers
    to keypoints that exist, the method on four images returns, and for
    each of the bands 2, 3, 4 both the returned dictionary
    and [self.homography_matrices] hold under [H_i1] a value [H] such that:
    with fewer than 4 matches passing the ratio test [H] is [None]; with 4
    or more, [H] is what the estimator returned for the points of exactly
    these matches, [None] when it found nothing. *)
Theorem automatic_estimation_floor (images : list Image) (return_matches : bool)
    (self : gmap string (option (ndarray F))) :
  length images = 4%nat ->
  exists ref_img kp_ref des_ref res after,
    images !! 0%nat = Some ref_img
    /\ detectAndCompute ref_img = Return (kp_ref, des_ref)
    /\ estimate images return_matches self = Return (res, after)
    /\ forall i, In i [2; 3; 4] ->
         exists H,
           res !! H_key i = Some (Homography H)
           /\ after !! H_key i = Some H
           /\ band_outcome images kp_ref des_ref i H.
Proof.
  intros Hlen.
  destruct images as [|im1 [|im2 [|im3 [|im4 [|im5 rest]]]]]; try discriminate.
  destruct (detect_returns im1) as [[kp_ref des_ref] Href].
  destruct (estimate_band_returns [im1; im2; im3; im4] return_matches kp_ref
              des_ref im1 2 {| results := ∅; matches_data := ∅;
                               homography_matrices := self |} Href)
    as (H2 & info2 & E2 & Ho2); [by eexists|].
  match type of E2 with _ = Return ?st =>
    destruct (estimate_band_returns [im1; im2; im3; im4] return_matches kp_ref
                des_ref im1 3 st Href) as (H3 & info3 & E3 & Ho3);
      [by eexists|]
  end.
  match type of E3 with _ = Return ?st =>
    destruct (estimate_band_returns [im1; im2; im3; im4] return_matches kp_ref
                des_ref im1 4 st Href) as (H4 & info4 & E4 & Ho4);
      [by eexists|]
  end.
  exists im1, kp_ref, des_ref. eexists _, _.
  split; [reflexivity|]. split; [exact Href|]. split.
  { unfold automatic_transformation_estimation.
    change (py_index [im1; im2; im3; im4] 0) with (Some im1).
    cbv beta iota. rewrite Href.
    cbn [estimate_bands]. rewrite E2, E3, E4. reflexivity. }
  cbn [results matches_data homography_matrices].
  change (H_key 2) with "H_21". change (H_key 3) with "H_31".
  change (H_key 4) with "H_41".
  change (matches_key 2) with "matches_21".
  change (matches_key 3) with "matches_31".
  change (matches_key 4) with "matches_41".
  intros i [<- | [<- | [<- | []]]];
    [exists H2 | exists H3 | exists H4];
    (split; [|split; [by simplify_map_eq | done]]);
    (destruct return_matches;
     [rewrite lookup_union_r by (by simplify_map_eq)|]; by simplify_map_eq).
Qed.

End AlignmentFacts.

(** X22 on the stand-in for OpenCV: a matrix for band 2, none for bands 3
    and 4. *)
Lemma automatic_estimation_floor_witness :
  (forall img, exists kd, example_detect img = Return kd)
  /\ (forall d1 d2, exists matches, example_knnMatch d1 d2 = Return matches)
  /\ (forall src dst, exists r, example_findHomography src dst = Return r)
  /\ (forall target ref kp_t d_t kp_r d_r matches pair m,
        example_detect target = Return (kp_t, d_t) ->
        example_detect ref = Return (kp_r, d_r) ->
        example_knnMatch d_t d_r = Return matches ->
        In pair matches -> In m pair ->
        0 <= CoreGeoTransform.queryIdx m < Z.of_nat (length kp_t)
        /\ 0 <= CoreGeoTransform.trainIdx m < Z.of_nat (length kp_r))
  /\ length [1; 2; 3; 4]%nat = 4%nat
  /\ exists res after,
       CoreGeoTransform.automatic_transformation_estimation (fun p => p)
         example_detect example_knnMatch example_findHomography
         example_mask_sum [1; 2; 3; 4]%nat true CoreGeoTransform.init
       = Return (res, after)
       /\ (exists M, after !! "H_21" = Some (Some M))
       /\ after !! "H_31" = Some None
       /\ after !! "H_41" = Some None.
Proof.
  assert (H1 : forall img, exists kd, example_detect img = Return kd)
    by (intros; by eexists).
  assert (H2 : forall d1 d2, exists matches,
                 example_knnMatch d1 d2 = Return matches)
    by (intros; by eexists).
  assert (H3 : forall src dst, exists r,
                 example_findHomography src dst = Return r)
    by (intros; by eexists).
  assert (H4 : forall target ref kp_t d_t kp_r d_r matches pair m,
        example_detect target = Return (kp_t, d_t) ->
        example_detect ref = Return (kp_r, d_r) ->
        example_knnMatch d_t d_r = Return matches ->
        In pair matches -> In m pair ->
        0 <= CoreGeoTransform.queryIdx m < Z.of_nat (length kp_t)
        /\ 0 <= CoreGeoTransform.trainIdx m < Z.of_nat (length kp_r)).
  { intros target ref kp_t d_t kp_r d_r matches pair m [= <- <-] [= <- _]
      [= <-] Hpair Hm.
    destruct target as [|[|[|[|[|n]]]]]; simpl in Hpair;
      repeat (destruct Hpair as [<-|Hpair];
              [simpl in Hm; destruct Hm as [<-|[<-|[]]];
               cbv; intuition discriminate|]);
      destruct Hpair. }
  repeat (split; [assumption || reflexivity|]).
  destruct (@automatic_estimation_floor Z nat (Z * Z) (Z * Z) nat (list bool)
              (fun p => p) example_detect example_knnMatch
              example_findHomography example_mask_sum H1 H2 H3 H4
              [1; 2; 3; 4]%nat true CoreGeoTransform.init eq_refl)
    as (ref_img & kp_ref & des_ref & res & after & _ & Href & Heq & Hbands).
  exists res, after. split; [exact Heq|].
  injection Href as <- <-.
  destruct (Hbands 2) as (M2 & _ & Ha2 & t2 & k2 & d2 & m2 & Ht2 & Hd2 & Hk2 & _ & Hge2);
    [simpl; tauto|].
  destruct (Hbands 3) as (M3 & _ & Ha3 & t3 & k3 & d3 & m3 & Ht3 & Hd3 & Hk3 & Hlt3 & _);
    [simpl; tauto|].
  destruct (Hbands 4) as (M4 & _ & Ha4 & t4 & k4 & d4 & m4 & Ht4 & Hd4 & Hk4 & _ & Hge4);
    [simpl; tauto|].
  injection Ht2 as <-. injection Hd2 as <- <-. injection Hk2 as <-.
  injection Ht3 as <-. injection Hd3 as <- <-. injection Hk3 as <-.
  injection Ht4 as <-. injection Hd4 as <- <-. injection Hk4 as <-.
  split; [|split].
  - destruct Hge2 as (src & dst & mask & Hs & _ & _ & Hf); [vm_compute; lia|].
    injection Hs as <-. injection Hf as <- _. eexists. exact Ha2.
  - rewrite (Hlt3 ltac:(vm_compute; lia)) in Ha3. exact Ha3.
  - destruct Hge4 as (src & dst & mask & Hs & _ & _ & Hf); [vm_compute; lia|].
    injection Hs as <-. injection Hf as <- _. exact Ha4.
Defined.

(** ** The configuration file *)

Lemma split_no_sep sep (s : pystr) : ~ In sep s -> split sep s = [s].
Proof.
  induction s as [|c r IH]; simpl; [done|]. intros Hn.
  destruct (N.eqb_spec c sep) as [->|Hc]; [tauto|].
  rewrite IH by tauto. done.
Qed.

Lemma split_app_sep sep (x rest : pystr) :
  ~ In sep x -> split sep (x ++ sep :: rest) = x :: split sep rest.
Proof.
  induction x as [|c r IH]; simpl; intros Hn.
  - by rewrite N.eqb_refl.
  - destruct (N.eqb_spec c sep) as [->|Hc]; [tauto|].
    rewrite IH by tauto. done.
Qed.

(** Splitting at commas undoes joining with commas, for parts that hold no
    comma. *)
Lemma split_join (parts : list pystr) :
  parts <> [] -> Forall (fun x => ~ In 44%N x) parts ->
  split 44 (join (lit ",") parts) = parts.
Proof.
  intros Hne Hall. induction Hall as [|x rest Hx Hrest IH]; [done|].
  destruct rest as [|y rest]; simpl.
  - by apply split_no_sep.
  - change (lit ",") with [44%N]. simpl app.
    rewrite split_app_sep by done. f_equal. by apply IH.
Qed.

Lemma join_has_comma (x y : pystr) rest : In 44%N (join (lit ",") (x :: y :: rest)).
Proof. simpl. apply in_app_iff. right. by left. Qed.

Section ConfigFacts.
Context {F : Type}.
Variable str_of_float : F -> pystr.
Variable float_of_text : pystr -> option F.
Variable fzero : F.
Import CoreGeoTransform.

#[local] Abbreviation save := (save_config_ini str_of_float).
#[local] Abbreviation load := (load_config_ini float_of_text fzero).
#[local] Abbreviation saved_text := (saved_text str_of_float).

Lemma save_lookup (hm : homographies F) key :
  In key ["H_11"; "H_21"; "H_31"; "H_41"] ->
  save hm !! key = Some {[ "matrix" := saved_text hm key ]}.
Proof.
  unfold save_config_ini, saved_text. simpl.
  intros [<- | [<- | [<- | [<- | []]]]];
    destruct (dict_get hm "H_11"), (dict_get hm "H_21"),
             (dict_get hm "H_31"), (dict_get hm "H_41");
    by simplify_map_eq.
Qed.

(** The loop of [load_config_ini] never touches a key that is not in its
    list. *)
Lemma load_keys_other (config : ini) todo key :
  ~ In key todo ->
  forall results hm,
    (load_keys float_of_text fzero config todo results hm).2 !! key = hm !! key
    /\ forall loaded,
         (load_keys float_of_text fzero config todo results hm).1 = Return loaded ->
         loaded !! key = results !! key.
Proof.
  induction todo as [|k rest IH]; simpl; intros Hn results hm.
  { split; [done|]. by intros loaded [= <-]. }
  assert (Hk : k <> key) by tauto. assert (Hrest : ~ In key rest) by tauto.
  assert (Hstep : forall v,
    (load_keys float_of_text fzero config rest (<[k:=v]> results) (<[k:=v]> hm)).2
      !! key = hm !! key
    /\ forall loaded,
         (load_keys float_of_text fzero config rest (<[k:=v]> results)
            (<[k:=v]> hm)).1 = Return loaded ->
         loaded !! key = results !! key).
  { intros v. destruct (IH Hrest (<[k:=v]> results) (<[k:=v]> hm)) as [H1 H2].
    rewrite lookup_insert_ne in H1 by done. split; [exact H1|].
    intros loaded Hl. rewrite (H2 loaded Hl). by rewrite lookup_insert_ne. }
  destruct (config !! k) as [section|]; [|apply Hstep].
  case_bool_decide; [apply Hstep|].
  destruct (parse_values float_of_text _); [|by split].
  destruct (reshape fzero _ 3 3); [apply Hstep | by split].
Qed.

(** C4, the failing key: the file written by [save_config_ini] holds the
    matrix of [H_11], and [load_config_ini] neither returns it nor stores
    it: the returned dictionary has no [H_11], and
    [self.homography_matrices] keeps under [H_11] what it had before the
    load (nothing, in a new session). *)
Theorem load_config_ini_drops_H_11 (saved self : homographies F) (H : ndarray F) :
  dict_get saved "H_11" = Some H ->
  save saved !! "H_11"
  = Some {[ "matrix" := join (lit ",") (map str_of_float (flatten H)) ]}
  /\ forall results after,
       load (Some (save saved)) self = (Return (Some results), after) ->
       results !! "H_11" = None /\ after !! "H_11" = self !! "H_11".
Proof.
  intros HH. split.
  - rewrite save_lookup by (simpl; tauto). unfold saved_text. by rewrite HH.
  - intros results after. unfold load_config_ini.
    destruct (load_keys_other (save saved) ["H_21"; "H_31"; "H_41"] "H_11"
                ltac:(simpl; intros [|[|[|[]]]]; discriminate) ∅ self)
      as [Hafter Hres].
    destruct (load_keys _ _ _ _ _ _) as [[loaded|] hm'];
      intros [= <- <-]; simpl in *.
    split; [by rewrite (Hres loaded eq_refl) | exact Hafter].
Qed.

(** For the round trip the texts of floats must parse back to the float
    they print, and hold no comma. *)
Hypothesis parse_str : forall x, float_of_text (str_of_float x) = Some x.
Hypothesis str_no_comma : forall x, ~ In 44%N (str_of_float x).

Lemma parse_values_saved (values : list F) :
  values <> [] ->
  parse_values float_of_text (join (lit ",") (map str_of_float values))
  = Some values.
Proof.
  intros Hne. unfold parse_values. rewrite split_join.
  - apply mapM_fmap_Forall_Some, Forall_forall. intros x _. apply parse_str.
  - by destruct values.
  - apply Forall_forall. intros s Hs. apply list_elem_of_fmap in Hs as (x & -> & _).
    apply str_no_comma.
Qed.

Lemma flatten_3x3 {T} (H : ndarray T) :
  shape H = (3, 3)%nat ->
  flatten H = [item H 0 0; item H 0 1; item H 0 2;
               item H 1 0; item H 1 1; item H 1 2;
               item H 2 0; item H 2 1; item H 2 2]%nat.
Proof. intros [= Hr Hc]. unfold flatten. by rewrite Hr, Hc. Qed.

Lemma load_keys_saved (saved : homographies F) todo :
  (forall key H, dict_get saved key = Some H -> shape H = (3, 3)%nat) ->
  Forall (fun key => In key ["H_11"; "H_21"; "H_31"; "H_41"]) todo ->
  NoDup todo ->
  forall results hm,
  exists results' hm',
    load_keys float_of_text fzero (save saved) todo results hm
    = (Return results', hm')
    /\ forall key, In key todo ->
         exists v, results' !! key = Some v /\ hm' !! key = Some v
                   /\ reloaded saved key v.
Proof.
  intros Hshape Htodo. induction Htodo as [|k rest Hk Hrest IH];
    intros Hnd results hm; simpl.
  { eexists _, _. split; [done|]. intros key []. }
  apply NoDup_cons in Hnd as [Hnotin Hnd].
  rewrite save_lookup by done. simpl. rewrite lookup_singleton_eq. simpl.
  assert (Hstep : forall v, reloaded saved k v ->
    exists results' hm',
      load_keys float_of_text fzero (save saved) rest (<[k:=v]> results)
        (<[k:=v]> hm) = (Return results', hm')
      /\ forall key, In key (k :: rest) ->
           exists v, results' !! key = Some v /\ hm' !! key = Some v
                     /\ reloaded saved key v).
  { intros v Hv.
    destruct (IH Hnd (<[k:=v]> results) (<[k:=v]> hm))
      as (results' & hm' & Heq & Hkeys).
    exists results', hm'. split; [exact Heq|].
    intros key [<- | Hin]; [|by apply Hkeys].
    exists v.
    destruct (load_keys_other (save saved) rest k
                ltac:(by rewrite <- list_elem_of_In)
                (<[k:=v]> results) (<[k:=v]> hm)) as [H1 H2].
    rewrite Heq in H1, H2. simpl in H1, H2.
    rewrite H1, (H2 results' eq_refl), !lookup_insert_eq. done. }
  unfold saved_text, reloaded in *.
  destruct (dict_get saved k) as [H|] eqn:EH.
  - pose proof (Hshape k H EH) as Hs. rewrite (flatten_3x3 H Hs).
    case_bool_decide as Hnone.
    { exfalso. assert (Hc : In 44%N (lit "None")).
      { rewrite <- Hnone. simpl map. apply join_has_comma. }
      vm_compute in Hc. intuition discriminate. }
    rewrite parse_values_saved by done. simpl.
    apply Hstep. eexists. split; [reflexivity|]. split; [done|].
    intros r c Hr Hc. simpl.
    destruct r as [|[|[|r]]], c as [|[|[|c]]]; try lia; reflexivity.
  - rewrite bool_decide_eq_true_2 by done. apply Hstep. done.
Qed.

(** The part of the round trip that holds: for the three target bands,
    saving and loading gives back a 3 x 3 matrix with the same items, or
    the marker [None] for a band that had none. *)
Lemma save_load_target_bands (saved self : homographies F) :
  (forall key H, dict_get saved key = Some H -> shape H = (3, 3)%nat) ->
  exists results after,
    load (Some (save saved)) self = (Return (Some results), after)
    /\ forall key, In key ["H_21"; "H_31"; "H_41"] ->
         exists v, results !! key = Some v /\ after !! key = Some v
                   /\ reloaded saved key v.
Proof.
  intros Hshape. unfold load_config_ini.
  destruct (load_keys_saved saved ["H_21"; "H_31"; "H_41"] Hshape
              ltac:(repeat constructor; simpl; tauto)
              ltac:(repeat (apply NoDup_cons_2;
                            [rewrite ?elem_of_cons, elem_of_nil;
                             intuition discriminate|]);
                    apply NoDup_nil_2) ∅ self)
    as (results & after & -> & Hkeys).
  by exists results, after.
Qed.

(** A missing section, a section without [matrix] and the text [None] all
    load as "no transform". *)
Lemma load_missing_or_none (config : ini) self key :
  In key ["H_21"; "H_31"; "H_41"] ->
  config !! key = None
  \/ (exists section, config !! key = Some section
        /\ default (lit "None") (section !! "matrix") = lit "None") ->
  (forall k, In k ["H_21"; "H_31"; "H_41"] -> k <> key -> config !! k = None) ->
  exists results after,
    load (Some config) self = (Return (Some results), after)
    /\ results !! key = Some None /\ after !! key = Some None.
Proof.
  intros Hkey Hcase Hothers. unfold load_config_ini. simpl.
  assert (Hrow : forall k, In k ["H_21"; "H_31"; "H_41"] ->
    config !! k = None
    \/ exists section, config !! k = Some section
         /\ default (lit "None") (section !! "matrix") = lit "None").
  { intros k Hk. destruct (decide (k = key)) as [->|Hne]; [exact Hcase|].
    left. by apply Hothers. }
  destruct (Hrow "H_21") as [-> | (s1 & -> & ->)]; [simpl; tauto| |];
  destruct (Hrow "H_31") as [-> | (s2 & -> & ->)]; try (simpl; tauto);
  destruct (Hrow "H_41") as [-> | (s3 & -> & ->)]; try (simpl; tauto);
  rewrite ?bool_decide_eq_true_2 by done;
  eexists _, _; (split; [reflexivity|]);
  destruct Hkey as [<- | [<- | [<- | []]]]; by simplify_map_eq.
Qed.

End ConfigFacts.

Lemma small_float_round_trip x :
  small_float_parse (small_float_str x) = Some x.
Proof. by destruct x. Qed.

Lemma small_float_no_comma x : ~ In 44%N (small_float_str x).
Proof. destruct x; vm_compute; intuition discriminate. Qed.

Lemma example_homographies_shape key H :
  CoreGeoTransform.dict_get example_homographies key = Some H ->
  shape H = (3, 3)%nat.
Proof.
  unfold CoreGeoTransform.dict_get, example_homographies.
  destruct (decide (key = "H_11")) as [->|?]; [by intros [= <-]|].
  destruct (decide (key = "H_21")) as [->|?]; [by intros [= <-]|].
  destruct (decide (key = "H_31")) as [->|?]; [done|].
  by simplify_map_eq.
Qed.

(** The example set saved and loaded in a new session. *)
Lemma load_config_ini_drops_H_11_witness :
  CoreGeoTransform.dict_get example_homographies "H_11" = Some example_identity
  /\ CoreGeoTransform.save_config_ini small_float_str example_homographies
       !! "H_11"
     = Some {[ "matrix" := lit "1.0,0.0,0.0,0.0,1.0,0.0,0.0,0.0,1.0" ]}
  /\ exists results after,
       CoreGeoTransform.load_config_ini small_float_parse F0
         (Some (CoreGeoTransform.save_config_ini small_float_str
                  example_homographies))
         CoreGeoTransform.init
       = (Return (Some results), after)
       /\ results !! "H_11" = None
       /\ after !! "H_11" = None.
Proof.
  destruct (load_config_ini_drops_H_11 small_float_str small_float_parse F0
              example_homographies CoreGeoTransform.init example_identity
              eq_refl) as [Hfile Hload].
  split; [reflexivity|]. split; [exact Hfile|].
  destruct (save_load_target_bands small_float_str small_float_parse F0
              small_float_round_trip small_float_no_comma
              example_homographies CoreGeoTransform.init
              example_homographies_shape)
    as (results & after & Heq & _).
  exists results, after. split; [exact Heq|].
  exact (Hload results after Heq).
Defined.

(** The round trip of the three target bands on the same example. *)
Example save_load_target_bands_example :
  exists results after,
    CoreGeoTransform.load_config_ini small_float_parse F0
      (Some (CoreGeoTransform.save_config_ini small_float_str
               example_homographies))
      CoreGeoTransform.init
    = (Return (Some results), after)
    /\ (exists H', results !! "H_21" = Some (Some H')
          /\ forall r c, (r < 3)%nat -> (c < 3)%nat ->
               item H' r c = item example_shear r c)
    /\ results !! "H_31" = Some None
    /\ results !! "H_41" = Some None.
Proof.
  destruct (save_load_target_bands small_float_str small_float_parse F0
              small_float_round_trip small_float_no_comma
              example_homographies CoreGeoTransform.init
              example_homographies_shape)
    as (results & after & Heq & Hkeys).
  exists results, after. split; [exact Heq|].
  destruct (Hkeys "H_21") as (v2 & Hr2 & _ & Hv2); [simpl; tauto|].
  destruct (Hkeys "H_31") as (v3 & Hr3 & _ & Hv3); [simpl; tauto|].
  destruct (Hkeys "H_41") as (v4 & Hr4 & _ & Hv4); [simpl; tauto|].
  unfold reloaded in *.
  change (CoreGeoTransform.dict_get example_homographies "H_21")
    with (Some example_shear) in Hv2.
  change (CoreGeoTransform.dict_get example_homographies "H_31")
    with (@None (ndarray small_float)) in Hv3.
  change (CoreGeoTransform.dict_get example_homographies "H_41")
    with (@None (ndarray small_float)) in Hv4.
  cbv beta iota in Hv2, Hv3, Hv4.
  destruct Hv2 as (H' & -> & _ & Hitems). subst v3 v4.
  split; [by exists H'|]. by split.
Qed.

(** ** The verdicts of the validator *)

Section ValidatorVerdicts.
Context `{UnicodeData}.
Import CoreRasterCalculator.

Lemma lstrip_all_space s : forallb isspace s = true -> lstrip s = [].
Proof.
  induction s as [|c r IH]; simpl; [reflexivity|].
  intros E. apply andb_prop in E as [Ec Er]. rewrite Ec. auto.
Qed.

Lemma strip_all_space s : forallb isspace s = true -> strip s = [].
Proof.
  intros E. unfold strip, rstrip. rewrite (lstrip_all_space s E). reflexivity.
Qed.

Lemma in_allowed_newline : in_allowed 10%N = true.
Proof. reflexivity. Qed.

(** X1: the verdict of [validate_expression] on every text, with the
    message it gives.  A text of whitespace only (or empty) is turned down
    as empty; otherwise a text with a character outside the class (word
    characters, whitespace and [+-*/%().]) is turned down for its
    characters; otherwise a text that names none of R1..R4 is turned down
    for the missing band; every other text is accepted.  The anchors of the
    pattern add nothing to the character test. *)
Theorem validate_expression_verdicts (expression : pystr) :
  validate_expression expression
  = if forallb isspace expression then
      (false, "Expression is empty")
    else if negb (forallb in_allowed expression) then
      (false, "Expression contains invalid characters")
    else if negb (existsb (contains expression) bands) then
      (false, "Expression must reference at least one band (R1-R4)")
    else (true, "").
Proof.
  unfold validate_expression.
  destruct (forallb isspace expression) eqn:Esp.
  - rewrite (strip_all_space _ Esp). reflexivity.
  - destruct (strip expression) as [|c r] eqn:Es.
    + apply strip_nil in Es. congruence.
    + assert (Hne : expression <> []) by (intros ->; discriminate).
      assert (Hm : match_class_plus_dollar in_allowed expression
                   = forallb in_allowed expression).
      { pose proof (match_class_plus_dollar_spec in_allowed expression
                      in_allowed_newline) as Hs.
        destruct (forallb in_allowed expression) eqn:Ea.
        - apply Hs. split; [assumption|reflexivity].
        - destruct (match_class_plus_dollar in_allowed expression) eqn:Em;
            [|reflexivity].
          destruct Hs as [Hs _]. destruct (Hs eq_refl) as [_ Hf].
          discriminate Hf. }
      rewrite Hm. reflexivity.
Qed.

End ValidatorVerdicts.

(** ** The raster store *)

Section DictOrder.
Context {V : Type}.

Lemma dict_keys_set_present k (v : V) d :
  In k (PyDict.keys d) -> PyDict.keys (PyDict.set k v d) = PyDict.keys d.
Proof.
  induction d as [|[k' v'] r IH]; simpl; [tauto|].
  intros [E|E].
  - subst k'. rewrite String.eqb_refl. reflexivity.
  - destruct (String.eqb_spec k k'); simpl; [reflexivity|].
    f_equal. apply IH, E.
Qed.

Lemma dict_keys_set_fresh k (v : V) d :
  ~ In k (PyDict.keys d) -> PyDict.keys (PyDict.set k v d) = PyDict.keys d ++ [k].
Proof.
  induction d as [|[k' v'] r IH]; simpl; [reflexivity|].
  intros E. destruct (String.eqb_spec k k'); [subst; tauto|].
  simpl. f_equal. apply IH. tauto.
Qed.

End DictOrder.

Section StoreFacts.
Context {A : Type}.
Import CoreRasterCalculator.
Implicit Types st : state A.

Lemma raster_names_upto_succ n :
  0 <= n -> raster_names_upto (n + 1) = raster_names_upto n ++ [raster_name (n + 1)].
Proof.
  intros Hn. unfold raster_names_upto.
  replace (Z.to_nat (n + 1)) with (Z.to_nat n + 1)%nat by lia.
  rewrite seq_app, map_app. simpl. do 3 f_equal. lia.
Qed.

Lemma raster_names_upto_bound n name :
  In name (raster_names_upto n) -> exists k, 1 <= k <= n /\ name = raster_name k.
Proof.
  unfold raster_names_upto. intros Hin. apply in_map_iff in Hin as (i & <- & Hi).
  apply in_seq in Hi. exists (Z.of_nat i). split; [lia|reflexivity].
Qed.

Lemma raster_names_upto_fresh n : ~ In (raster_name (n + 1)) (raster_names_upto n).
Proof.
  intros Hin. apply raster_names_upto_bound in Hin as (k & Hk & E).
  apply raster_name_inj in E. lia.
Qed.

Lemma numbered_store_init : @numbered_store A init.
Proof. repeat split; simpl; lia. Qed.

Lemma numbered_store_add st e r :
  numbered_store st -> numbered_store (snd (add_calculated_raster e r st)).
Proof.
  intros (Hc & Hk & He). unfold numbered_store; simpl.
  rewrite (raster_names_upto_succ _ Hc).
  repeat split; [lia| |].
  - rewrite dict_keys_set_fresh by (rewrite Hk; apply raster_names_upto_fresh).
    rewrite Hk. reflexivity.
  - rewrite dict_keys_set_fresh by (rewrite He; apply raster_names_upto_fresh).
    rewrite He. reflexivity.
Qed.

Lemma numbered_store_session ops st :
  numbered_store st -> numbered_store (snd (session ops st)).
Proof.
  revert st. induction ops as [|[e r|] ops IH]; intros st Hst; simpl.
  - exact Hst.
  - specialize (IH _ (numbered_store_add st e r Hst)).
    simpl in IH.
    destruct (session ops _) as [names final]. exact IH.
  - apply IH. repeat split; simpl; lia.
Qed.

(** X2: in every state that a session of adds and clears reaches, the
    raster list is ["Raster 1"; ...; "Raster n"] in this order, with [n] the
    counter, and the expressions are kept under the same names.  The next
    add puts its name at the end of the list, the raster and the expression
    can be fetched under that name, and no other entry changes. *)
Theorem raster_store_numbered_in_order (ops : list (op A)) :
  let st := snd (session ops init) in
  get_raster_list st = raster_names_upto (raster_counter st)
  /\ PyDict.keys (raster_expressions st) = get_raster_list st
  /\ forall e r,
       let name := fst (add_calculated_raster e r st) in
       let st' := snd (add_calculated_raster e r st) in
       get_raster_list st' = get_raster_list st ++ [name]
       /\ get_raster name st' = Some r
       /\ PyDict.get name (raster_expressions st') = Some e
       /\ forall other, other <> name ->
            get_raster other st' = get_raster other st
            /\ PyDict.get other (raster_expressions st')
               = PyDict.get other (raster_expressions st).
Proof.
  intros st.
  destruct (numbered_store_session ops init numbered_store_init)
    as (Hc & Hk & He).
  fold st in Hc, Hk, He.
  split; [exact Hk|]. split; [unfold get_raster_list; congruence|].
  intros e r name st'. unfold get_raster_list, get_raster. subst name st'. simpl.
  split.
  { apply dict_keys_set_fresh. rewrite Hk. apply raster_names_upto_fresh. }
  rewrite !dict_get_set, String.eqb_refl.
  split; [reflexivity|]. split; [reflexivity|].
  intros other Hne. rewrite !dict_get_set.
  destruct (String.eqb_spec other (raster_name (raster_counter st + 1)));
    [contradiction|]. split; reflexivity.
Qed.

End StoreFacts.

(** ** The rasters of the tab *)

Section TabStoreFacts.
Context `{UnicodeData} {A : Type}.
Variable py_eval : pystr -> list A -> option A.
Import CoreRasterCalculator RasterCalculationTab.
Implicit Types s : tab A.

#[local] Arguments evaluate_expression : simpl never.

Lemma raster_name_not_overlay k : raster_name k <> "Overlay".
Proof. unfold raster_name. simpl. discriminate. Qed.

(** The tab-level invariant: a consistent store, listed by the dropdown. *)
#[local] Abbreviation listed s :=
  (store_consistent (raster_calculator s)
   /\ ras_calc_list s ≡ₚ get_raster_list (raster_calculator s)).

(** What one turn of [update_all_rasters] stores. *)
#[local] Abbreviation turn_rasters s name :=
  (match PyDict.get name (raster_expressions (raster_calculator s)) with
   | Some (ch :: e) =>
       match evaluate_expression py_eval (ch :: e) (current_reflectance_tiles s) with
       | Some r => PyDict.set name r (calculated_rasters (raster_calculator s))
       | None => calculated_rasters (raster_calculator s)
       end
   | _ => calculated_rasters (raster_calculator s)
   end).

Lemma update_one_effect name s :
  let s' := snd (update_one_raster py_eval name s) in
  raster_expressions (raster_calculator s') = raster_expressions (raster_calculator s)
  /\ raster_counter (raster_calculator s') = raster_counter (raster_calculator s)
  /\ ras_calc_list s' = ras_calc_list s
  /\ current_reflectance_tiles s' = current_reflectance_tiles s
  /\ ras_func_txt s' = ras_func_txt s
  /\ calculated_rasters (raster_calculator s') = turn_rasters s name.
Proof.
  unfold update_one_raster, bind, gets, modify, ret, call_evaluate; simpl.
  destruct (PyDict.get name (raster_expressions (raster_calculator s)))
    as [[|ch e]|] eqn:Ee; simpl; try solve [intuition].
  destruct (evaluate_expression py_eval (ch :: e) (current_reflectance_tiles s))
    as [r|] eqn:Er; simpl; intuition.
Qed.

Lemma turn_rasters_keys name s :
  In name (PyDict.keys (calculated_rasters (raster_calculator s))) ->
  PyDict.keys (turn_rasters s name)
  = PyDict.keys (calculated_rasters (raster_calculator s)).
Proof.
  intros Hin.
  destruct (PyDict.get name _) as [[|ch e]|]; try reflexivity.
  destruct (evaluate_expression _ _ _); [|reflexivity].
  apply dict_keys_set_present, Hin.
Qed.

Lemma refreshed_twice (c : state A) tiles name old :
  refreshed py_eval c tiles name (refreshed py_eval c tiles name old)
  = refreshed py_eval c tiles name old.
Proof.
  unfold refreshed. destruct (PyDict.get name _) as [[|ch e]|]; try reflexivity.
  destruct (evaluate_expression _ _ _); reflexivity.
Qed.

Lemma refreshed_ext (c c' : state A) tiles name old :
  raster_expressions c = raster_expressions c' ->
  refreshed py_eval c tiles name old = refreshed py_eval c' tiles name old.
Proof. unfold refreshed. intros ->. reflexivity. Qed.

Lemma turn_rasters_get name s tiles n :
  current_reflectance_tiles s = Some tiles ->
  PyDict.get n (turn_rasters s name)
  = if String.eqb n name then
      match PyDict.get n (calculated_rasters (raster_calculator s)) with
      | Some old => Some (refreshed py_eval (raster_calculator s) tiles n old)
      | None =>
          match PyDict.get n (raster_expressions (raster_calculator s)) with
          | Some (ch :: e) =>
              evaluate_expression py_eval (ch :: e) (Some tiles)
          | _ => None
          end
      end
    else PyDict.get n (calculated_rasters (raster_calculator s)).
Proof.
  intros Ht. rewrite Ht. unfold refreshed.
  destruct (String.eqb_spec n name) as [->|Hne].
  - destruct (PyDict.get name (raster_expressions _)) as [[|ch e]|];
      try (destruct (PyDict.get name (calculated_rasters _)); reflexivity).
    destruct (evaluate_expression _ _ _) as [r|].
    + rewrite dict_get_set, String.eqb_refl.
      destruct (PyDict.get name (calculated_rasters _)); reflexivity.
    + destruct (PyDict.get name (calculated_rasters _)); reflexivity.
  - destruct (PyDict.get name (raster_expressions _)) as [[|ch e]|];
      try reflexivity.
    destruct (evaluate_expression _ _ _) as [r|]; [|reflexivity].
    rewrite dict_get_set. destruct (String.eqb_spec n name); [contradiction|].
    reflexivity.
Qed.

Lemma for_each_update_effect names s tiles :
  current_reflectance_tiles s = Some tiles ->
  (forall n, In n names ->
     In n (PyDict.keys (calculated_rasters (raster_calculator s)))) ->
  let s' := snd (for_each names (update_one_raster py_eval) s) in
  raster_expressions (raster_calculator s') = raster_expressions (raster_calculator s)
  /\ raster_counter (raster_calculator s') = raster_counter (raster_calculator s)
  /\ ras_calc_list s' = ras_calc_list s
  /\ current_reflectance_tiles s' = current_reflectance_tiles s
  /\ ras_func_txt s' = ras_func_txt s
  /\ PyDict.keys (calculated_rasters (raster_calculator s'))
     = PyDict.keys (calculated_rasters (raster_calculator s))
  /\ forall n old,
       PyDict.get n (calculated_rasters (raster_calculator s)) = Some old ->
       PyDict.get n (calculated_rasters (raster_calculator s'))
       = Some (if bool_decide (n ∈ names)
               then refreshed py_eval (raster_calculator s) tiles n old
               else old).
Proof.
  revert s. induction names as [|a rest IH]; intros s Ht Hin; simpl.
  - repeat split; try reflexivity. intros n old E.
    first [ exact E
          | rewrite bool_decide_eq_false_2 by apply not_elem_of_nil; exact E ].
  - unfold bind.
    pose proof (update_one_effect a s) as (He & Hc & Hl & Htl & Htx & Hr).
    destruct (update_one_raster py_eval a s) as [[] s1] eqn:E1. simpl in *.
    assert (Hk1 : PyDict.keys (calculated_rasters (raster_calculator s1))
                  = PyDict.keys (calculated_rasters (raster_calculator s))).
    { rewrite Hr. apply turn_rasters_keys, Hin. left; reflexivity. }
    assert (Ht1 : current_reflectance_tiles s1 = Some tiles) by congruence.
    assert (Hin1 : forall n, In n rest ->
              In n (PyDict.keys (calculated_rasters (raster_calculator s1)))).
    { intros n Hn. rewrite Hk1. apply Hin. right; exact Hn. }
    destruct (IH s1 Ht1 Hin1) as (He' & Hc' & Hl' & Htl' & Htx' & Hk' & Hg').
    repeat split; try congruence.
    intros n old Eold.
    pose proof (turn_rasters_get a s tiles n Ht) as Hg1.
    rewrite <- Hr, Eold in Hg1.
    destruct (String.eqb_spec n a) as [->|Hne].
    + rewrite (Hg' _ _ Hg1), (refreshed_ext _ _ _ _ _ He), refreshed_twice.
      rewrite (bool_decide_eq_true_2 (a ∈ a :: rest)) by apply list_elem_of_here.
      destruct (bool_decide (a ∈ rest)); reflexivity.
    + rewrite (Hg' _ _ Hg1), (refreshed_ext _ _ _ _ _ He). f_equal.
      destruct (bool_decide_reflect (n ∈ rest)) as [Hr'|Hr'].
      * rewrite bool_decide_eq_true_2 by (apply list_elem_of_further, Hr').
        reflexivity.
      * rewrite bool_decide_eq_false_2; [reflexivity|].
        intros E. apply elem_of_cons in E as [E|E]; [congruence|contradiction].
Qed.


Lemma store_consistent_same (c c' : state A) :
  raster_counter c' = raster_counter c ->
  raster_expressions c' = raster_expressions c ->
  PyDict.keys (calculated_rasters c') = PyDict.keys (calculated_rasters c) ->
  store_consistent c -> store_consistent c'.
Proof.
  intros Hc He Hk (H0 & H1 & H2 & H3 & H4).
  unfold store_consistent, stored_name_ok. rewrite Hc, He, Hk.
  repeat split; assumption.
Qed.

Lemma store_consistent_fresh (c : state A) name :
  store_consistent c ->
  (name = "Overlay" \/ name = raster_name (raster_counter c + 1)) ->
  PyDict.get name (calculated_rasters c) = None ->
  forall r e counter,
    (name = "Overlay" -> e = overlay_expr) ->
    raster_counter c <= counter ->
    (name = raster_name (raster_counter c + 1) -> raster_counter c + 1 <= counter) ->
    store_consistent
      {| calculated_rasters := PyDict.set name r (calculated_rasters c);
         raster_expressions := PyDict.set name e (raster_expressions c);
         raster_counter := counter |}.
Proof.
  intros (H0 & H1 & H2 & H3 & H4) Hname Hnone r e counter Hov Hle Hnew.
  apply dict_get_keys in Hnone.
  unfold store_consistent, stored_name_ok. simpl.
  rewrite (dict_keys_set_fresh name r) by exact Hnone.
  rewrite (dict_keys_set_fresh name e) by (rewrite H1; exact Hnone).
  rewrite H1. repeat split.
  - lia.
  - apply NoDup_app. repeat split.
    + exact H2.
    + intros x Hx Hx'. apply list_elem_of_singleton in Hx'. subst x.
      apply list_elem_of_In in Hx. contradiction.
    + apply NoDup_singleton.
  - intros n Hn. apply in_app_or in Hn as [Hn|[<-|[]]].
    + destruct (H3 n Hn) as [->|(k & Hk & ->)]; [left; reflexivity|].
      right. exists k. split; [lia|reflexivity].
    + destruct Hname as [->| ->]; [left; reflexivity|].
      right. exists (raster_counter c + 1).
      split; [specialize (Hnew eq_refl); lia|reflexivity].
  - intros Hn. rewrite dict_get_set.
    destruct (String.eqb_spec "Overlay" name) as [<-|Hne].
    + rewrite (Hov eq_refl). reflexivity.
    + apply H4. apply in_app_or in Hn as [Hn|[Hn|[]]]; [exact Hn|].
      congruence.
Qed.

Lemma listed_ensure_overlay s :
  listed s -> listed (snd (ensure_overlay_raster py_eval s)).
Proof.
  intros (Hs & Hp). unfold get_raster_list in *.
  unfold ensure_overlay_raster, bind, gets. simpl.
  destruct (current_reflectance_tiles s) eqn:Et; simpl; [|split; assumption].
  unfold PyDict.mem.
  destruct (PyDict.get "Overlay" (calculated_rasters (raster_calculator s)))
    as [old|] eqn:Eo; simpl; [split; assumption|].
  destruct (evaluate_expression _ _ _) as [r|]; simpl; [|split; assumption].
  assert (Hnot : ~ In "Overlay" (PyDict.keys (calculated_rasters (raster_calculator s))))
    by (apply dict_get_keys, Eo).
  assert (Hnl : "Overlay" ∉ ras_calc_list s).
  { rewrite Hp, list_elem_of_In. exact Hnot. }
  rewrite bool_decide_eq_false_2 by exact Hnl. simpl.
  split.
  - apply store_consistent_fresh; auto; try lia.
    intros E. symmetry in E. destruct (raster_name_not_overlay _ E).
  - rewrite (dict_keys_set_fresh "Overlay" r) by exact Hnot.
    rewrite Hp. apply Permutation_cons_append.
Qed.

Lemma listed_update_all s :
  listed s -> listed (snd (update_all_rasters py_eval s)).
Proof.
  intros (Hs & Hp). unfold get_raster_list in *.
  destruct (current_reflectance_tiles s) as [tiles|] eqn:Ht;
    [|unfold update_all_rasters, bind, gets; simpl; rewrite Ht; simpl;
      split; assumption].
  assert (Hrun : update_all_rasters py_eval s
                 = for_each (PyDict.keys (calculated_rasters (raster_calculator s)))
                     (update_one_raster py_eval) s).
  { unfold update_all_rasters, bind, gets. simpl. rewrite Ht. reflexivity. }
  rewrite Hrun. clear Hrun.
  destruct (for_each_update_effect
              (PyDict.keys (calculated_rasters (raster_calculator s))) s
              tiles Ht (fun n Hn => Hn))
    as (He & Hc & Hl & _ & _ & Hk & _).
  rewrite Hl, Hk. split; [|exact Hp].
  eapply store_consistent_same; eauto.
Qed.

Lemma listed_apply s :
  listed s -> listed (snd (apply_raster_expression py_eval s)).
Proof.
  intros (Hs & Hp). unfold get_raster_list in *.
  unfold apply_raster_expression, bind, gets. simpl.
  destruct (fst (validate_expression (strip (ras_func_txt s)))); simpl;
    [|split; assumption].
  destruct (current_reflectance_tiles s) as [tiles|]; simpl; [|split; assumption].
  destruct (evaluate_expression _ _ _) as [r|]; simpl; [|split; assumption].
  assert (Hnone : PyDict.get (raster_name (raster_counter (raster_calculator s) + 1))
                    (calculated_rasters (raster_calculator s)) = None).
  { apply dict_get_keys. intros Hin.
    destruct Hs as (_ & _ & _ & H3 & _).
    destruct (H3 _ Hin) as [E|(k & Hk & E)].
    - exact (raster_name_not_overlay _ E).
    - apply raster_name_inj in E. lia. }
  split.
  - apply store_consistent_fresh; auto; try lia.
    intros E. destruct (raster_name_not_overlay _ E).
  - rewrite (dict_keys_set_fresh _ r) by (apply dict_get_keys, Hnone).
    rewrite Hp. reflexivity.
Qed.

Lemma listed_handle a s : listed s -> listed (snd (handle py_eval a s)).
Proof.
  intros Hs. destruct a as [text| |reply| |tiles ok]; simpl.
  - exact Hs.
  - exact Hs.
  - destruct reply; simpl; [|exact Hs].
    unfold store_consistent, get_raster_list. simpl.
    repeat split; try lia; try constructor; intros; contradiction.
  - apply listed_apply, Hs.
  - unfold update_reflectance_display. destruct tiles as [t|]; [|exact Hs].
    destruct ok.
    + pose proof (listed_ensure_overlay (set_tiles (Some t) s) Hs) as H1.
      unfold bind, modify. simpl.
      destruct (ensure_overlay_raster py_eval (set_tiles (Some t) s)) as [[] s1].
      apply listed_update_all, H1.
    + exact Hs.
Qed.

(** X4: whatever the operator and the timer do, the two dictionaries of
    the raster store have the same keys in the same order, each key once,
    every key is ["Overlay"] or ["Raster k"] with [k] from 1 up to the
    counter, the expression kept for ["Overlay"] is the fixed one, and the
    dropdown lists exactly the stored rasters (in another order when the
    overlay came after a raster, since it is inserted at the top). *)
Theorem dropdown_lists_the_store (acts : list (action A)) :
  let s := run py_eval acts init in
  store_consistent (raster_calculator s)
  /\ ras_calc_list s ≡ₚ get_raster_list (raster_calculator s).
Proof.
  assert (Hrun : forall s, listed s -> listed (run py_eval acts s)).
  { induction acts as [|a acts IH]; intros s Hs; simpl; [exact Hs|].
    apply IH, listed_handle, Hs. }
  apply Hrun. unfold store_consistent, get_raster_list. simpl.
  repeat split; try lia; try constructor; intros; contradiction.
Qed.

End TabStoreFacts.


(** ** The warning flag and the verdict of [load_model] *)

Section ReflectanceFlag.
Context {F : Type} `{PyFloat F}.
Import CoreReflectanceCalculator.

Variable bg_tiles : list (option (ndarray Z)).
Variable expo_sliders : list Z.
Variable ref_cam_entries : list pystr.
Variable EXPO_MS : list F.

Lemma bands_loop_flag frame todo acc shown :
  let out := bands_loop bg_tiles expo_sliders ref_cam_entries EXPO_MS frame
               todo acc shown in
  (snd out = shown \/ (snd out = true /\ fst out = Return None))
  /\ (forall tiles, fst out = Return (Some tiles) -> snd out = shown).
Proof.
  revert acc. induction todo as [|i rest IH]; intros acc; simpl.
  - split; [left; reflexivity|]. intros; reflexivity.
  - destruct (bg_tiles !! i) as [[bg|]|]; simpl.
    + destruct (band_exposure_ms expo_sliders EXPO_MS i) as [e|]; simpl.
      * destruct (feq0 e || feq0 (band_ref_radiance ref_cam_entries i)); simpl.
        -- split; [right; split; reflexivity|]. intros tiles [=].
        -- destruct (binop fsub _ _) as [num|]; simpl.
           ++ apply IH.
           ++ split; [left; reflexivity|]. intros tiles [=].
      * split; [left; reflexivity|]. intros tiles [=].
    + split; [right; split; reflexivity|]. intros tiles [=].
    + split; [left; reflexivity|]. intros tiles [=].
Qed.

(** X5: [calculate_reflectance] never clears
    [warning_invalid_params_shown]; it sets it only when there is a frame
    and it returns [None] (a missing dark-noise tile or a zero parameter),
    and a call that returns tiles leaves the flag as it was.  So the
    warning dialog, which is shown only while the flag is unset, comes up
    once. *)
Theorem calculate_reflectance_warns_once (last_fullframe : option (ndarray Z))
    (shown : bool) :
  let out := calculate_reflectance last_fullframe bg_tiles expo_sliders
               ref_cam_entries EXPO_MS shown in
  (shown = true -> snd out = true)
  /\ (snd out <> shown -> fst out = Return None /\ last_fullframe <> None)
  /\ (forall tiles, fst out = Return (Some tiles) -> snd out = shown).
Proof.
  intros out. subst out. unfold calculate_reflectance.
  destruct last_fullframe as [frame|].
  - destruct (bands_loop_flag frame (seq 0 4) [] shown) as (Hor & Hs).
    cbv zeta in Hor, Hs.
    split; [|split].
    + intros ->. destruct Hor as [E|[E _]]; exact E.
    + intros Hne. destruct Hor as [E|[E1 E2]]; [contradiction|].
      split; [exact E2|discriminate].
    + exact Hs.
  - simpl. repeat split; congruence.
Qed.

End ReflectanceFlag.

Section LoadModelVerdict.
Context {Obj : Type}.
Variable has_predict : Obj -> bool.
Import CoreClassifier.

(** X6: [load_model] returns [True] exactly when the file exists, has at
    least 100 bytes and unpickles to an object with [predict]; the model is
    then the loaded object and [model_path] the path given.  When it
    returns [False], [model_path] is what it was. *)
Theorem load_model_succeeds_iff (fs : filesystem Obj) (filepath : pystr)
    (self : state Obj) :
  let out := load_model has_predict fs filepath self in
  (fst out = true <->
     path_exists fs filepath = true
     /\ 100 <= getsize fs filepath
     /\ exists obj, joblib_load fs filepath = inr (Some obj)
                    /\ has_predict obj = true)
  /\ (fst out = true ->
        model_path (snd out) = Some filepath
        /\ joblib_load fs filepath = inr (model (snd out)))
  /\ (fst out = false -> model_path (snd out) = model_path self).
Proof.
  unfold load_model.
  destruct (path_exists fs filepath); simpl.
  2:{ split; [split; [discriminate|intros (E & _); discriminate]|].
      split; [discriminate|reflexivity]. }
  destruct (Z.ltb_spec (getsize fs filepath) 100) as [Hlt|Hge]; simpl.
  { split; [split; [discriminate|intros (_ & E & _); lia]|].
    split; [discriminate|reflexivity]. }
  destruct (joblib_load fs filepath) as [err|[obj|]]; simpl.
  - split; [split; [discriminate|intros (_ & _ & obj & E & _); discriminate]|].
    split; [discriminate|reflexivity].
  - destruct (has_predict obj) eqn:Ep; simpl.
    + split; [split|].
      * intros _. repeat split; [lia|]. exists obj. split; [reflexivity|exact Ep].
      * reflexivity.
      * split; [intros _; split; reflexivity|discriminate].
    + split; [split; [discriminate|]|].
      * intros (_ & _ & obj' & E & Ep'). congruence.
      * split; [discriminate|reflexivity].
  - split; [split; [discriminate|intros (_ & _ & obj & E & _); discriminate]|].
    split; [discriminate|reflexivity].
Qed.

End LoadModelVerdict.

(** ** Prediction *)

Section PredictionFacts.
Context {Obj F L : Type}.
Variable has_predict : Obj -> bool.
Variable predict : Obj -> list (list F) -> result (list L).
Variable isfinite : F -> bool.
Variable nan : L.
Import CoreClassifierPredict.

Lemma fill_length {T} (mask : list bool) (target values : list T) :
  length (fill mask target values) = length target.
Proof.
  revert target values. induction mask as [|b m IH]; intros [|t tg] values;
    simpl; try reflexivity.
  destruct b; [destruct values|]; simpl; rewrite IH; reflexivity.
Qed.

Lemma count_true_cons b m :
  count_true (b :: m) = ((if b then 1 else 0) + count_true m)%nat.
Proof. unfold count_true. destruct b; reflexivity. Qed.

Lemma fill_nth {T} (mask : list bool) (target values : list T) d p :
  length mask = length target ->
  (p < length target)%nat ->
  nth p (fill mask target values) d
  = if nth p mask false
    then nth (valid_before mask p) values (nth p target d)
    else nth p target d.
Proof.
  unfold valid_before.
  revert target values p. induction mask as [|b m IH]; intros [|t tg] values p;
    simpl; intros Hlen Hp; try lia.
  destruct p as [|q]; simpl.
  - destruct b; [destruct values|]; reflexivity.
  - rewrite count_true_cons.
    destruct b; [destruct values as [|v vs]|]; simpl;
      rewrite IH by lia; try reflexivity.
    destruct (nth q m false); [|reflexivity].
    destruct (count_true (take q m)); reflexivity.
Qed.

Lemma valid_before_lt mask p :
  nth p mask false = true -> (valid_before mask p < count_true mask)%nat.
Proof.
  unfold valid_before. revert p. induction mask as [|b m IH]; intros [|q]; simpl;
    try discriminate.
  - intros ->. rewrite count_true_cons. unfold count_true at 1. simpl. lia.
  - intros E. specialize (IH q E). rewrite !count_true_cons. lia.
Qed.

Lemma select_valid (X : list (list F)) :
  Forall (fun row => forallb isfinite row = true)
         (select (valid_mask isfinite X) X).
Proof.
  unfold valid_mask. induction X as [|row X IH]; simpl; [constructor|].
  destruct (forallb isfinite row) eqn:E; [constructor|]; assumption.
Qed.

Lemma pixel_row_features (fs : ndarray3 F) r c :
  (c < width fs)%nat ->
  pixel_row fs (r * width fs + c) = pixel_features fs r c.
Proof.
  intros Hc. unfold pixel_row, pixel_features.
  assert (Hd : ((r * width fs + c) / width fs = r)%nat).
  { rewrite Nat.div_add_l by lia. rewrite Nat.div_small by lia. lia. }
  assert (Hm : ((r * width fs + c) mod width fs = c)%nat).
  { rewrite Nat.add_comm, Nat.Div0.mod_add. apply Nat.mod_small. exact Hc. }
  rewrite Hd, Hm. reflexivity.
Qed.

Lemma valid_mask_nth (fs : ndarray3 F) p :
  (p < height fs * width fs)%nat ->
  nth p (valid_mask isfinite (pixel_rows fs)) false
  = forallb isfinite (pixel_row fs p).
Proof.
  intros Hp. unfold valid_mask, pixel_rows. rewrite !map_map.
  rewrite (nth_indep _ false (forallb isfinite (pixel_row fs 0)))
    by (rewrite length_map, length_seq; exact Hp).
  rewrite (map_nth (fun x => forallb isfinite (pixel_row fs x))).
  rewrite seq_nth by exact Hp. reflexivity.
Qed.

(** X7: when [predict_classification] returns a label map, the map has
    the height and width of the feature stack; the rows passed to
    [predict] are the pixels all of whose features are finite, in
    row-major order, and no other row; a pixel with a feature that is not
    finite is NaN in the map; and a pixel with finite features carries the
    prediction of its own row (the k-th prediction for the k-th valid
    pixel, or the single prediction when the model returned one value). *)
Theorem predict_classification_label_map (model : option Obj)
    (feature_stack : ndarray3 F) (label_map : ndarray L) :
  predict_classification has_predict predict isfinite nan model
    (Some feature_stack) = Some label_map ->
  let X := pixel_rows feature_stack in
  let mask := valid_mask isfinite X in
  shape label_map = (height feature_stack, width feature_stack)
  /\ Forall (fun row => forallb isfinite row = true) (select mask X)
  /\ exists obj y_pred,
       model = Some obj
       /\ has_predict obj = true
       /\ predict obj (select mask X) = Return y_pred
       /\ (length y_pred = count_true mask \/ length y_pred = 1%nat)
       /\ forall r c,
            (r < height feature_stack)%nat -> (c < width feature_stack)%nat ->
            item label_map r c
            = if forallb isfinite (pixel_features feature_stack r c) then
                nth (if (length y_pred =? count_true mask)%nat
                     then valid_before mask (r * width feature_stack + c)
                     else O)
                    y_pred nan
              else nan.
Proof.
  intros Hrun X mask. unfold predict_classification in Hrun.
  destruct model as [obj|]; [|discriminate].
  destruct (size3 feature_stack =? 0)%nat; [discriminate|].
  fold X mask in Hrun.
  destruct (count_true mask =? 0)%nat; [discriminate|].
  destruct (has_predict obj) eqn:Ep; [|discriminate]. simpl in Hrun.
  destruct (predict obj (select mask X)) as [y_pred|] eqn:Ey; [|discriminate].
  destruct (assign_masked _ mask y_pred) as [flat|] eqn:Ea; [|discriminate].
  set (Hh := height feature_stack) in *. set (W := width feature_stack) in *.
  assert (Hmask : length mask = (Hh * W)%nat).
  { subst mask X. unfold valid_mask, pixel_rows.
    rewrite !length_map, length_seq. reflexivity. }
  assert (Hflat : length flat = (Hh * W)%nat
          /\ (length y_pred = count_true mask \/ length y_pred = 1%nat)
          /\ forall p, (p < Hh * W)%nat ->
               nth p flat nan
               = if nth p mask false then
                   nth (if (length y_pred =? count_true mask)%nat
                        then valid_before mask p else O) y_pred nan
                 else nan).
  { unfold assign_masked in Ea.
    destruct (Nat.eqb_spec (length y_pred) (count_true mask)) as [El|El].
    - injection Ea as <-. rewrite fill_length, repeat_length.
      split; [reflexivity|]. split; [left; exact El|].
      intros p Hp. rewrite fill_nth by (rewrite ?repeat_length; lia).
      rewrite nth_repeat. reflexivity.
    - destruct y_pred as [|v [|]]; try discriminate.
      injection Ea as <-. rewrite fill_length, repeat_length.
      split; [reflexivity|]. split; [right; reflexivity|].
      intros p Hp. rewrite fill_nth by (rewrite ?repeat_length; lia).
      rewrite nth_repeat.
      destruct (nth p mask false) eqn:Em; [|reflexivity].
      pose proof (valid_before_lt mask p Em) as Hlt.
      rewrite (nth_indep _ nan v) by (rewrite repeat_length; exact Hlt).
      rewrite nth_repeat. reflexivity. }
  destruct Hflat as (Hlen & Hshape & Hitems).
  unfold reshape in Hrun. rewrite Hlen, Nat.eqb_refl in Hrun.
  injection Hrun as <-.
  split; [reflexivity|]. split; [apply select_valid|].
  exists obj, y_pred. repeat split; try assumption.
  intros r c Hr Hc. simpl.
  assert (Hp : (r * W + c < Hh * W)%nat) by nia.
  rewrite (Hitems _ Hp).
  subst mask X. rewrite valid_mask_nth by exact Hp.
  rewrite pixel_row_features by exact Hc. reflexivity.
Qed.

(** X8: when [load_model] fails and has replaced the model all the same
    (the object without [predict] that it keeps), [predict_classification]
    returns [None] on every feature stack: the attribute error is caught. *)
Theorem rejected_model_never_predicts (fs : CoreClassifier.filesystem Obj)
    (filepath : pystr) (self : CoreClassifier.state Obj) :
  let out := CoreClassifier.load_model has_predict fs filepath self in
  fst out = false ->
  CoreClassifier.model (snd out) <> CoreClassifier.model self ->
  forall feature_stack,
    predict_classification has_predict predict isfinite nan
      (CoreClassifier.model (snd out)) feature_stack = None.
Proof.
  unfold CoreClassifier.load_model.
  destruct (CoreClassifier.path_exists fs filepath); simpl; [|congruence].
  destruct (CoreClassifier.getsize fs filepath <? 100); simpl; [congruence|].
  destruct (CoreClassifier.joblib_load fs filepath) as [err|loaded]; simpl;
    [congruence|].
  destruct loaded as [obj|]; simpl.
  - destruct (has_predict obj) eqn:Ep; simpl; [discriminate|].
    intros _ _ [stack|]; simpl; [|reflexivity].
    rewrite Ep. simpl.
    destruct (size3 stack =? 0)%nat; [reflexivity|].
    destruct (count_true _ =? 0)%nat; reflexivity.
  - intros _ _ stack. reflexivity.
Qed.

End PredictionFacts.

(** X7 on a stack of two features over three pixels, the middle one with
    a value that is not finite. *)
Lemma predict_classification_label_map_witness :
  CoreClassifierPredict.predict_classification example_has_predict
    example_predict example_isfinite None (Some "RandomForestClassifier")
    (Some example_stack) = Some example_label_map
  /\ shape example_label_map = (1, 3)%nat
  /\ item example_label_map 0 1 = None.
Proof.
  split; [reflexivity|].
  destruct (predict_classification_label_map example_has_predict
              example_predict example_isfinite None
              (Some "RandomForestClassifier") example_stack example_label_map
              eq_refl) as (Hs & _ & obj & y_pred & _ & _ & _ & _ & Hitem).
  split; [exact Hs|]. exact (Hitem 0%nat 1%nat ltac:(simpl; lia) ltac:(simpl; lia)).
Defined.

(** X8 on the file that unpickles to a dictionary. *)
Lemma rejected_model_never_predicts_witness :
  fst (CoreClassifier.load_model example_has_predict example_filesystem
         (lit "notes.joblib") example_classifier) = false
  /\ CoreClassifier.model
       (snd (CoreClassifier.load_model example_has_predict example_filesystem
               (lit "notes.joblib") example_classifier))
     <> CoreClassifier.model example_classifier
  /\ CoreClassifierPredict.predict_classification example_has_predict
       example_predict example_isfinite None
       (CoreClassifier.model
          (snd (CoreClassifier.load_model example_has_predict
                  example_filesystem (lit "notes.joblib") example_classifier)))
       (Some example_stack) = None.
Proof.
  split; [reflexivity|]. split; [discriminate|].
  apply (rejected_model_never_predicts example_has_predict example_predict
           example_isfinite None example_filesystem (lit "notes.joblib")
           example_classifier); [reflexivity|discriminate].
Defined.

(** ** The sections of a configuration file *)

Section ConfigSections.
Context {F : Type}.
Variable str_of_float : F -> pystr.
Variable float_of_text : pystr -> option F.
Variable fzero : F.
Import CoreGeoTransform.

#[local] Abbreviation save := (save_config_ini str_of_float).
#[local] Abbreviation load := (load_config_ini float_of_text fzero).
#[local] Abbreviation read := (read_section float_of_text fzero).

Lemma load_keys_step (config : ini) key rest results hm :
  load_keys float_of_text fzero config (key :: rest) results hm
  = match read config key with
    | Malformed => (Raise, hm)
    | r => load_keys float_of_text fzero config rest
             (<[ key := reading_value r ]> results)
             (<[ key := reading_value r ]> hm)
    end.
Proof.
  unfold read_section. simpl.
  destruct (config !! key) as [section|]; simpl; [|reflexivity].
  destruct (section !! "matrix") as [text|]; simpl.
  - case_bool_decide; [reflexivity|].
    destruct (parse_values float_of_text text) as [values|]; simpl;
      [|reflexivity].
    destruct (reshape fzero values 3 3); reflexivity.
  - reflexivity.
Qed.

Lemma load_keys_sections (config : ini) todo :
  NoDup todo ->
  forall results hm,
    let out := load_keys float_of_text fzero config todo results hm in
    (out.1 = Raise <-> exists key, In key todo /\ read config key = Malformed)
    /\ forall loaded,
         out.1 = Return loaded ->
         (forall key, In key todo ->
            loaded !! key = Some (reading_value (read config key))
            /\ out.2 !! key = Some (reading_value (read config key)))
         /\ (forall key, ~ In key todo ->
               loaded !! key = results !! key).
Proof.
  induction todo as [|k rest IH]; intros Hnd results hm.
  - simpl. split.
    + split; [discriminate|]. intros (key & [] & _).
    + intros loaded [= <-]. split; [intros key []|reflexivity].
  - apply NoDup_cons in Hnd as [Hk Hnd]. rewrite list_elem_of_In in Hk.
    cbv zeta. rewrite load_keys_step.
    destruct (read config k) eqn:Er.
    + cbv zeta.
      specialize (IH Hnd (<[k:=reading_value NoMatrix]> results)
                         (<[k:=reading_value NoMatrix]> hm)).
      cbv zeta in IH. destruct IH as (IHr & IHl). split.
      * rewrite IHr. split; intros (key & Hin & E).
        -- exists key. split; [right; exact Hin|exact E].
        -- destruct Hin as [<-|Hin]; [congruence|]. exists key. auto.
      * intros loaded El. destruct (IHl loaded El) as (Hin & Hout).
        pose proof (load_keys_other str_of_float float_of_text fzero config rest k Hk
                      (<[k:=reading_value NoMatrix]> results)
                      (<[k:=reading_value NoMatrix]> hm)) as (Hhm & Hres).
        split.
        -- intros key [<-|Hkey]; [|apply Hin, Hkey].
           rewrite (Hres loaded El), Hhm, !lookup_insert_eq, Er. auto.
        -- intros key Hkey.
           rewrite Hout by (intros Hx; apply Hkey; right; exact Hx).
           apply lookup_insert_ne. intros ->. apply Hkey. left; reflexivity.
    + cbv zeta.
      specialize (IH Hnd (<[k:=reading_value (Matrix H)]> results)
                         (<[k:=reading_value (Matrix H)]> hm)).
      cbv zeta in IH. destruct IH as (IHr & IHl). split.
      * rewrite IHr. split; intros (key & Hin & E).
        -- exists key. split; [right; exact Hin|exact E].
        -- destruct Hin as [<-|Hin]; [congruence|]. exists key. auto.
      * intros loaded El. destruct (IHl loaded El) as (Hin & Hout).
        pose proof (load_keys_other str_of_float float_of_text fzero config rest k Hk
                      (<[k:=reading_value (Matrix H)]> results)
                      (<[k:=reading_value (Matrix H)]> hm)) as (Hhm & Hres).
        split.
        -- intros key [<-|Hkey]; [|apply Hin, Hkey].
           rewrite (Hres loaded El), Hhm, !lookup_insert_eq, Er. auto.
        -- intros key Hkey.
           rewrite Hout by (intros Hx; apply Hkey; right; exact Hx).
           apply lookup_insert_ne. intros ->. apply Hkey. left; reflexivity.
    + simpl. split.
      * split; [|reflexivity]. intros _. exists k. split; [left; reflexivity|exact Er].
      * intros loaded [=].
Qed.

(** X9: [load_config_ini] on a file that is there reads the sections
    H_21, H_31 and H_41, and nothing else.  It raises exactly when one of
    them holds a text other than [None] that is not nine numbers; when it
    returns, the result has these three keys and no other, each with the
    matrix read or [None], [self.homography_matrices] has the same values
    under them; and in every case the other keys of
    [self.homography_matrices] are left alone. *)
Theorem load_config_ini_reads_three_sections (config : ini)
    (self : homographies F) :
  let out := load (Some config) self in
  (out.1 = Raise <->
     exists key, In key ["H_21"; "H_31"; "H_41"] /\ read config key = Malformed)
  /\ (forall key, ~ In key ["H_21"; "H_31"; "H_41"] -> out.2 !! key = self !! key)
  /\ forall results,
       out.1 = Return (Some results) ->
       forall key,
         if bool_decide (key ∈ ["H_21"; "H_31"; "H_41"]) then
           results !! key = Some (reading_value (read config key))
           /\ out.2 !! key = Some (reading_value (read config key))
         else results !! key = None.
Proof.
  assert (Hnd : NoDup ["H_21"; "H_31"; "H_41"]).
  { apply (bool_decide_unpack (NoDup ["H_21"; "H_31"; "H_41"])).
    vm_compute. exact I. }
  pose proof (load_keys_sections config _ Hnd ∅ self) as Hs.
  pose proof (fun key Hk => proj1 (load_keys_other str_of_float float_of_text fzero config
                        ["H_21"; "H_31"; "H_41"] key Hk ∅ self)) as Ho.
  cbv zeta in Hs. unfold load_config_ini.
  destruct (load_keys float_of_text fzero config _ ∅ self) as [[loaded|] hm];
    simpl in *; destruct Hs as (Hr & Hl).
  - split; [|split].
    + rewrite <- Hr. split; discriminate.
    + exact Ho.
    + intros results [= <-] key. destruct (Hl loaded eq_refl) as (Hin & Hout).
      case_bool_decide as Hk; rewrite list_elem_of_In in Hk.
      * apply Hin, Hk.
      * rewrite (Hout key Hk). apply lookup_empty.
  - split; [|split].
    + rewrite <- Hr. tauto.
    + exact Ho.
    + intros results [=].
Qed.

(** X10: [load_config_ini] updates [self.homography_matrices] key by
    key, so an exception leaves it half updated: with a readable H_21 and a
    malformed H_31 the call raises, and H_21 has already been replaced. *)
Theorem load_config_ini_partial_update (config : ini) (self : homographies F) :
  read config "H_21" <> Malformed ->
  read config "H_31" = Malformed ->
  load (Some config) self
  = (Raise, <[ "H_21" := reading_value (read config "H_21") ]> self).
Proof.
  intros H21 H31. unfold load_config_ini.
  rewrite load_keys_step.
  destruct (read config "H_21") eqn:E21; [| |contradiction];
    rewrite load_keys_step, H31; reflexivity.
Qed.

End ConfigSections.

(** X10 on a file whose H_31 holds two numbers. *)
Lemma load_config_ini_partial_update_witness :
  read_section small_float_parse F0 example_bad_ini "H_21" <> Malformed
  /\ read_section small_float_parse F0 example_bad_ini "H_31" = Malformed
  /\ CoreGeoTransform.load_config_ini small_float_parse F0
       (Some example_bad_ini) CoreGeoTransform.init
     = (Raise,
        <[ "H_21" := reading_value
                       (read_section small_float_parse F0 example_bad_ini "H_21") ]>
          CoreGeoTransform.init).
Proof.
  assert (H21 : read_section small_float_parse F0 example_bad_ini "H_21"
                <> Malformed) by (vm_compute; discriminate).
  assert (H31 : read_section small_float_parse F0 example_bad_ini "H_31"
                = Malformed) by (vm_compute; reflexivity).
  split; [exact H21|]. split; [exact H31|].
  exact (load_config_ini_partial_update small_float_parse F0 example_bad_ini
           CoreGeoTransform.init H21 H31).
Defined.

Section ConfigRoundTrip.
Context {F : Type}.
Variable str_of_float : F -> pystr.
Variable float_of_text : pystr -> option F.
Variable fzero : F.
Import CoreGeoTransform.

#[local] Abbreviation save := (save_config_ini str_of_float).
#[local] Abbreviation load := (load_config_ini float_of_text fzero).

Hypothesis parse_str : forall x, float_of_text (str_of_float x) = Some x.
Hypothesis str_no_comma : forall x, ~ In 44%N (str_of_float x).

Lemma saved_text_reloaded (saved hm : homographies F) key v :
  (forall k H, dict_get saved k = Some H -> shape H = (3, 3)%nat) ->
  hm !! key = Some v ->
  reloaded saved key v ->
  saved_text str_of_float hm key = saved_text str_of_float saved key.
Proof.
  intros Hshape Hv Hr. unfold saved_text, reloaded in *.
  unfold dict_get at 1. rewrite Hv.
  destruct (dict_get saved key) as [H|] eqn:Es.
  - destruct Hr as (H' & -> & Hs' & Hitems).
    rewrite (flatten_3x3 H' Hs'), (flatten_3x3 H (Hshape _ _ Es)).
    rewrite !Hitems by lia. reflexivity.
  - subst v. reflexivity.
Qed.

(** X11: saving, loading and saving again.  When [float(str(x))] gives
    [x] back and no number is written with a comma, loading the file that
    [save_config_ini] wrote succeeds, and a second save writes for H_21,
    H_31 and H_41 the texts of the first file.  The H_11 of the second file
    is the one of the session that loaded, not the one that was saved. *)
Theorem save_load_save_stable (saved self : homographies F) :
  (forall key H, dict_get saved key = Some H -> shape H = (3, 3)%nat) ->
  exists results after,
    load (Some (save saved)) self = (Return (Some results), after)
    /\ (forall key, In key ["H_21"; "H_31"; "H_41"] ->
          save after !! key = save saved !! key)
    /\ save after !! "H_11" = save self !! "H_11".
Proof.
  intros Hshape.
  assert (Hnd : NoDup ["H_21"; "H_31"; "H_41"]).
  { apply (bool_decide_unpack (NoDup ["H_21"; "H_31"; "H_41"])).
    vm_compute. exact I. }
  assert (Hsub : Forall (fun key => In key ["H_11"; "H_21"; "H_31"; "H_41"])
                        ["H_21"; "H_31"; "H_41"]).
  { repeat constructor; simpl; tauto. }
  destruct (load_keys_saved str_of_float float_of_text fzero parse_str
              str_no_comma saved _ Hshape Hsub Hnd ∅ self)
    as (results & after & Hload & Hkeys).
  exists results, after. unfold load_config_ini. rewrite Hload.
  split; [reflexivity|]. split.
  - intros key Hkey. destruct (Hkeys key Hkey) as (v & _ & Hv & Hr).
    rewrite !save_lookup by (simpl in *; tauto).
    rewrite (saved_text_reloaded saved after key v Hshape Hv Hr). reflexivity.
  - rewrite !save_lookup by (simpl; tauto).
    assert (Ho : after !! "H_11" = self !! "H_11").
    { assert (Hno : ~ In "H_11" ["H_21"; "H_31"; "H_41"]).
      { simpl. intros [E|[E|[E|[]]]]; discriminate. }
      pose proof (proj1 (load_keys_other str_of_float float_of_text fzero
                           (save saved) ["H_21"; "H_31"; "H_41"] "H_11" Hno
                           ∅ self)) as Hother.
      rewrite Hload in Hother. exact Hother. }
    unfold saved_text, dict_get. rewrite Ho. reflexivity.
Qed.

End ConfigRoundTrip.

(** X11 on the matrices of the alignment dialog. *)
Lemma save_load_save_stable_witness :
  (forall x, small_float_parse (small_float_str x) = Some x)
  /\ (forall x, ~ In 44%N (small_float_str x))
  /\ (forall key H,
        CoreGeoTransform.dict_get example_homographies key = Some H ->
        shape H = (3, 3)%nat)
  /\ exists results after,
       CoreGeoTransform.load_config_ini small_float_parse F0
         (Some (CoreGeoTransform.save_config_ini small_float_str
                  example_homographies))
         CoreGeoTransform.init
       = (Return (Some results), after)
       /\ (forall key, In key ["H_21"; "H_31"; "H_41"] ->
             CoreGeoTransform.save_config_ini small_float_str after !! key
             = CoreGeoTransform.save_config_ini small_float_str
                 example_homographies !! key)
       /\ CoreGeoTransform.save_config_ini small_float_str after !! "H_11"
          = CoreGeoTransform.save_config_ini small_float_str
              CoreGeoTransform.init !! "H_11".
Proof.
  split; [exact small_float_round_trip|].
  split; [exact small_float_no_comma|].
  split; [exact example_homographies_shape|].
  exact (save_load_save_stable small_float_str small_float_parse F0
           small_float_round_trip small_float_no_comma example_homographies
           CoreGeoTransform.init example_homographies_shape).
Defined.

(** ** Warping and matching *)

Section WarpFacts.
Context {F Image : Type}.
Variable image_shape : Image -> nat * nat.
Variable cv2_warpPerspective : Image -> ndarray F -> nat * nat -> Image.
Import CoreGeoTransform CoreGeoTransformAlign.

(** What [align_all_bands] returns for one band. *)
#[local] Abbreviation aligned_band hm i band :=
  (match dict_get hm (H_key i) with
   | Some H =>
       cv2_warpPerspective band H
         (snd (image_shape band), fst (image_shape band))
   | None => band
   end).

(** X12: [align_all_bands] never raises.  It returns [None] exactly when
    it is not given four images; otherwise it returns four images: band 1
    as it is, and each of the bands 2 to 4 warped with its matrix to its
    own size, or as it is when the matrix is missing or [None]. *)
Theorem align_all_bands_by_band (images : list Image) (hm : homographies F) :
  match align_all_bands image_shape cv2_warpPerspective images hm with
  | Return None => length images <> 4%nat
  | Return (Some aligned) =>
      exists b1 b2 b3 b4,
        images = [b1; b2; b3; b4]
        /\ aligned = [b1; aligned_band hm 2 b2; aligned_band hm 3 b3;
                      aligned_band hm 4 b4]
  | Raise => False
  end.
Proof.
  unfold align_all_bands.
  destruct images as [|b1 [|b2 [|b3 [|b4 [|b5 rest]]]]]; simpl;
    try discriminate.
  unfold py_index; simpl. unfold warp_perspective.
  destruct (dict_get hm (H_key 2)), (dict_get hm (H_key 3)),
    (dict_get hm (H_key 4)); simpl; exists b1, b2, b3, b4; split; reflexivity.
Qed.

End WarpFacts.

Section MatchFacts.
Context {Descriptors : Type}.
Variable knnMatch :
  Descriptors -> Descriptors -> result (list (list CoreGeoTransform.DMatch)).
Import CoreGeoTransform.

Lemma ratio_filter_sublist threshold (matches : list (list DMatch)) :
  sublist (ratio_filter threshold matches) (concat matches).
Proof.
  induction matches as [|pair rest IH]; simpl; [constructor|].
  destruct pair as [|m [|n [|x more]]]; simpl.
  - exact IH.
  - apply sublist_cons, IH.
  - destruct (ratio_test threshold m n).
    + apply sublist_skip. apply sublist_cons, IH.
    + apply sublist_cons. apply sublist_cons, IH.
  - do 3 apply sublist_cons. apply sublist_inserts_l, IH.
Qed.

(** X13: [match_features] does not raise: an exception of the matcher
    gives no match.  Otherwise the matches returned are best matches of
    the pairs of [knnMatch], in their order, at most one per pair, and a
    match is returned exactly when it comes with a runner-up and its
    distance is below 0.75 times the distance of the runner-up. *)
Theorem match_features_passes_ratio_test (desc1 desc2 : Descriptors) :
  let good := match_features knnMatch desc1 desc2 in
  (knnMatch desc1 desc2 = Raise -> good = [])
  /\ (forall matches,
        knnMatch desc1 desc2 = Return matches ->
        sublist good (concat matches)
        /\ (length good <= length matches)%nat
        /\ forall m, In m good <->
             exists n, In [m; n] matches
                       /\ (distance m < (75 # 100) * distance n)%Q).
Proof.
  unfold match_features. split.
  - intros ->. reflexivity.
  - intros matches ->. split; [apply ratio_filter_sublist|]. split.
    + induction matches as [|pair rest IH]; simpl; [lia|].
      destruct pair as [|m [|n [|x more]]]; simpl; try lia.
      destruct (ratio_test _ m n); simpl; lia.
    + intros m. apply ratio_filter_spec.
Qed.

End MatchFacts.

(** ** The live frame *)

Lemma slice_cols_window {T} (a : ndarray T) (x1 x2 : Z) :
  0 <= x1 <= x2 -> x2 <= Z.of_nat (ncols a) ->
  nrows (slice_cols a x1 x2) = nrows a
  /\ ncols (slice_cols a x1 x2) = (Z.to_nat x2 - Z.to_nat x1)%nat
  /\ forall r c, item (slice_cols a x1 x2) r c = item a r (Z.to_nat x1 + c).
Proof.
  intros H1 H2. unfold slice_cols, slice, slice_bound. simpl.
  destruct (Z.ltb_spec (Z.of_nat (nrows a)) 0); [lia|].
  destruct (Z.ltb_spec x1 0); [lia|].
  destruct (Z.ltb_spec x2 0); [lia|].
  repeat split.
  - lia.
  - lia.
  - intros r c. f_equal. lia.
Qed.

Section StackFacts.
Context {T : Type}.
Import NumpyStack.

Lemma hstack_four (a b c d : ndarray T) :
  nrows b = nrows a -> nrows c = nrows a -> nrows d = nrows a ->
  exists out,
    hstack [a; b; c; d] = Some out
    /\ nrows out = nrows a
    /\ ncols out = (ncols a + ncols b + ncols c + ncols d)%nat
    /\ forall r k,
         (k < ncols a -> item out r k = item a r k)%nat
         /\ (k < ncols b -> item out r (ncols a + k) = item b r k)%nat
         /\ (k < ncols c -> item out r (ncols a + ncols b + k) = item c r k)%nat
         /\ (item out r (ncols a + ncols b + ncols c + k) = item d r k)%nat.
Proof.
  intros Hb Hc Hd. unfold hstack, hstack_from, hstack2. simpl.
  rewrite Hb, Nat.eqb_refl. simpl. rewrite Hc, Nat.eqb_refl. simpl.
  rewrite Hd, Nat.eqb_refl. simpl.
  eexists. split; [reflexivity|]. simpl. repeat split; try reflexivity.
  - intros Hk.
    destruct (Nat.ltb_spec k (ncols a + ncols b + ncols c)); [|lia].
    destruct (Nat.ltb_spec k (ncols a + ncols b)); [|lia].
    destruct (Nat.ltb_spec k (ncols a)); [reflexivity|lia].
  - intros Hk.
    destruct (Nat.ltb_spec (ncols a + k) (ncols a + ncols b + ncols c)); [|lia].
    destruct (Nat.ltb_spec (ncols a + k) (ncols a + ncols b)); [|lia].
    destruct (Nat.ltb_spec (ncols a + k) (ncols a)); [lia|].
    f_equal. lia.
  - intros Hk.
    destruct (Nat.ltb_spec (ncols a + ncols b + k) (ncols a + ncols b + ncols c));
      [|lia].
    destruct (Nat.ltb_spec (ncols a + ncols b + k) (ncols a + ncols b)); [lia|].
    f_equal. lia.
  - destruct (Nat.ltb_spec (ncols a + ncols b + ncols c + k)
                           (ncols a + ncols b + ncols c)); [lia|].
    f_equal. lia.
Qed.

End StackFacts.

Section LiveAlignment.
Context {F : Type}.
Variable warp : ndarray Z -> ndarray F -> ndarray Z.
Import CoreGeoTransform CameraViewerTab.

(** [cv2.warpPerspective] returns an image of the size it is asked for,
    here 640 wide and 480 high. *)
Hypothesis warp_size : forall band H, shape (warp band H) = (480, 640)%nat.

(** X14: [apply_alignment] on a frame of 480 x 2560 returns a frame of
    the same shape whose first 640 columns are those of the input; the
    columns of each of the bands 2 to 4 are the warped slice of that band
    when its matrix is there, and the columns of the input otherwise. *)
Theorem apply_alignment_by_band (hm : homographies F) (full_frame : ndarray Z) :
  shape full_frame = (480, 2560)%nat ->
  exists aligned_frame,
    apply_alignment warp hm full_frame = Return aligned_frame
    /\ shape aligned_frame = (480, 2560)%nat
    /\ (forall r c, (c < 640)%nat ->
          item aligned_frame r c = item full_frame r c)
    /\ forall i, In i [2; 3; 4] ->
         forall r c, (c < 640)%nat ->
           item aligned_frame r (Z.to_nat (i - 1) * 640 + c)
           = match dict_get hm (H_key i) with
             | Some H =>
                 item (warp (slice_cols full_frame ((i - 1) * 640) (i * 640)) H)
                      r c
             | None => item full_frame r (Z.to_nat (i - 1) * 640 + c)
             end.
Proof.
  intros Hshape. injection Hshape as Hr Hc.
  destruct (slice_cols_window full_frame 0 640) as (R1 & C1 & I1); [lia|lia|].
  destruct (slice_cols_window full_frame 640 1280) as (R2 & C2 & I2); [lia|lia|].
  destruct (slice_cols_window full_frame 1280 1920) as (R3 & C3 & I3); [lia|lia|].
  destruct (slice_cols_window full_frame 1920 2560) as (R4 & C4 & I4); [lia|lia|].
  set (b1 := slice_cols full_frame 0 640) in *.
  set (b2 := slice_cols full_frame 640 1280) in *.
  set (b3 := slice_cols full_frame 1280 1920) in *.
  set (b4 := slice_cols full_frame 1920 2560) in *.
  set (a2 := match dict_get hm (H_key 2) with Some H => warp b2 H | None => b2 end).
  set (a3 := match dict_get hm (H_key 3) with Some H => warp b3 H | None => b3 end).
  set (a4 := match dict_get hm (H_key 4) with Some H => warp b4 H | None => b4 end).
  assert (S2 : nrows a2 = 480%nat /\ ncols a2 = 640%nat).
  { subst a2. destruct (dict_get hm (H_key 2)) as [H|].
    - pose proof (warp_size b2 H) as E. injection E as -> ->. split; reflexivity.
    - split; lia. }
  assert (S3 : nrows a3 = 480%nat /\ ncols a3 = 640%nat).
  { subst a3. destruct (dict_get hm (H_key 3)) as [H|].
    - pose proof (warp_size b3 H) as E. injection E as -> ->. split; reflexivity.
    - split; lia. }
  assert (S4 : nrows a4 = 480%nat /\ ncols a4 = 640%nat).
  { subst a4. destruct (dict_get hm (H_key 4)) as [H|].
    - pose proof (warp_size b4 H) as E. injection E as -> ->. split; reflexivity.
    - split; lia. }
  assert (Hrun : apply_alignment warp hm full_frame
                 = match NumpyStack.hstack [b1; a2; a3; a4] with
                   | Some f => Return f
                   | None => Raise
                   end).
  { unfold apply_alignment. fold b1 b2 b3 b4. unfold py_index. simpl.
    subst a2 a3 a4.
    destruct (dict_get hm (H_key 2)), (dict_get hm (H_key 3)),
      (dict_get hm (H_key 4)); reflexivity. }
  destruct (hstack_four b1 a2 a3 a4) as (out & Hout & Ro & Co & Io);
    [lia|lia|lia|].
  exists out. rewrite Hrun, Hout. split; [reflexivity|].
  split; [unfold shape; f_equal; lia|].
  split.
  - intros r c Hlt. destruct (Io r c) as (E & _). rewrite E by lia.
    rewrite I1. reflexivity.
  - intros i Hi r c Hlt. destruct (Io r c) as (_ & E2 & E3 & E4).
    destruct Hi as [<-|[<-|[<-|[]]]].
    + change (Z.to_nat (2 - 1) * 640 + c)%nat with (640 + c)%nat.
      change ((2 - 1) * 640) with 640. change (2 * 640) with 1280. fold b2.
      replace (640 + c)%nat with (ncols b1 + c)%nat by lia.
      rewrite E2 by lia. subst a2.
      destruct (dict_get hm (H_key 2)); [reflexivity|].
      rewrite I2. f_equal. lia.
    + change (Z.to_nat (3 - 1) * 640 + c)%nat with (1280 + c)%nat.
      change ((3 - 1) * 640) with 1280. change (3 * 640) with 1920. fold b3.
      replace (1280 + c)%nat with (ncols b1 + ncols a2 + c)%nat by lia.
      rewrite E3 by lia. subst a3.
      destruct (dict_get hm (H_key 3)); [reflexivity|].
      rewrite I3. f_equal. lia.
    + change (Z.to_nat (4 - 1) * 640 + c)%nat with (1920 + c)%nat.
      change ((4 - 1) * 640) with 1920. change (4 * 640) with 2560. fold b4.
      replace (1920 + c)%nat with (ncols b1 + ncols a2 + ncols a3 + c)%nat by lia.
      rewrite E4. subst a4.
      destruct (dict_get hm (H_key 4)); [reflexivity|].
      rewrite I4. f_equal. lia.
Qed.

End LiveAlignment.

(** X14 on the flat frame, with a matrix for band 2 only. *)
Lemma apply_alignment_by_band_witness :
  (forall band H, shape (example_warp band H) = (480, 640)%nat)
  /\ shape example_frame = (480, 2560)%nat
  /\ exists aligned_frame,
       CameraViewerTab.apply_alignment example_warp example_homographies
         example_frame = Return aligned_frame
       /\ shape aligned_frame = (480, 2560)%nat
       /\ forall r c, (c < 640)%nat ->
            item aligned_frame r c = item example_frame r c.
Proof.
  split; [intros; reflexivity|]. split; [reflexivity|].
  destruct (apply_alignment_by_band example_warp
              (fun band H => eq_refl) example_homographies example_frame
              eq_refl) as (f & Hrun & Hs & Hb1 & _).
  exists f. split; [exact Hrun|]. split; [exact Hs|exact Hb1].
Defined.

(** ** The centred window, dark noise and the reference image *)

(** X15: the centred window that the two estimators average.  It has
    [min(100, h)] rows and [min(100, w)] columns, starting at row
    [max(0, h/2 - 50)] and column [max(0, w/2 - 50)]; so it is empty only
    when the tile is, and the guard [roi.size == 0] does not fire on a
    tile with a pixel. *)
Theorem center_roi_clamped (tile : ndarray Z) :
  let roi := CoreRefRadianceEstimator.center_roi tile in
  shape roi = (Nat.min 100 (nrows tile), Nat.min 100 (ncols tile))
  /\ (size roi = 0%nat <-> size tile = 0%nat)
  /\ forall r c,
       item roi r c
       = item tile (nrows tile / 2 - 50 + r)%nat (ncols tile / 2 - 50 + c)%nat.
Proof.
  destruct (center_roi_window tile) as (Hr & Hc & Hi). cbv zeta in *.
  set (roi := CoreRefRadianceEstimator.center_roi tile) in *.
  assert (Hh : Z.of_nat (nrows tile / 2) = Z.of_nat (nrows tile) / 2)
    by (rewrite Nat2Z.inj_div; reflexivity).
  assert (Hw : Z.of_nat (ncols tile / 2) = Z.of_nat (ncols tile) / 2)
    by (rewrite Nat2Z.inj_div; reflexivity).
  pose proof (Z.div_mod (Z.of_nat (nrows tile)) 2 ltac:(lia)) as Dh.
  pose proof (Z.mod_pos_bound (Z.of_nat (nrows tile)) 2 ltac:(lia)) as Bh.
  pose proof (Z.div_mod (Z.of_nat (ncols tile)) 2 ltac:(lia)) as Dw.
  pose proof (Z.mod_pos_bound (Z.of_nat (ncols tile)) 2 ltac:(lia)) as Bw.
  set (qh := Z.of_nat (nrows tile) / 2) in *.
  set (qw := Z.of_nat (ncols tile) / 2) in *.
  set (nh := (nrows tile / 2)%nat) in *.
  set (nw := (ncols tile / 2)%nat) in *.
  assert (Hrows : nrows roi = Nat.min 100 (nrows tile)) by lia.
  assert (Hcols : ncols roi = Nat.min 100 (ncols tile)) by lia.
  split; [unfold shape; congruence|]. split.
  - unfold size. rewrite Hrows, Hcols. nia.
  - intros r c. rewrite Hi. f_equal; lia.
Qed.

Section DarkNoiseFacts.
Context {F : Type} `{PyFloat F}.
Variable draw_ok : ndarray Z -> bool.
Import CoreDarkNoiseEstimator.

Lemma dark_bands_loop_spec (bg_tiles : list (option (ndarray Z))) todo :
  (forall i, In i todo -> (i < length bg_tiles)%nat) ->
  (forall i tile, bg_tiles !! i = Some (Some tile) -> draw_ok tile = true) ->
  forall entries,
  exists out,
    bands_loop draw_ok bg_tiles todo entries = Return out
    /\ length out = length entries
    /\ forall i,
         out !! i
         = match bg_tiles !! i with
           | Some (Some tile) =>
               if bool_decide (i ∈ todo) && bool_decide (i < length entries)%nat
               then Some (format_2f (window_mean tile))
               else entries !! i
           | _ => entries !! i
           end.
Proof.
  intros Hin Hdraw. induction todo as [|k rest IH]; intros entries; simpl.
  - exists entries. repeat split. intros i.
    destruct (bg_tiles !! i) as [[tile|]|]; reflexivity.
  - assert (Hrest : forall i, In i rest -> (i < length bg_tiles)%nat)
      by (intros i Hi; apply Hin; right; exact Hi).
    specialize (IH Hrest).
    destruct (bg_tiles !! k) as [[tile|]|] eqn:Ek.
    + rewrite (Hdraw _ _ Ek).
      destruct (IH (<[k:=format_2f (window_mean tile)]> entries))
        as (out & Hrun & Hlen & Hitems).
      exists out. rewrite length_insert in Hlen. repeat split; try assumption.
      intros i. rewrite Hitems, length_insert.
      destruct (bg_tiles !! i) as [[tile'|]|] eqn:Ei.
      * destruct (decide (i = k)) as [->|Hne].
        -- assert (tile' = tile) by congruence. subst tile'.
           rewrite (bool_decide_eq_true_2 (k ∈ k :: rest))
             by apply list_elem_of_here.
           destruct (decide (k < length entries)%nat) as [Hlt|Hge].
           ++ rewrite (bool_decide_eq_true_2 _ Hlt).
              rewrite list_lookup_insert_eq by exact Hlt.
              destruct (bool_decide (k ∈ rest)); reflexivity.
           ++ rewrite (bool_decide_eq_false_2 _ Hge), andb_false_r. simpl.
              rewrite !lookup_ge_None_2 by (rewrite ?length_insert; lia).
              reflexivity.
        -- rewrite list_lookup_insert_ne by congruence.
           assert (E : bool_decide (i ∈ k :: rest) = bool_decide (i ∈ rest)).
           { apply bool_decide_ext. rewrite elem_of_cons. tauto. }
           rewrite E. reflexivity.
      * destruct (decide (i = k)) as [->|Hne]; [congruence|].
        apply list_lookup_insert_ne. congruence.
      * destruct (decide (i = k)) as [->|Hne]; [congruence|].
        apply list_lookup_insert_ne. congruence.
    + destruct (IH entries) as (out & Hrun & Hlen & Hitems).
      exists out. repeat split; try assumption.
      intros i. rewrite Hitems.
      destruct (bg_tiles !! i) as [[tile'|]|] eqn:Ei; try reflexivity.
      assert (Hne : i <> k) by congruence.
      assert (E : bool_decide (i ∈ k :: rest) = bool_decide (i ∈ rest)).
      { apply bool_decide_ext. rewrite elem_of_cons. tauto. }
      rewrite E. reflexivity.
    + apply lookup_ge_None in Ek. specialize (Hin k (or_introl eq_refl)). lia.
Qed.

(** X16: [estimate_background_noise], when the drawing calls return,
    returns with as many entries as before; given four labels and four
    entries, the entry of each loaded tile becomes the mean of its centred
    window with two decimals and the entry of a band without tile is kept;
    with another number of labels or entries nothing is written. *)
Theorem estimate_background_noise_entries
    (bg_tiles : list (option (ndarray Z))) (bg_labels : nat)
    (bg_cam_entries : list pystr) :
  length bg_tiles = 4%nat ->
  (forall i tile, bg_tiles !! i = Some (Some tile) -> draw_ok tile = true) ->
  exists entries,
    estimate_background_noise draw_ok bg_tiles bg_labels bg_cam_entries
    = Return entries
    /\ length entries = length bg_cam_entries
    /\ forall i,
         entries !! i
         = match bg_tiles !! i with
           | Some (Some tile) =>
               if (bg_labels =? 4)%nat && (length bg_cam_entries =? 4)%nat
               then Some (format_2f (window_mean tile))
               else bg_cam_entries !! i
           | _ => bg_cam_entries !! i
           end.
Proof.
  intros Hlen Hdraw. unfold estimate_background_noise.
  destruct (Nat.eqb_spec bg_labels 4) as [El|El]; simpl.
  2:{ exists bg_cam_entries. repeat split. intros i.
      destruct (bg_tiles !! i) as [[tile|]|]; reflexivity. }
  destruct (Nat.eqb_spec (length bg_cam_entries) 4) as [Ee|Ee]; simpl.
  2:{ exists bg_cam_entries. repeat split. intros i.
      destruct (bg_tiles !! i) as [[tile|]|]; reflexivity. }
  destruct (dark_bands_loop_spec bg_tiles (seq 0 4)) with (entries := bg_cam_entries)
    as (out & Hrun & Hl & Hitems).
  { intros i Hi. apply in_seq in Hi. lia. }
  { exact Hdraw. }
  exists out. repeat split; try assumption.
  intros i. rewrite Hitems.
  destruct (bg_tiles !! i) as [[tile|]|] eqn:Ei; try reflexivity.
  apply lookup_lt_Some in Ei.
  rewrite bool_decide_eq_true_2 by (apply elem_of_seq; lia).
  rewrite bool_decide_eq_true_2 by lia. reflexivity.
Qed.

End DarkNoiseFacts.

(** X16 on four flat dark tiles. *)
Lemma estimate_background_noise_entries_witness :
  length example_bg_tiles = 4%nat
  /\ (forall i tile, example_bg_tiles !! i = Some (Some tile) ->
        (fun _ : ndarray Z => true) tile = true)
  /\ exists entries,
       @CoreDarkNoiseEstimator.estimate_background_noise Q Reference.rational
         (fun _ => true) example_bg_tiles 4 example_dark_entries
       = Return entries
       /\ length entries = 4%nat.
Proof.
  split; [reflexivity|]. split; [intros; reflexivity|].
  destruct (@estimate_background_noise_entries Q Reference.rational
              (fun _ => true) example_bg_tiles 4 example_dark_entries
              eq_refl (fun _ _ _ => eq_refl)) as (entries & Hrun & Hlen & _).
  exists entries. split; [exact Hrun|exact Hlen].
Defined.

Lemma slice_cols_window_nat {T} (a : ndarray T) (i j : nat) :
  (i <= j /\ j * 640 <= ncols a)%nat ->
  nrows (slice_cols a (Z.of_nat (i * CoreImageLoad.FRAME_W))
                      (Z.of_nat (j * CoreImageLoad.FRAME_W))) = nrows a
  /\ ncols (slice_cols a (Z.of_nat (i * CoreImageLoad.FRAME_W))
                         (Z.of_nat (j * CoreImageLoad.FRAME_W)))
     = ((j - i) * 640)%nat
  /\ forall r c,
       item (slice_cols a (Z.of_nat (i * CoreImageLoad.FRAME_W))
                          (Z.of_nat (j * CoreImageLoad.FRAME_W))) r c
       = item a r (i * 640 + c)%nat.
Proof.
  intros Hij. unfold CoreImageLoad.FRAME_W.
  unfold slice_cols, slice, slice_bound. simpl item. simpl nrows. simpl ncols.
  destruct (Z.ltb_spec (Z.of_nat (nrows a)) 0); [lia|].
  destruct (Z.ltb_spec (Z.of_nat (i * 640)) 0); [lia|].
  destruct (Z.ltb_spec (Z.of_nat (j * 640)) 0); [lia|].
  change (0 <? 0) with false. cbv iota.
  repeat split.
  - lia.
  - lia.
  - intros r c. f_equal; lia.
Qed.

(** X17: [load_reference_image] on a picture of 480 x 2560 fills the
    four slots of the store, whatever they held, with tiles of 480 x 640
    that partition the picture: pixel [(r, c)] of tile [i] is pixel
    [(r, 640 i + c)] of the picture. *)
Theorem load_reference_image_splits (img : ndarray Z)
    (tiles_store : list (option (ndarray Z))) :
  shape img = (480, 2560)%nat ->
  length tiles_store = 4%nat ->
  exists t0 t1 t2 t3,
    CoreImageLoad.load_reference_image (Some img) tiles_store
    = [Some t0; Some t1; Some t2; Some t3]
    /\ forall i tile,
         [t0; t1; t2; t3] !! i = Some tile ->
         shape tile = (480, 640)%nat
         /\ forall r c, item tile r c = item img r (i * 640 + c)%nat.
Proof.
  intros Hshape Hlen. unfold CoreImageLoad.load_reference_image.
  rewrite bool_decide_eq_true_2 by exact Hshape. simpl.
  destruct tiles_store as [|s0 [|s1 [|s2 [|s3 [|s4 rest]]]]]; try discriminate.
  injection Hshape as Hr Hc.
  do 4 eexists. split; [reflexivity|].
  intros i tile Hi.
  destruct i as [|[|[|[|i]]]]; try discriminate; injection Hi as <-.
  - destruct (slice_cols_window_nat img 0 1) as (R & C & I); [lia|].
    split; [unfold shape; f_equal; [exact (eq_trans R Hr)|exact C]|exact I].
  - destruct (slice_cols_window_nat img 1 2) as (R & C & I); [lia|].
    split; [unfold shape; f_equal; [exact (eq_trans R Hr)|exact C]|exact I].
  - destruct (slice_cols_window_nat img 2 3) as (R & C & I); [lia|].
    split; [unfold shape; f_equal; [exact (eq_trans R Hr)|exact C]|exact I].
  - destruct (slice_cols_window_nat img 3 4) as (R & C & I); [lia|].
    split; [unfold shape; f_equal; [exact (eq_trans R Hr)|exact C]|exact I].
Qed.

(** X17 on the flat frame and an empty store. *)
Lemma load_reference_image_splits_witness :
  shape example_frame = (480, 2560)%nat
  /\ length [None; None; None; @None (ndarray Z)] = 4%nat
  /\ exists t0 t1 t2 t3,
       CoreImageLoad.load_reference_image (Some example_frame)
         [None; None; None; None]
       = [Some t0; Some t1; Some t2; Some t3]
       /\ forall r c, item t2 r c = item example_frame r (2 * 640 + c)%nat.
Proof.
  split; [reflexivity|]. split; [reflexivity|].
  destruct (load_reference_image_splits example_frame [None; None; None; None]
              eq_refl eq_refl) as (t0 & t1 & t2 & t3 & Hrun & Htiles).
  exists t0, t1, t2, t3. split; [exact Hrun|].
  exact (proj2 (Htiles 2%nat t2 eq_refl)).
Defined.

(** ** Exposure levels and the end of the receiver thread *)

Section ExposureFacts.
Import CameraGainExposure.

Lemma fold_min_spec (l : list Z) (x : Z) :
  let m := fold_left Z.min l x in
  (m = x \/ In m l) /\ m <= x /\ forall y, In y l -> m <= y.
Proof.
  revert x. induction l as [|a l IH]; intros x; simpl.
  - split; [left; reflexivity|]. split; [lia|]. intros y [].
  - destruct (IH (Z.min x a)) as ([E|E] & Hle & Hall).
    + split; [|split].
      * rewrite E.
        destruct (Z.min_spec x a) as [[_ Em]|[_ Em]]; rewrite Em;
          [left; reflexivity|right; left; reflexivity].
      * lia.
      * intros y [<-|Hy]; [lia|apply Hall, Hy].
    + split; [right; right; exact E|]. split; [lia|].
      intros y [<-|Hy]; [lia|apply Hall, Hy].
Qed.

Lemma py_min_spec (l : list Z) m :
  py_min l = Some m -> In m l /\ forall y, In y l -> m <= y.
Proof.
  destruct l as [|x l]; [discriminate|]. intros [= <-].
  destruct (fold_min_spec l x) as ([E|E] & Hle & Hall).
  - split; [left; symmetry; exact E|]. intros y [<-|Hy]; [lia|apply Hall, Hy].
  - split; [right; exact E|]. intros y [<-|Hy]; [lia|apply Hall, Hy].
Qed.

Lemma py_list_index_spec (l : list Z) x k :
  py_list_index l x = Some k ->
  l !! k = Some x /\ forall j y, (j < k)%nat -> l !! j = Some y -> y <> x.
Proof.
  revert k. induction l as [|a l IH]; intros k; simpl; [discriminate|].
  destruct (Z.eqb_spec a x) as [->|Hne].
  - intros [= <-]. split; [reflexivity|]. intros j y Hj. lia.
  - destruct (py_list_index l x) as [k'|]; [|discriminate].
    intros [= <-]. destruct (IH k' eq_refl) as (Hk & Hbefore).
    split; [exact Hk|]. intros [|j] y Hj; simpl.
    + intros [= <-]. exact Hne.
    + apply Hbefore. lia.
Qed.

Lemma py_list_index_found (l : list Z) x :
  In x l -> is_Some (py_list_index l x).
Proof.
  induction l as [|a l IH]; simpl; [tauto|].
  intros Hin. destruct (Z.eqb_spec a x); [eexists; reflexivity|].
  destruct Hin as [E|Hin]; [contradiction|].
  destruct (IH Hin) as (k & ->). eexists; reflexivity.
Qed.

Lemma nearest_level_unfold (val : Z) :
  nearest_level val
  = let diffs := map (fun ev => Z.abs (val - ev)) EXPO_ABS in
    match py_min diffs with
    | Some m =>
        match py_list_index diffs m with
        | Some k => Some (Z.of_nat k + 1)
        | None => None
        end
    | None => None
    end.
Proof. reflexivity. Qed.

Lemma nearest_level_bound (val : Z) :
  exists level, nearest_level val = Some level /\ 1 <= level <= 12.
Proof.
  rewrite nearest_level_unfold. cbv zeta.
  set (diffs := map (fun ev => Z.abs (val - ev)) EXPO_ABS).
  destruct (py_min diffs) as [m|] eqn:Em; [|discriminate].
  destruct (py_min_spec diffs m Em) as (Hin & _).
  destruct (py_list_index_found diffs m Hin) as (k & Ek).
  destruct (py_list_index_spec diffs m k Ek) as (Hk & _).
  rewrite Ek.
  apply lookup_lt_Some in Hk. subst diffs. rewrite length_map in Hk.
  simpl in Hk. eexists. split; [reflexivity|]. lia.
Qed.

(** X18: the level that [get_camera_exposures] computes for a raw
    exposure value is between 1 and 12, the value of [EXPO_ABS] at that
    level is as near to the raw value as any value of the table, and
    strictly nearer than the values of the lower levels: a tie goes to the
    lower level. *)
Theorem nearest_level_minimises (val : Z) :
  exists level ev,
    nearest_level val = Some level
    /\ 1 <= level <= 12
    /\ EXPO_ABS !! Z.to_nat (level - 1) = Some ev
    /\ forall j ev',
         EXPO_ABS !! j = Some ev' ->
         Z.abs (val - ev) <= Z.abs (val - ev')
         /\ (Z.of_nat j < level - 1 -> Z.abs (val - ev) < Z.abs (val - ev')).
Proof.
  rewrite nearest_level_unfold. cbv zeta.
  set (diffs := map (fun ev => Z.abs (val - ev)) EXPO_ABS).
  destruct (py_min diffs) as [m|] eqn:Em; [|discriminate].
  destruct (py_min_spec diffs m Em) as (Hin & Hmin).
  destruct (py_list_index_found diffs m Hin) as (k & Ek).
  destruct (py_list_index_spec diffs m k Ek) as (Hk & Hbefore).
  rewrite Ek.
  assert (Hlen : (k < 12)%nat).
  { apply lookup_lt_Some in Hk. subst diffs. rewrite length_map in Hk.
    exact Hk. }
  subst diffs. rewrite list_lookup_fmap in Hk.
  destruct (EXPO_ABS !! k) as [ev|] eqn:Eev; [|discriminate].
  injection Hk as Hk.
  exists (Z.of_nat k + 1), ev. split; [reflexivity|]. split; [lia|]. split.
  { replace (Z.to_nat (Z.of_nat k + 1 - 1)) with k by lia. exact Eev. }
  intros j ev' Ej.
  assert (Hd : map (fun ev => Z.abs (val - ev)) EXPO_ABS !! j
               = Some (Z.abs (val - ev'))).
  { rewrite list_lookup_fmap, Ej. reflexivity. }
  split.
  - rewrite Hk. apply Hmin. apply list_elem_of_In. eapply list_elem_of_lookup_2.
    exact Hd.
  - intros Hj.
    assert (Hne : Z.abs (val - ev') <> m) by (apply (Hbefore j); [lia|exact Hd]).
    assert (Hle : m <= Z.abs (val - ev')).
    { apply Hmin. apply list_elem_of_In. eapply list_elem_of_lookup_2. exact Hd. }
    lia.
Qed.

(** X19: setting and reading an exposure level.  For every level
    requested, [set_camera_expo] finds a raw value in the table (the level
    is clamped to 1..12 first), and the level that [get_camera_exposures]
    computes from this raw value is the clamped level. *)
Theorem exposure_level_round_trip (level : Z) :
  exists expo_val,
    exposure_command_value level = Some expo_val
    /\ nearest_level expo_val = Some (Z.max 1 (Z.min 12 level)).
Proof.
  unfold exposure_command_value.
  set (l := Z.max 1 (Z.min 12 level)).
  assert (Hl : l = 1 \/ l = 2 \/ l = 3 \/ l = 4 \/ l = 5 \/ l = 6 \/ l = 7
               \/ l = 8 \/ l = 9 \/ l = 10 \/ l = 11 \/ l = 12) by lia.
  clearbody l.
  repeat (destruct Hl as [->|Hl]; [eexists; split; reflexivity|]).
  subst l. eexists; split; reflexivity.
Qed.

Section Query.
Variable connect_ok close_ok : bool.
Variable query : Z -> result pystr.
Variable first_int : pystr -> result (option Z).

Lemma level_of_reply_range reply level :
  level_of_reply first_int reply = Return level -> 1 <= level <= 12.
Proof.
  unfold level_of_reply.
  destruct (first_int reply) as [[val|]|]; try discriminate.
  - destruct (nearest_level val) as [l|] eqn:E; [|discriminate].
    intros [= <-]. destruct (nearest_level_bound val) as (l' & E' & Hl).
    congruence.
  - intros [= <-]. lia.
Qed.

Lemma devices_loop_levels devices levels out :
  devices_loop query first_int devices levels = Return out ->
  exists found,
    out = levels ++ found
    /\ length found = length devices
    /\ Forall (fun level => 1 <= level <= 12) found.
Proof.
  revert levels. induction devices as [|dev rest IH]; intros levels; simpl.
  - intros [= <-]. exists []. rewrite app_nil_r. repeat split. constructor.
  - destruct (query dev) as [reply|]; [|discriminate].
    destruct (level_of_reply first_int reply) as [level|] eqn:El; [|discriminate].
    intros Hrun. destruct (IH _ Hrun) as (found & -> & Hlen & Hall).
    exists (level :: found). rewrite <- app_assoc. repeat split.
    + simpl. congruence.
    + constructor; [eapply level_of_reply_range, El|exact Hall].
Qed.

(** X20: every level that [get_camera_exposures] returns is between 1
    and 12.  It returns four levels (eight only when [CAMERA_IP] is [None]
    and the session succeeds all the same, the four defaults being kept in
    front), and exactly [[1, 1, 1, 1]] when connecting or closing fails. *)
Theorem get_camera_exposures_in_range (camera_ip_is_none : bool) :
  let levels :=
    get_camera_exposures connect_ok close_ok query first_int camera_ip_is_none in
  Forall (fun level => 1 <= level <= 12) levels
  /\ (length levels = 4%nat
      \/ (camera_ip_is_none = true /\ length levels = 8%nat))
  /\ (connect_ok && close_ok = false -> levels = [1; 1; 1; 1]).
Proof.
  assert (Hones : Forall (fun level => 1 <= level <= 12) [1; 1; 1; 1]).
  { repeat constructor; lia. }
  unfold get_camera_exposures. cbv zeta.
  destruct connect_ok; cbn [negb andb];
    [|split; [exact Hones|split; [left|]; reflexivity]].
  destruct (devices_loop query first_int CAM_DEVICES _) as [out|] eqn:Erun;
    [|split; [exact Hones|split; [left; reflexivity|]]; reflexivity].
  destruct close_ok;
    [|split; [exact Hones|split; [left|]; reflexivity]].
  destruct (devices_loop_levels _ _ _ Erun) as (found & -> & Hlen & Hall).
  split; [|split; [|discriminate]].
  - apply Forall_app. split; [|exact Hall].
    destruct camera_ip_is_none; [exact Hones|constructor].
  - rewrite length_app, Hlen.
    destruct camera_ip_is_none; [right; split; reflexivity|left; reflexivity].
Qed.

End Query.

End ExposureFacts.

Section ReceiverStop.
Variable imdecode : list Z -> option (ndarray Z).
Import ZMQReceiverThread.

(** X21: once [isInterruptionRequested] answers yes the receiver thread
    is done: what it emits is what it emitted on the turns before, and
    nothing that arrives later is decoded. *)
Theorem run_stops_at_interruption (pre post : list tick) (t : tick) :
  interruption_requested t = true ->
  run imdecode (pre ++ t :: post) = run imdecode pre.
Proof.
  intros Ht. induction pre as [|a pre IH]; simpl.
  - rewrite Ht. reflexivity.
  - destruct (interruption_requested a); [reflexivity|].
    destruct (received a); rewrite IH; reflexivity.
Qed.

End ReceiverStop.

(** X21 on three turns, the second with the interruption. *)
Lemma run_stops_at_interruption_witness :
  ZMQReceiverThread.interruption_requested
    {| ZMQReceiverThread.interruption_requested := true;
       ZMQReceiverThread.received := ZMQReceiverThread.Message [256; 7] |}
  = true
  /\ ZMQReceiverThread.run example_imdecode
       ([ {| ZMQReceiverThread.interruption_requested := false;
             ZMQReceiverThread.received := ZMQReceiverThread.Message [256; 1] |} ]
        ++ {| ZMQReceiverThread.interruption_requested := true;
              ZMQReceiverThread.received := ZMQReceiverThread.Message [256; 7] |}
        :: [ {| ZMQReceiverThread.interruption_requested := false;
                ZMQReceiverThread.received :=
                  ZMQReceiverThread.Message [256; 9] |} ])
     = ZMQReceiverThread.run example_imdecode
         [ {| ZMQReceiverThread.interruption_requested := false;
              ZMQReceiverThread.received := ZMQReceiverThread.Message [256; 1] |} ].
Proof.
  split; [reflexivity|].
  apply (run_stops_at_interruption example_imdecode). reflexivity.
Defined.
